(** * PRReviewer content script: extraction chain, remote fetcher,
      review orchestrator, prompt builder and response parser.

    A shallow embedding of the content script of the ADO PR Reviewer
    browser extension.  JavaScript strings are sequences of UTF-16 code
    units, JSON documents are values of [JValue], thrown exceptions are the
    [Throw] results of an exception monad.  The document is reached
    through the operations of the [DomScan.Dom] class, over which the
    strategies that scan the DOM are embedded; the network and the panel
    are the other operations of the [Browser] class.  The call to the
    model is in the module [Gemini], the settings of the popup and the
    filters of the panel in the modules [Popup] and [Panel]. *)

From Stdlib Require Import List NArith ZArith String Ascii Bool Arith Lia
  Sorted.
Import ListNotations.

Set Implicit Arguments.
Set Warnings "-register-all".
Open Scope string_scope.
Open Scope list_scope.

(* ================================================================== *)
(** * JavaScript strings *)
(* ================================================================== *)

(** A string is its sequence of UTF-16 code units. *)
Definition jstring := list N.

(** A literal of the source, given in ASCII. *)
Definition lit (s : string) : jstring :=
  map N_of_ascii (list_ascii_of_string s).

(** Literals that contain double quotes are written with a tilde in the
    place of each: [litq] reads the tilde as a double quote (no literal of
    the source contains a tilde). *)
Definition dquote : N := 34.

Definition litq (s : string) : jstring :=
  map (fun c => if N.eqb c 126 then dquote else c) (lit s).

Fixpoint str_eqb (a b : jstring) : bool :=
  match a, b with
  | [], [] => true
  | x :: a', y :: b' => N.eqb x y && str_eqb a' b'
  | _, _ => false
  end.

Fixpoint dropWhile (p : N -> bool) (s : jstring) : jstring :=
  match s with
  | [] => []
  | c :: s' => if p c then dropWhile p s' else s
  end.

(** WhiteSpace and LineTerminator of ECMAScript: what [String.prototype.trim]
    strips and what [\s] matches. *)
Definition isWhiteSpace (c : N) : bool :=
  (N.eqb c 9 || N.eqb c 10 || N.eqb c 11 || N.eqb c 12 || N.eqb c 13
   || N.eqb c 32 || N.eqb c 160 || N.eqb c 5760
   || (N.leb 8192 c && N.leb c 8202)
   || N.eqb c 8232 || N.eqb c 8233 || N.eqb c 8239 || N.eqb c 8287
   || N.eqb c 12288 || N.eqb c 65279)%bool.

Definition trimStart (s : jstring) : jstring := dropWhile isWhiteSpace s.
Definition trimEnd (s : jstring) : jstring :=
  rev (dropWhile isWhiteSpace (rev s)).

(** [s.trim()] *)
Definition trim (s : jstring) : jstring := trimEnd (trimStart s).

(** [s.length] *)
Definition len (s : jstring) : N := N.of_nat (List.length s).

(** [s.substring(0, n)] for a non-negative integer [n]. *)
Definition substring0 (n : N) (s : jstring) : jstring :=
  firstn (N.to_nat n) s.

(** [parts.join(sep)] on an array of strings. *)
Fixpoint join (sep : jstring) (parts : list jstring) : jstring :=
  match parts with
  | [] => []
  | [p] => p
  | p :: rest => p ++ sep ++ join sep rest
  end.

(** ASCII lowering of one code unit. *)
Definition lower (c : N) : N :=
  if (N.leb 65 c && N.leb c 90)%bool then (c + 32)%N else c.

Definition newline : jstring := [10%N].

(** [s.startsWith(prefix)] and [s.endsWith(suffix)] *)
Fixpoint startsWith (prefix s : jstring) : bool :=
  match prefix, s with
  | [], _ => true
  | p :: prefix', c :: s' => N.eqb p c && startsWith prefix' s'
  | _ :: _, [] => false
  end.

Definition endsWith (suffix s : jstring) : bool :=
  startsWith (rev suffix) (rev s).

(** Decimal rendering of a count, as a template literal prints it. *)
Fixpoint digits_of_uint (d : Decimal.uint) : jstring :=
  match d with
  | Decimal.Nil => []
  | Decimal.D0 d' => 48%N :: digits_of_uint d'
  | Decimal.D1 d' => 49%N :: digits_of_uint d'
  | Decimal.D2 d' => 50%N :: digits_of_uint d'
  | Decimal.D3 d' => 51%N :: digits_of_uint d'
  | Decimal.D4 d' => 52%N :: digits_of_uint d'
  | Decimal.D5 d' => 53%N :: digits_of_uint d'
  | Decimal.D6 d' => 54%N :: digits_of_uint d'
  | Decimal.D7 d' => 55%N :: digits_of_uint d'
  | Decimal.D8 d' => 56%N :: digits_of_uint d'
  | Decimal.D9 d' => 57%N :: digits_of_uint d'
  end.

Definition show_nat (n : nat) : jstring := digits_of_uint (Nat.to_uint n).

(* ------------------------------------------------------------------ *)
(** ** The regular expressions of [parseReviewResponse] *)

Definition fence : jstring := lit "```".

(** An optional line feed at the head: [\n?] after an opening fence. *)
Definition skipNewline (s : jstring) : jstring :=
  if startsWith newline s then skipn 1 s else s.

(** [s] without its last [n] code units. *)
Definition dropEnd (n : nat) (s : jstring) : jstring :=
  rev (skipn n (rev s)).

(** [s.replace(/^```json\n?/i, '')]: an opening fence tagged [json] in any
    letter case, and the line feed after it when there is one.  Without
    the [u] flag only the two cases of an ASCII letter match it. *)
Definition strip_json_fence_open (s : jstring) : jstring :=
  if (startsWith fence s
      && str_eqb (map lower (firstn 4 (skipn 3 s))) (lit "json"))%bool
  then skipNewline (skipn 7 s)
  else s.

(** [s.replace(/^```\n?/, '')] *)
Definition strip_fence_open (s : jstring) : jstring :=
  if startsWith fence s then skipNewline (skipn 3 s) else s.

(** [s.replace(/\n?```$/, '')] (the [i] flag changes nothing: no letter).
    Without the [m] flag the dollar is the end of the string, so the only
    match is the closing fence that ends the string, with the line feed
    before it when there is one. *)
Definition strip_fence_close (s : jstring) : jstring :=
  if endsWith (newline ++ fence) s then dropEnd 4 s
  else if endsWith fence s then dropEnd 3 s
  else s.

(** [s.match(/\{[\s\S]*\}/)] and [s.match(/\[[\s\S]*\]/)]: the leftmost
    opening character and, the star being greedy over every code unit, the
    last closing character after it.  [None] is the [null] of a failed
    match, [Some m] is [match[0]]. *)
Definition match_span (opening closing : N) (s : jstring) : option jstring :=
  match dropWhile (fun c => negb (N.eqb c opening)) s with
  | [] => None
  | _ :: body =>
      match dropWhile (fun c => negb (N.eqb c closing)) (rev body) with
      | [] => None
      | upto => Some (opening :: rev upto)
      end
  end.

Definition match_object_span : jstring -> option jstring := match_span 123 125.
Definition match_array_span : jstring -> option jstring := match_span 91 93.

(* ================================================================== *)
(** * JavaScript values and exceptions *)
(* ================================================================== *)

(** The values [JSON.parse] builds, and [undefined] for a property that is
    not there.  A number keeps its decimal reading
    [(-1)^negative * mantissa * 10^exp10]; an object keeps its members in
    insertion order, one per key. *)
Inductive JValue : Type :=
| JUndefined
| JNull
| JBool (b : bool)
| JNum (negative : bool) (mantissa : N) (exp10 : Z)
| JStr (s : jstring)
| JArr (elems : list JValue)
| JObj (fields : list (jstring * JValue)).

Inductive ErrorKind := SyntaxError | TypeError | URIError | PlainError.

(** A thrown [Error] object: its class and its [message]. *)
Record exn : Type := Exn { kind : ErrorKind; message : jstring }.

Inductive Result (A : Type) : Type :=
| Ok (a : A)
| Throw (e : exn).
Arguments Ok {A} a.
Arguments Throw {A} e.

(** The double nearest to [mantissa * 10^exp10] is zero exactly when the
    decimal is at most [2^-1075], half the least subnormal (a tie goes to
    the even neighbour, which is zero). *)
Definition number_is_zero (mantissa : N) (exp10 : Z) : bool :=
  (N.eqb mantissa 0
   || (Z.ltb exp10 0
       && Z.leb (Z.of_N mantissa * 2 ^ 1075) (10 ^ (- exp10))))%bool.

(** ToBoolean. *)
Definition truthy (v : JValue) : bool :=
  match v with
  | JUndefined | JNull => false
  | JBool b => b
  | JNum _ m e => negb (number_is_zero m e)
  | JStr s => match s with [] => false | _ => true end
  | JArr _ | JObj _ => true
  end.

(** [a || b] *)
Definition js_or (a b : JValue) : JValue := if truthy a then a else b.

(** [Array.isArray(v)] *)
Definition isArray (v : JValue) : bool :=
  match v with JArr _ => true | _ => false end.

(** [typeof v === 'object'] *)
Definition typeof_object (v : JValue) : bool :=
  match v with JNull | JArr _ | JObj _ => true | _ => false end.

Fixpoint lookup (key : jstring) (fields : list (jstring * JValue))
  : option JValue :=
  match fields with
  | [] => None
  | (k, v) :: rest => if str_eqb k key then Some v else lookup key rest
  end.

(** CreateDataProperty: a key seen again keeps its place and takes the new
    value. *)
Fixpoint obj_set (key : jstring) (v : JValue)
  (fields : list (jstring * JValue)) : list (jstring * JValue) :=
  match fields with
  | [] => [(key, v)]
  | (k, v0) :: rest =>
      if str_eqb k key then (k, v) :: rest
      else (k, v0) :: obj_set key v rest
  end.

Definition cannot_read (prop : jstring) (what : string) : exn :=
  Exn TypeError
    (lit "Cannot read properties of " ++ lit what ++ lit " (reading '"
       ++ prop ++ lit "')").

(** [v.prop] for the property names the script reads ([summary], [issues],
    [severity], [item], [path], ...), none of which a prototype defines:
    reading from [null] or [undefined] throws, an object answers with its
    member, every other value with [undefined]. *)
Definition get_prop (v : JValue) (prop : jstring) : Result JValue :=
  match v with
  | JUndefined => Throw (cannot_read prop "undefined")
  | JNull => Throw (cannot_read prop "null")
  | JObj fields =>
      Ok (match lookup prop fields with Some x => x | None => JUndefined end)
  | _ => Ok JUndefined
  end.

(** [v?.prop] *)
Definition get_prop_opt (v : JValue) (prop : jstring) : JValue :=
  match get_prop v prop with
  | Ok x => x
  | Throw _ => JUndefined
  end.

(** [a === b] against a string literal. *)
Definition is_string (v : JValue) (s : jstring) : bool :=
  match v with JStr t => str_eqb t s | _ => false end.

(* ================================================================== *)
(** * [JSON.parse] *)
(* ================================================================== *)

(** The JSON grammar of ECMA-404 as one left-to-right pass over the code
    units: a mode (what may come next, or the token being read) and the
    stack of the containers that are still open. *)
Module JSON.

Definition members := list (jstring * JValue).

(** A string token is a member name of the object read so far, or a
    value. *)
Inductive StrKind :=
| SVal
| SKey (fields : members).

Inductive NumPhase :=
| NMinus      (* after the sign: a digit must follow *)
| NZero       (* after a leading zero *)
| NInt        (* in the digits of the integer part *)
| NDot        (* after the point: a digit must follow *)
| NFrac       (* in the digits of the fraction *)
| NExp        (* after e or E: a sign or a digit must follow *)
| NExpSign    (* after the sign of the exponent: a digit must follow *)
| NExpDigits. (* in the digits of the exponent *)

Record NumAcc : Type := mkNum {
  num_neg : bool;      (* a minus sign was read *)
  num_mant : N;        (* the digits of integer part and fraction *)
  num_frac : N;        (* how many of them are fraction digits *)
  num_eneg : bool;     (* the exponent is negative *)
  num_exp : N          (* the digits of the exponent *)
}.

Inductive Mode :=
| MValue                                   (* a value must start *)
| MArrStart                                (* after [[]: a value or []] *)
| MArrAfter                                (* after an element *)
| MObjStart                                (* after [{]: a name or [}] *)
| MObjKey (fields : members)               (* after a comma: a name *)
| MObjColon (fields : members) (key : jstring)
| MObjAfter (fields : members)             (* after a member *)
| MString (k : StrKind) (acc : jstring)    (* in a string; [acc] reversed *)
| MEscape (k : StrKind) (acc : jstring)    (* after a backslash *)
| MUnicode (k : StrKind) (acc : jstring) (todo : nat) (code : N)
| MNumber (p : NumPhase) (a : NumAcc)
| MLiteral (rest : jstring) (v : JValue)   (* in true, false or null *)
| MDone (v : JValue).                      (* the value is complete *)

Inductive Frame :=
| FArr (elems : list JValue)               (* elements read, reversed *)
| FObj (fields : members) (key : jstring). (* the member being read *)

Record PState : Type := mkState { mode : Mode; stack : list Frame }.

Definition init : PState := mkState MValue [].

(** JSON white space: space, tab, line feed, carriage return. *)
Definition is_ws (c : N) : bool :=
  (N.eqb c 32 || N.eqb c 9 || N.eqb c 10 || N.eqb c 13)%bool.

Definition is_digit (c : N) : bool := (N.leb 48 c && N.leb c 57)%bool.

Definition hex_value (c : N) : option N :=
  if is_digit c then Some (c - 48)%N
  else if (N.leb 97 c && N.leb c 102)%bool then Some (c - 87)%N
  else if (N.leb 65 c && N.leb c 70)%bool then Some (c - 55)%N
  else None.

(** A complete value goes to the innermost open container, or ends the
    text. *)
Definition deliver (v : JValue) (stk : list Frame) : PState :=
  match stk with
  | [] => mkState (MDone v) []
  | FArr elems :: rest => mkState MArrAfter (FArr (v :: elems) :: rest)
  | FObj fields key :: rest => mkState (MObjAfter (obj_set key v fields)) rest
  end.

Definition num_start (neg : bool) (mant : N) : NumAcc :=
  mkNum neg mant 0 false 0.

Definition start_value (c : N) (stk : list Frame) : option PState :=
  if N.eqb c 123 then Some (mkState MObjStart stk)
  else if N.eqb c 91 then Some (mkState MArrStart (FArr [] :: stk))
  else if N.eqb c dquote then Some (mkState (MString SVal []) stk)
  else if N.eqb c 45 then Some (mkState (MNumber NMinus (num_start true 0)) stk)
  else if N.eqb c 48 then Some (mkState (MNumber NZero (num_start false 0)) stk)
  else if is_digit c
       then Some (mkState (MNumber NInt (num_start false (c - 48))) stk)
  else if N.eqb c 116 then Some (mkState (MLiteral (lit "rue") (JBool true)) stk)
  else if N.eqb c 102
       then Some (mkState (MLiteral (lit "alse") (JBool false)) stk)
  else if N.eqb c 110 then Some (mkState (MLiteral (lit "ull") JNull) stk)
  else None.

Definition escape_value (c : N) : option N :=
  if N.eqb c dquote then Some dquote
  else if N.eqb c 92 then Some 92%N
  else if N.eqb c 47 then Some 47%N
  else if N.eqb c 98 then Some 8%N
  else if N.eqb c 102 then Some 12%N
  else if N.eqb c 110 then Some 10%N
  else if N.eqb c 114 then Some 13%N
  else if N.eqb c 116 then Some 9%N
  else None.

Definition push_digit (a : NumAcc) (c : N) (fraction : bool) : NumAcc :=
  mkNum (num_neg a) (num_mant a * 10 + (c - 48))
        (if fraction then num_frac a + 1 else num_frac a)%N
        (num_eneg a) (num_exp a).

Definition push_exp_digit (a : NumAcc) (c : N) : NumAcc :=
  mkNum (num_neg a) (num_mant a) (num_frac a) (num_eneg a)
        (num_exp a * 10 + (c - 48)).

Definition set_exp_sign (a : NumAcc) (neg : bool) : NumAcc :=
  mkNum (num_neg a) (num_mant a) (num_frac a) neg (num_exp a).

Definition is_e (c : N) : bool := (N.eqb c 101 || N.eqb c 69)%bool.

(** One more code unit of a number, when it can take one. *)
Definition num_step (p : NumPhase) (a : NumAcc) (c : N)
  : option (NumPhase * NumAcc) :=
  match p with
  | NMinus =>
      if N.eqb c 48 then Some (NZero, a)
      else if is_digit c then Some (NInt, push_digit a c false)
      else None
  | NZero =>
      if N.eqb c 46 then Some (NDot, a)
      else if is_e c then Some (NExp, a)
      else None
  | NInt =>
      if is_digit c then Some (NInt, push_digit a c false)
      else if N.eqb c 46 then Some (NDot, a)
      else if is_e c then Some (NExp, a)
      else None
  | NDot =>
      if is_digit c then Some (NFrac, push_digit a c true) else None
  | NFrac =>
      if is_digit c then Some (NFrac, push_digit a c true)
      else if is_e c then Some (NExp, a)
      else None
  | NExp =>
      if N.eqb c 43 then Some (NExpSign, set_exp_sign a false)
      else if N.eqb c 45 then Some (NExpSign, set_exp_sign a true)
      else if is_digit c then Some (NExpDigits, push_exp_digit a c)
      else None
  | NExpSign =>
      if is_digit c then Some (NExpDigits, push_exp_digit a c) else None
  | NExpDigits =>
      if is_digit c then Some (NExpDigits, push_exp_digit a c) else None
  end.

(** The phases in which the number read so far is a whole number token. *)
Definition num_complete (p : NumPhase) : bool :=
  match p with
  | NZero | NInt | NFrac | NExpDigits => true
  | _ => false
  end.

Definition num_value (a : NumAcc) : JValue :=
  JNum (num_neg a) (num_mant a)
       ((if num_eneg a then - Z.of_N (num_exp a) else Z.of_N (num_exp a))
        - Z.of_N (num_frac a))%Z.

(** The step of every mode but [MNumber]. *)
Definition step_token (st : PState) (c : N) : option PState :=
  let stk := stack st in
  match mode st with
  | MValue =>
      if is_ws c then Some st else start_value c stk
  | MArrStart =>
      if is_ws c then Some st
      else if N.eqb c 93
           then match stk with
                | FArr _ :: rest => Some (deliver (JArr []) rest)
                | _ => None
                end
      else start_value c stk
  | MArrAfter =>
      if is_ws c then Some st
      else if N.eqb c 44 then Some (mkState MValue stk)
      else if N.eqb c 93
           then match stk with
                | FArr elems :: rest => Some (deliver (JArr (rev elems)) rest)
                | _ => None
                end
      else None
  | MObjStart =>
      if is_ws c then Some st
      else if N.eqb c dquote then Some (mkState (MString (SKey []) []) stk)
      else if N.eqb c 125 then Some (deliver (JObj []) stk)
      else None
  | MObjKey fields =>
      if is_ws c then Some st
      else if N.eqb c dquote then Some (mkState (MString (SKey fields) []) stk)
      else None
  | MObjColon fields key =>
      if is_ws c then Some st
      else if N.eqb c 58 then Some (mkState MValue (FObj fields key :: stk))
      else None
  | MObjAfter fields =>
      if is_ws c then Some st
      else if N.eqb c 44 then Some (mkState (MObjKey fields) stk)
      else if N.eqb c 125 then Some (deliver (JObj fields) stk)
      else None
  | MString k acc =>
      if N.eqb c dquote
      then match k with
           | SVal => Some (deliver (JStr (rev acc)) stk)
           | SKey fields => Some (mkState (MObjColon fields (rev acc)) stk)
           end
      else if N.eqb c 92 then Some (mkState (MEscape k acc) stk)
      else if N.ltb c 32 then None
      else Some (mkState (MString k (c :: acc)) stk)
  | MEscape k acc =>
      if N.eqb c 117 then Some (mkState (MUnicode k acc 4 0) stk)
      else match escape_value c with
           | Some e => Some (mkState (MString k (e :: acc)) stk)
           | None => None
           end
  | MUnicode k acc todo code =>
      match hex_value c with
      | None => None
      | Some d =>
          let code' := (code * 16 + d)%N in
          match todo with
          | S (S todo0) => Some (mkState (MUnicode k acc (S todo0) code') stk)
          | _ => Some (mkState (MString k (code' :: acc)) stk)
          end
      end
  | MNumber _ _ => None
  | MLiteral rest v =>
      match rest with
      | [] => None
      | x :: rest' =>
          if N.eqb c x
          then match rest' with
               | [] => Some (deliver v stk)
               | _ => Some (mkState (MLiteral rest' v) stk)
               end
          else None
      end
  | MDone _ =>
      if is_ws c then Some st else None
  end.

(** A number has no closing character: the first code unit that cannot
    extend it ends it, and is then read after the number. *)
Definition step (st : PState) (c : N) : option PState :=
  match mode st with
  | MNumber p a =>
      match num_step p a c with
      | Some (p', a') => Some (mkState (MNumber p' a') (stack st))
      | None =>
          if num_complete p
          then step_token (deliver (num_value a) (stack st)) c
          else None
      end
  | _ => step_token st c
  end.

Fixpoint run (st : PState) (text : jstring) : option PState :=
  match text with
  | [] => Some st
  | c :: text' =>
      match step st c with
      | Some st' => run st' text'
      | None => None
      end
  end.

(** At the end of the text the value must be complete; a number that is a
    whole token and the whole text is complete. *)
Definition finish (st : PState) : option JValue :=
  match mode st with
  | MDone v => Some v
  | MNumber p a =>
      match stack st with
      | [] => if num_complete p then Some (num_value a) else None
      | _ => None
      end
  | _ => None
  end.

Definition accept (text : jstring) : option JValue :=
  match run init text with
  | Some st => finish st
  | None => None
  end.

Definition syntax_error : exn :=
  Exn SyntaxError (lit "Unexpected token in JSON").

(** [JSON.parse(text)]: the value, or a thrown [SyntaxError]. *)
Definition parse (text : jstring) : Result JValue :=
  match accept text with
  | Some v => Ok v
  | None => Throw syntax_error
  end.

End JSON.

(* ================================================================== *)
(** * Exceptions and state *)
(* ================================================================== *)

(** [try { body } catch (e) { handler }] on results. *)
Definition rcatch {A : Type} (body : Result A) (handler : exn -> Result A)
  : Result A :=
  match body with
  | Ok a => Ok a
  | Throw e => handler e
  end.

Definition rbind {A B : Type} (r : Result A) (k : A -> Result B) : Result B :=
  match r with
  | Ok a => k a
  | Throw e => Throw e
  end.

Notation "'let!' x ':=' r 'in' k" := (rbind r (fun x => k))
  (at level 10, x name, r at level 100, k at level 200).

(** A computation over a state [S] that returns or throws; what it did to
    the state before throwing stays done. *)
Definition M (S A : Type) : Type := S -> Result A * S.

Definition ret {S A : Type} (a : A) : M S A := fun s => (Ok a, s).

Definition throw {S A : Type} (e : exn) : M S A := fun s => (Throw e, s).

Definition bind {S A B : Type} (m : M S A) (k : A -> M S B) : M S B :=
  fun s =>
    match m s with
    | (Ok a, s') => k a s'
    | (Throw e, s') => (Throw e, s')
    end.

Definition try_catch {S A : Type} (body : M S A) (handler : exn -> M S A)
  : M S A :=
  fun s =>
    match body s with
    | (Ok a, s') => (Ok a, s')
    | (Throw e, s') => handler e s'
    end.

(** [try { body } finally { cleanup }] for a cleanup that cannot throw. *)
Definition finally {S A : Type} (body : M S A) (cleanup : S -> S) : M S A :=
  fun s => let (r, s') := body s in (r, cleanup s').

Definition lift {S A : Type} (r : Result A) : M S A := fun s => (r, s).

Notation "x <- m ;; k" := (bind m (fun x => k))
  (at level 61, m at next level, right associativity).
Notation "m ;;; k" := (bind m (fun _ => k))
  (at level 61, right associativity).

(* ================================================================== *)
(** * Data model *)
(* ================================================================== *)

(** A handle on a DOM node. *)
Definition Element := N.

(** An entry [{ line, content }] of [additions] or [deletions]. *)
Record LineEntry : Type := { line : nat; lineContent : jstring }.

(** A change record read from the page or from the selection. *)
Record PageDiff : Type := {
  filename : jstring;
  content : jstring;
  additions : option (list LineEntry);
  deletions : option (list LineEntry);
  hasNewCode : option bool;
  isSelection : bool;
  element : option Element
}.

(** A change record fetched through the REST API ([isApiDiff: true]). *)
Record ApiDiff : Type := {
  apiFilename : jstring;
  originalContent : jstring;
  newContent : jstring;
  changeType : JValue
}.

Inductive ChangeRecord : Type :=
| FromPage (d : PageDiff)
| FromApi (d : ApiDiff).

Definition isApiDiff (diff : ChangeRecord) : bool :=
  match diff with FromApi _ => true | FromPage _ => false end.

Record FocusAreas : Type := {
  bugs : bool; security : bool; performance : bool; style : bool;
  naming : bool; docs : bool; tests : bool
}.

Record Settings : Type := {
  apiKey : jstring;
  model : jstring;
  reviewDepth : jstring;
  focusAreas : FocusAreas
}.

(** What [parseReviewResponse] returns: [{ summary, issues }]. *)
Record ReviewResult : Type := { summary : JValue; issues : JValue }.

Record Stats : Type := {
  files : nat; critical : nat; warnings : nat; suggestions : nat
}.

(** What [handleReview] resolves to: [{ success: true, issueCount }] or
    [{ success: false, error }]. *)
Inductive Outcome : Type :=
| Success (issueCount : nat)
| Failure (error : jstring).

Record ADOContext : Type := {
  org : jstring; project : jstring; repo : jstring; prId : jstring;
  isLegacy : bool
}.

(** The three REST calls, by what their URL is built from. *)
Inductive Request : Type :=
| GetIterations (context : ADOContext)
| GetChanges (context : ADOContext) (iterationId : JValue)
| GetItem (context : ADOContext) (path : jstring) (commitId : JValue).

(** A [fetch] response: [ok], [status] and what reading the body as JSON or
    as text gives. *)
Record Response : Type := {
  ok : bool;
  status : N;
  json : Result JValue;
  text : Result jstring
}.

Inductive Strategy : Type :=
| Selection
| AdoApi
| SideBySideView
| ModernViewer
| FileDiffContainers
| MonacoEditor
| GenericCodeBlocks
| VisibleDiffArea.

(** What the script did, in order: a strategy that ran and what it
    returned, a notification shown, a model reply parsed for a record. *)
Inductive Event : Type :=
| Invoked (s : Strategy) (out : list ChangeRecord)
| Notified (message kind : jstring)
| Reviewed (diff : ChangeRecord) (result : ReviewResult).

(** The conversions of the JavaScript engine that the script leaves to it
    and that need its number formatting. *)
Class Engine : Type := {
  (** [String(v)], as a template literal prints a value that is not a
      string *)
  string_of_value : JValue -> jstring;
  (** the property key of [len - 1] for the [length] member [len] of an
      object *)
  index_below : JValue -> jstring;
  (** whether [v.length > 0], for a value [v] that is no array *)
  length_positive : JValue -> bool;
  (** [String(v)] for the value [v] that an object literal inherits from
      [Object.prototype] under the given name: the source text of a
      built-in function, which the engine chooses, or the text of the
      prototype itself under [__proto__] *)
  string_of_inherited : jstring -> jstring
}.

(** The state of the content script: its two variables, the [reviewStats]
    entry of [chrome.storage.local], what it did so far, and the world. *)
Record State (W : Type) : Type := mkScript {
  isReviewing : bool;
  currentSettings : option Settings;
  reviewStats : option Stats;
  trace : list Event;
  world : W
}.
Arguments mkScript {W}.
Arguments isReviewing {W}.
Arguments currentSettings {W}.
Arguments reviewStats {W}.
Arguments trace {W}.
Arguments world {W}.

(* ================================================================== *)
(** * Prompt builder *)
(* ================================================================== *)

Definition text_lines (ls : list string) : jstring :=
  join newline (map litq ls).

(** The addition-only template up to the file name. *)
Definition pagePromptIntro : jstring :=
  text_lines
  [
    "You are an expert code reviewer performing a Pull Request review. Review ONLY the NEW/CHANGED CODE below.";
    "";
    "FILE: " ].

(** ... between the file name and the count of added lines. *)
Definition pagePromptCount : jstring :=
  text_lines
  [
    "";
    "LINES ADDED: " ].

(** ... between the count and the code under review. *)
Definition pagePromptCode : jstring :=
  text_lines
  [
    "";
    "";
    "NEW/CHANGED CODE (review ONLY this - these are the additions in the PR):";
    "```";
    "" ].

(** ... between the code and the depth instruction. *)
Definition pagePromptRequirements : jstring :=
  text_lines
  [
    "";
    "```";
    "";
    "CRITICAL REVIEW REQUIREMENTS:";
    "1. Review ONLY the new/changed code shown above - ignore any existing code";
    "2. " ].

(** Both templates: between the depth instruction and the focus areas. *)
Definition promptFocus : jstring :=
  text_lines
  [
    "";
    "3. Focus areas: " ].

(** Both templates: from the focus areas to the end. *)
Definition promptResponseFormat : jstring :=
  text_lines
  [
    "";
    "";
    "FIRST: Provide a brief SUMMARY of what this change does (2-3 sentences max).";
    "";
    "CONTEXTUAL ANALYSIS - Flag these issues:";
    "- **Unused exports**: If a new function/class/constant is exported, flag it as needing to be consumed somewhere in the PR";
    "- **Incomplete implementations**: New functions that are declared but might not be called/used";
    "- **Missing imports**: If new code references something that appears to need importing";
    "- **Orphaned code**: New code that doesn't seem to integrate with anything";
    "- **API contracts**: New exported functions should have clear contracts (types, docs)";
    "- **Dead code**: New code paths that can never be reached";
    "- **Missing error handling**: New async functions without try-catch, new promises without .catch()";
    "- **Unfinished TODOs**: New TODO/FIXME comments that should be addressed before merge";
    "";
    "PR-SPECIFIC CHECKS:";
    "- If a new function is exported, ask: ~Is this export consumed elsewhere in the PR?~";
    "- If a new interface/type is defined, ask: ~Is this type used in the PR?~";
    "- If a new constant is exported, ask: ~Where is this constant used?~";
    "- Flag any new public API that lacks documentation";
    "";
    "RESPONSE FORMAT (JSON object with summary and issues):";
    "{";
    "  ~summary~: {";
    "    ~description~: ~<2-3 sentence summary of what this code change does>~,";
    "    ~mainChanges~: [~<change 1>~, ~<change 2>~, ...],";
    "    ~newExports~: [~<list of new exported functions/classes/constants>~],";
    "    ~riskLevel~: ~low~ | ~medium~ | ~high~";
    "  },";
    "  ~issues~: [";
    "    {";
    "      ~line~: <line number or range like ~10-15~>,";
    "      ~severity~: ~critical~ | ~warning~ | ~suggestion~,";
    "      ~category~: ~bug~ | ~security~ | ~performance~ | ~style~ | ~unused-export~ | ~incomplete~ | ~documentation~,";
    "      ~title~: ~<brief title>~,";
    "      ~description~: ~<detailed explanation>~,";
    "      ~suggestion~: ~<how to fix, include code if helpful>~";
    "    }";
    "  ]";
    "}";
    "";
    "If no issues found, return: {~summary~: {...}, ~issues~: []}";
    "";
    "IMPORTANT: Return ONLY valid JSON object, no markdown or extra text." ].

(** The full-file template up to the file name. *)
Definition apiPromptIntro : jstring :=
  text_lines
  [
    "You are an expert code reviewer performing a Pull Request review.";
    "      ";
    "FILE: " ].

(** ... between the file name and the change type. *)
Definition apiPromptChangeType : jstring :=
  text_lines
  [
    "";
    "CHANGE TYPE: " ].

(** ... between the change type and the original content. *)
Definition apiPromptOriginal : jstring :=
  text_lines
  [
    "";
    "";
    "I will provide the ORIGINAL code and the NEW code.";
    "1. Identify the changes between the two versions.";
    "2. Review ONLY the NEW/CHANGED code.";
    "";
    "ORIGINAL CODE:";
    "```";
    "" ].

(** ... between the original and the new content. *)
Definition apiPromptNew : jstring :=
  text_lines
  [
    "";
    "```";
    "";
    "NEW CODE:";
    "```";
    "" ].

(** ... between the new content and the depth instruction. *)
Definition apiPromptRequirements : jstring :=
  text_lines
  [
    "";
    "```";
    "";
    "CRITICAL REVIEW REQUIREMENTS:";
    "1. Review ONLY the new/changed code - ignore unchanged code";
    "2. " ].

Definition focusAreaPhrases (f : FocusAreas) : list jstring :=
  (if bugs f
   then [lit "bugs, logic errors, and potential runtime issues"] else [])
  ++ (if security f
      then [lit "security vulnerabilities (SQL injection, XSS, auth issues, etc.)"]
      else [])
  ++ (if performance f
      then [lit "performance issues and inefficiencies"] else [])
  ++ (if style f then [lit "code style and best practices"] else [])
  ++ (if naming f then [lit "naming conventions and clarity"] else [])
  ++ (if docs f then [lit "missing documentation and comments"] else [])
  ++ (if tests f then [lit "test coverage concerns"] else []).

Definition depthStandard : jstring :=
  lit "Provide a balanced review covering important issues.".

(** The names an object literal inherits from [Object.prototype]: eleven
    built-in functions and the accessor [__proto__].  The value under each
    of them is an object, hence truthy. *)
Definition objectPrototypeNames : list jstring :=
  map lit ["constructor"; "__defineGetter__"; "__defineSetter__";
           "hasOwnProperty"; "__lookupGetter__"; "__lookupSetter__";
           "isPrototypeOf"; "propertyIsEnumerable"; "toString"; "valueOf";
           "__proto__"; "toLocaleString"].

(** [depthInstructions[depth]], as the template literal prints it when it
    is truthy: one of the three texts of the table, or what the table
    inherits under the name [depth]. *)
Definition depthInstructions `{Engine} (depth : jstring) : option jstring :=
  if str_eqb depth (lit "quick")
  then Some (lit "Focus only on critical issues. Be brief.")
  else if str_eqb depth (lit "standard") then Some depthStandard
  else if str_eqb depth (lit "thorough")
  then Some (lit "Do an in-depth analysis. Check every detail. Be comprehensive.")
  else if existsb (str_eqb depth) objectPrototypeNames
  then Some (string_of_inherited depth)
  else None.

(** [depthInstructions[settings.reviewDepth] || depthInstructions.standard] *)
Definition depthInstruction `{Engine} (settings : Settings) : jstring :=
  match depthInstructions (reviewDepth settings) with
  | Some instruction => instruction
  | None => depthStandard
  end.

Definition display `{Engine} (v : JValue) : jstring :=
  match v with
  | JStr s => s
  | _ => string_of_value v
  end.

Definition buildReviewPrompt `{Engine} (diff : ChangeRecord)
  (settings : Settings) : jstring :=
  let focus := focusAreaPhrases (focusAreas settings) in
  match diff with
  | FromApi d =>
      apiPromptIntro ++ apiFilename d
      ++ apiPromptChangeType ++ display (changeType d)
      ++ apiPromptOriginal ++ substring0 20000 (originalContent d)
      ++ apiPromptNew ++ substring0 20000 (newContent d)
      ++ apiPromptRequirements ++ depthInstruction settings
      ++ promptFocus ++ join (lit ", ") focus
      ++ promptResponseFormat
  | FromPage d =>
      let codeToReview :=
        match additions d with
        | Some ((_ :: _) as added) => join newline (map lineContent added)
        | _ => content d
        end in
      let additionsCount :=
        match additions d with
        | Some added => List.length added
        | None => 0
        end in
      pagePromptIntro ++ filename d
      ++ pagePromptCount ++ show_nat additionsCount
      ++ pagePromptCode ++ substring0 15000 codeToReview
      ++ pagePromptRequirements ++ depthInstruction settings
      ++ promptFocus ++ join (lit ", ") focus
      ++ promptResponseFormat
  end.

(* ================================================================== *)
(** * Response parser *)
(* ================================================================== *)

Definition emptyResult : ReviewResult :=
  {| summary := JNull; issues := JArr [] |}.

(** [{ summary: parsed.summary || null,
       issues: Array.isArray(parsed.issues) ? parsed.issues : [] }] *)
Definition summaryAndIssues (parsed : JValue) : Result ReviewResult :=
  let! parsedSummary := get_prop parsed (lit "summary") in
  let! parsedIssues := get_prop parsed (lit "issues") in
  Ok {| summary := js_or parsedSummary JNull;
        issues := if isArray parsedIssues then parsedIssues else JArr [] |}.

Definition cleanFences (response : jstring) : jstring :=
  let cleaned := trim response in
  let cleaned := strip_fence_close (strip_json_fence_open cleaned) in
  strip_fence_close (strip_fence_open cleaned).

(** The [try] block of [parseReviewResponse]. *)
Definition parseStrict (response : jstring) : Result ReviewResult :=
  let cleaned := cleanFences response in
  let! parsed := JSON.parse cleaned in
  if (truthy parsed && typeof_object parsed && negb (isArray parsed))%bool
  then summaryAndIssues parsed
  else if isArray parsed
  then Ok {| summary := JNull; issues := parsed |}
  else Ok emptyResult.

(** The first recovery of the [catch] block: the object span.  [None] when
    there is no span or its own [try] threw. *)
Definition recoverObject (response : jstring) : Result (option ReviewResult) :=
  match match_object_span response with
  | Some objMatch =>
      rcatch (let! parsed := JSON.parse objMatch in
              let! result := summaryAndIssues parsed in
              Ok (Some result))
             (fun _ => Ok None)
  | None => Ok None
  end.

(** The second recovery: the array span. *)
Definition recoverArray (response : jstring) : Result (option ReviewResult) :=
  match match_array_span response with
  | Some arrMatch =>
      rcatch (let! parsed := JSON.parse arrMatch in
              Ok (Some {| summary := JNull; issues := parsed |}))
             (fun _ => Ok None)
  | None => Ok None
  end.

(** The [catch] block of [parseReviewResponse]. *)
Definition parseRecover (response : jstring) : Result ReviewResult :=
  let! fromObject := recoverObject response in
  match fromObject with
  | Some result => Ok result
  | None =>
      let! fromArray := recoverArray response in
      match fromArray with
      | Some result => Ok result
      | None => Ok emptyResult
      end
  end.

Definition parseReviewResponse (response : jstring) : Result ReviewResult :=
  rcatch (parseStrict response) (fun _ => parseRecover response).

(** [parseReviewResponse(response)] on any value: a value that is no
    string has neither [trim] nor [match] as a method, so the call of
    [trim] throws in the [try] block and the call of [match] throws out of
    the [catch] block. *)
Definition parseResponseValue (response : JValue) : Result ReviewResult :=
  match response with
  | JStr text => parseReviewResponse text
  | JUndefined => Throw (cannot_read (lit "match") "undefined")
  | JNull => Throw (cannot_read (lit "match") "null")
  | _ => Throw (Exn TypeError (lit "response.match is not a function"))
  end.

(* ================================================================== *)
(** * Helpers of the remote content fetcher *)
(* ================================================================== *)

Definition MAX_FILE_SIZE : N := 50000.
Definition MAX_FILES : N := 15.

Definition binaryExtensions : list jstring :=
  map lit [".png"; ".jpg"; ".jpeg"; ".gif"; ".ico"; ".pdf"; ".zip";
           ".dll"; ".exe"; ".woff"; ".woff2"; ".ttf"; ".svg"].

(** [s.toLowerCase()] on the ASCII letters.  The only other code unit that
    lowers to an ASCII letter alone is the Kelvin sign, to [k], which no
    extension of [binaryExtensions] contains (the dotted capital I lowers
    to an [i] followed by a combining dot, which no extension contains
    either), so the [endsWith] tests on the result are those of the
    source. *)
Definition toLowerCase (s : jstring) : jstring := map lower s.

Definition isHighSurrogate (c : N) : bool := (N.leb 55296 c && N.leb c 56319)%bool.
Definition isLowSurrogate (c : N) : bool := (N.leb 56320 c && N.leb c 57343)%bool.

(** Whether every surrogate is paired: [encodeURIComponent] throws a
    [URIError] on a string with a lone one. *)
Fixpoint wellFormed (s : jstring) : bool :=
  match s with
  | [] => true
  | c :: s' =>
      if isHighSurrogate c
      then match s' with
           | d :: s'' => isLowSurrogate d && wellFormed s''
           | [] => false
           end
      else if isLowSurrogate c then false
      else wellFormed s'
  end.

Definition uriMalformed : exn := Exn URIError (lit "URI malformed").

(** The strings a [for ... of] over a string yields: its code points. *)
Fixpoint codePoints (s : jstring) : list jstring :=
  match s with
  | [] => []
  | c :: s' =>
      match s' with
      | d :: s'' =>
          if (isHighSurrogate c && isLowSurrogate d)%bool
          then [c; d] :: codePoints s''
          else [c] :: codePoints s'
      | [] => [[c]]
      end
  end.

(** What [for (const change of v)] iterates over. *)
Definition iterate (v : JValue) : Result (list JValue) :=
  match v with
  | JArr elems => Ok elems
  | JStr s => Ok (map JStr (codePoints s))
  | _ => Throw (Exn TypeError (lit "changesList is not iterable"))
  end.

Definition number_of_nat (n : nat) : JValue := JNum false (N.of_nat n) 0.

(** [v.length] *)
Definition js_length (v : JValue) : Result JValue :=
  match v with
  | JArr elems => Ok (number_of_nat (List.length elems))
  | JStr s => Ok (number_of_nat (List.length s))
  | _ => get_prop v (lit "length")
  end.

(** [v === 0] *)
Definition is_zero (v : JValue) : bool :=
  match v with
  | JNum _ m e => number_is_zero m e
  | _ => false
  end.

(** [v[v.length - 1]] for a value [v] that is neither [null] nor
    [undefined]. *)
Definition lastOf `{Engine} (v : JValue) : JValue :=
  match v with
  | JArr elems => last elems JUndefined
  | JStr s => match rev s with
              | c :: _ => JStr [c]
              | [] => JUndefined
              end
  | JObj fields =>
      let key := index_below (match lookup (lit "length") fields with
                              | Some l => l
                              | None => JUndefined
                              end) in
      match lookup key fields with
      | Some x => x
      | None => JUndefined
      end
  | _ => JUndefined
  end.

(* ================================================================== *)
(** * The content script *)
(* ================================================================== *)

Definition set_world {W : Type} (st : State W) (w : W) : State W :=
  mkScript (isReviewing st) (currentSettings st) (reviewStats st) (trace st) w.

Definition add_event {W : Type} (e : Event) (st : State W) : State W :=
  mkScript (isReviewing st) (currentSettings st) (reviewStats st)
           (trace st ++ [e]) (world st).

Definition set_isReviewing {W : Type} (b : bool) (st : State W) : State W :=
  mkScript b (currentSettings st) (reviewStats st) (trace st) (world st).

Definition set_currentSettings {W : Type} (s : Settings) (st : State W)
  : State W :=
  mkScript (isReviewing st) (Some s) (reviewStats st) (trace st) (world st).

Definition set_reviewStats {W : Type} (s : Stats) (st : State W) : State W :=
  mkScript (isReviewing st) (currentSettings st) (Some s) (trace st) (world st).

Definition isEmpty {A : Type} (l : list A) : bool :=
  match l with [] => true | _ => false end.

(** [[extractedDiffs[0]]] for scope [current], the whole sequence
    otherwise; the sequence is not empty where the source does this. *)
Definition scoped (type : jstring) (extractedDiffs : list ChangeRecord)
  : list ChangeRecord :=
  if str_eqb type (lit "current")
  then match extractedDiffs with
       | first :: _ => [first]
       | [] => []
       end
  else extractedDiffs.

Definition increment (stats : Stats) (severity : JValue) : Stats :=
  if is_string severity (lit "critical")
  then {| files := files stats; critical := S (critical stats);
          warnings := warnings stats; suggestions := suggestions stats |}
  else if is_string severity (lit "warning")
  then {| files := files stats; critical := critical stats;
          warnings := S (warnings stats); suggestions := suggestions stats |}
  else {| files := files stats; critical := critical stats;
          warnings := warnings stats; suggestions := S (suggestions stats) |}.

(** The callback of [issues.forEach] in [handleReview]. *)
Definition countSeverity (stats : Stats) (issue : JValue) : Result Stats :=
  let! severity := get_prop issue (lit "severity") in
  Ok (increment stats severity).

Fixpoint forEachSeverity (issues : list JValue) (stats : Stats)
  : Result Stats :=
  match issues with
  | [] => Ok stats
  | issue :: rest =>
      let! stats' := countSeverity stats issue in
      forEachSeverity rest stats'
  end.

(* ================================================================== *)
(** * The call to the model *)
(* ================================================================== *)

Module Gemini.

(** [v?.[0]]: the first element of an array, the first code unit of a
    string, the member [0] of an object, [undefined] otherwise. *)
Definition firstOf (v : JValue) : JValue :=
  match v with
  | JArr (x :: _) => x
  | JStr (c :: _) => JStr [c]
  | JObj fields =>
      match lookup (lit "0") fields with
      | Some x => x
      | None => JUndefined
      end
  | _ => JUndefined
  end.

(** [data.candidates?.[0]?.content?.parts?.[0]?.text || ''] *)
Definition replyText (data : JValue) : Result JValue :=
  let! candidates := get_prop data (lit "candidates") in
  let content := get_prop_opt (firstOf candidates) (lit "content") in
  let parts := get_prop_opt content (lit "parts") in
  let text := get_prop_opt (firstOf parts) (lit "text") in
  Ok (js_or text (JStr [])).

(** [new Error(error.error?.message || `API error: ${status}`)] *)
Definition apiError `{Engine} (error : JValue) (status : N) : Result exn :=
  let! inner := get_prop error (lit "error") in
  let message := get_prop_opt inner (lit "message") in
  Ok (Exn PlainError
        (if truthy message then display message
         else lit "API error: " ++ show_nat (N.to_nat status))).

Definition endpoint (model apiKey : jstring) : jstring :=
  lit "https://generativelanguage.googleapis.com/v1beta/models/" ++ model
  ++ lit ":generateContent?key=" ++ apiKey.

Definition contents (text : JValue) : JValue :=
  JArr [JObj [(lit "parts", JArr [JObj [(lit "text", text)]])]].

Definition generationConfig : JValue :=
  JObj [(lit "temperature", JNum false 3 (-1));
        (lit "maxOutputTokens", JNum false 8192 0)].

Definition blockNone (category : string) : JValue :=
  JObj [(lit "category", JStr (lit category));
        (lit "threshold", JStr (lit "BLOCK_NONE"))].

Definition safetySettings : JValue :=
  JArr [blockNone "HARM_CATEGORY_HARASSMENT";
        blockNone "HARM_CATEGORY_HATE_SPEECH";
        blockNone "HARM_CATEGORY_SEXUALLY_EXPLICIT";
        blockNone "HARM_CATEGORY_DANGEROUS_CONTENT"].

Definition cannot_destructure (prop what : string) : exn :=
  Exn TypeError
    (lit "Cannot destructure property '" ++ lit prop
       ++ lit "' of 'settings' as it is " ++ lit what ++ lit ".").

Section Calls.

Context {E : Engine} {W : Type}.

(** [fetch(url, { method: 'POST', headers, body: JSON.stringify(body) })] *)
Variable post : jstring -> JValue -> W -> Result Response * W.

(** [callGeminiAPI(prompt, apiKey, model)] of the content script. *)
Definition callGeminiAPI (prompt apiKey model : jstring) : M W JValue :=
  response <-
    post (endpoint model apiKey)
         (JObj [(lit "contents", contents (JStr prompt));
                (lit "generationConfig", generationConfig);
                (lit "safetySettings", safetySettings)]) ;;
  if negb (ok response)
  then
    error <- lift (json response) ;;
    thrown <- lift (apiError error (status response)) ;;
    throw thrown
  else
    data <- lift (json response) ;;
    lift (replyText data).

(** [handleCodeReview(codeData, settings)] of the service worker. *)
Definition handleCodeReview (codeData settings : JValue) : M W JValue :=
  match settings with
  | JUndefined => throw (cannot_destructure "apiKey" "undefined")
  | JNull => throw (cannot_destructure "apiKey" "null")
  | _ =>
      apiKey <- lift (get_prop settings (lit "apiKey")) ;;
      model <- lift (get_prop settings (lit "model")) ;;
      if negb (truthy apiKey)
      then throw (Exn PlainError (lit "API key not configured"))
      else
        prompt <- lift (get_prop codeData (lit "prompt")) ;;
        response <-
          post (endpoint (display model) (display apiKey))
               (JObj [(lit "contents", contents prompt);
                      (lit "generationConfig", generationConfig)]) ;;
        if negb (ok response)
        then
          error <- lift (json response) ;;
          thrown <- lift (apiError error (status response)) ;;
          throw thrown
        else
          data <- lift (json response) ;;
          content <- lift (replyText data) ;;
          ret (JObj [(lit "success", JBool true); (lit "content", content)])
  end.

End Calls.

End Gemini.

(* ================================================================== *)
(** * The strategies that scan the DOM *)
(* ================================================================== *)

Module DomScan.

(** [el.className]: a string on an HTML element, an [SVGAnimatedString]
    object, which has no [toLowerCase], on an SVG element. *)
Inductive ClassName : Type :=
| ClassString (name : jstring)
| ClassAnimated.

(** The page as the strategies read it.  The selector engine, the text of
    an element and the decoding of a URI component are the browser's.  The
    document has a body; the [textContent] of an element is a string;
    [innerText] is the empty string where an element has none, as an SVG
    element does.  [None] as the root of a query is the document, and the
    matches of a query come in document order. *)
Class Dom (D : Type) : Type := {
  body : D -> Element;
  querySelectorAll : D -> option Element -> jstring -> list Element;
  textContent : D -> Element -> jstring;
  innerText : D -> Element -> jstring;
  className : D -> Element -> ClassName;
  parentElement : D -> Element -> option Element;
  href : D -> jstring;
  decodeURIComponent : jstring -> Result jstring
}.

(** The [TypeError] of a call of something that is no function, with the
    message of V8. *)
Definition notAFunction (callee : string) : exn :=
  Exn TypeError (litq callee ++ lit " is not a function").

(** [name.toLowerCase()] on a class name; [callee] is how the source
    writes what it calls. *)
Definition lowerCased (callee : string) (name : ClassName) : Result jstring :=
  match name with
  | ClassString s => Ok (toLowerCase s)
  | ClassAnimated => Throw (notAFunction callee)
  end.

(** The document of a world, read through a view of the world. *)
Definition through {W D : Type} (view : W -> D) (P : Dom D) : Dom W := {|
  body := fun w => body (view w);
  querySelectorAll := fun w => querySelectorAll (view w);
  textContent := fun w => textContent (view w);
  innerText := fun w => innerText (view w);
  className := fun w => className (view w);
  parentElement := fun w => parentElement (view w);
  href := fun w => href (view w);
  decodeURIComponent := @decodeURIComponent D P
|}.

(** [s.includes(word)] *)
Fixpoint includes (word s : jstring) : bool :=
  match s with
  | [] => isEmpty word
  | _ :: s' => (startsWith word s || includes word s')%bool
  end.

(** The longest prefix of [s] whose code units all pass [p]: what a
    greedy [[...]+] or [[...]*] over a class takes. *)
Fixpoint takeWhile (p : N -> bool) (s : jstring) : jstring :=
  match s with
  | [] => []
  | c :: s' => if p c then c :: takeWhile p s' else []
  end.

(** [text.replace(/^\d+\s*/, '')]: the digits a line starts with and the
    white space after them. *)
Definition stripLineNumber (text : jstring) : jstring :=
  match text with
  | c :: _ =>
      if JSON.is_digit c
      then dropWhile isWhiteSpace (dropWhile JSON.is_digit text)
      else text
  | [] => []
  end.

(** [href.match(/path=([^&]+)/)]: the capture of the leftmost match. *)
Fixpoint matchPathParam (s : jstring) : option jstring :=
  match s with
  | [] => None
  | _ :: s' =>
      if startsWith (lit "path=") s
      then match takeWhile (fun c => negb (N.eqb c 38)) (skipn 5 s) with
           | [] => matchPathParam s'
           | captured => Some captured
           end
      else matchPathParam s'
  end.

(** [name || fallback] for a file name that may be [null]. *)
Definition orDefault (name : option jstring) (fallback : string) : jstring :=
  match name with
  | Some (c :: rest) => c :: rest
  | _ => lit fallback
  end.

(** The text a line-based strategy appends for an added line and for a
    line of context. *)
Definition plusLine (text : jstring) : jstring :=
  lit "+ " ++ text ++ newline.

Definition contextLine (text : jstring) : jstring :=
  lit "  " ++ text ++ newline.

Definition fileNameSelectors : list jstring :=
  map litq ["[class*=~file-path~] span";
            "[class*=~file-name~]";
            "[class*=~repos-file-header~]";
            ".file-path";
            "[class*=~breadcrumb~] span:last-child";
            "[aria-label*=~file~]";
            ".bolt-header-title";
            "h2[class*=~file~]"].

Definition rightSideSelectors : list jstring :=
  map litq [".side-by-side-diff .right-side";
            ".side-by-side .modified";
            "[class*=~right-file~]";
            "[class*=~modified-content~]";
            ".compare-right";
            ".repos-diff-contents .right";
            "[class*=~diff-side~][class*=~right~]";
            ".vss-Diff--right";
            ".monaco-diff-editor .modified";
            ".diff-editor .editor.modified"].

Definition additionMarkerSelector : jstring :=
  litq "[class*=~addition~], [class*=~added~], [class*=~insert~], .diff-line-add, .line-add, [class*=~diff-add~], tr.add, tr.added, .code-line.add, [class*=~diffLine~][class*=~add~], .repos-line-content.add, [class*=~green~], [class*=~plus-line~]".

Definition panelLineSelector : jstring :=
  litq ".view-line, [class*=~code-line~], [class*=~diff-line~], .line".

Definition fileItemSelector : jstring :=
  litq "[class*=~repos-changes-item~], [class*=~file-item~], .repos-summary-file-path, [data-focuszone*=~file~], .file-row, [role=~treeitem~]".

Definition diffViewerSelector : jstring :=
  litq "[class*=~repos-diff~], [class*=~diff-viewer~], [class*=~file-content~], .compare-files-container, [class*=~side-by-side~], [class*=~inline-diff~]".

Definition lineSelectors : list jstring :=
  map litq ["[class*=~diff-line~]";
            "[class*=~code-line~]";
            "[class*=~line-content~]";
            ".view-line";
            ".view-lines .view-line";
            "tr[class*=~diff~]";
            "tr.added, tr.deleted, tr.unchanged";
            ".line";
            "[role=~row~]"].

Definition fileContainerSelector : jstring :=
  litq ".file-container, [class*=~file-diff~], [class*=~repos-file~], .diff-file".

Definition editorSelector : jstring :=
  litq ".monaco-editor, [class*=~monaco~], .editor-container".

Definition viewLineSelector : jstring := lit ".view-lines .view-line".

Definition codeBlockSelector : jstring :=
  litq "pre, code, [class*=~code-content~], [class*=~source-code~], .hljs".

Definition mainSelectors : list jstring :=
  map litq ["[class*=~repos-changes~]";
            "[class*=~diff-viewer~]";
            "[class*=~pull-request-diff~]";
            "[class*=~file-content~]";
            ".repos-files-container";
            "[role=~main~]";
            ".bolt-page-content"].

Definition codeElementSelector : jstring :=
  litq ".view-line, [class*=~code-line~], [class*=~diff-line~], pre, code, [class*=~line-content~]".

Definition mainContentSelector : jstring :=
  litq "[class*=~diff~], [class*=~code~], [class*=~file-content~]".


(* ---------------------------------------------------------------- *)
(** ** The pull request named by the address *)

(** [([^\/]+)\/] at the head of [s]: a segment that is not empty, and what
    follows the slash after it. *)
Definition segment (s : jstring) : option (jstring * jstring) :=
  match takeWhile (fun c => negb (N.eqb c 47)) s with
  | [] => None
  | seg =>
      match dropWhile (fun c => negb (N.eqb c 47)) s with
      | _ :: rest => Some (seg, rest)
      | [] => None
      end
  end.

(** A literal at the head of [s], and what follows it. *)
Definition expect (literal : string) (s : jstring) : option jstring :=
  if startsWith (lit literal) s
  then Some (skipn (List.length (lit literal)) s)
  else None.

(** [([^\/]+)\/([^\/]+)\/_git\/([^\/]+)\/pullrequest\/(\d+)] at the head
    of [s]: the part the two patterns share, after the host.  Each group
    is greedy over a class that excludes what must follow it, so a match
    from a given position is unique. *)
Definition pullRequestPath (captured : jstring) (legacy : bool) (s : jstring)
  : option ADOContext :=
  match segment s with
  | Some (project, s1) =>
      match expect "_git/" s1 with
      | Some s2 =>
          match segment s2 with
          | Some (repo, s3) =>
              match expect "pullrequest/" s3 with
              | Some s4 =>
                  match takeWhile JSON.is_digit s4 with
                  | [] => None
                  | prId =>
                      Some {| org := captured; project := project;
                              repo := repo; prId := prId;
                              isLegacy := legacy |}
                  end
              | None => None
              end
          | None => None
          end
      | None => None
      end
  | None => None
  end.

(** The first pattern from the head of [s]. *)
Definition devAzureAt (s : jstring) : option ADOContext :=
  match expect "dev.azure.com/" s with
  | Some s1 =>
      match segment s1 with
      | Some (org, s2) => pullRequestPath org false s2
      | None => None
      end
  | None => None
  end.

(** The second pattern from the head of [s]: the first group takes every
    code unit up to the first dot. *)
Definition visualStudioAt (s : jstring) : option ADOContext :=
  match takeWhile (fun c => negb (N.eqb c 46)) s with
  | [] => None
  | org =>
      match expect ".visualstudio.com/"
                   (dropWhile (fun c => negb (N.eqb c 46)) s) with
      | Some s1 => pullRequestPath org true s1
      | None => None
      end
  end.

(** [url.match(pattern)]: the match from the leftmost position that has
    one. *)
Fixpoint leftmost (matchAt : jstring -> option ADOContext) (url : jstring)
  : option ADOContext :=
  match matchAt url with
  | Some found => Some found
  | None =>
      match url with
      | [] => None
      | _ :: url' => leftmost matchAt url'
      end
  end.

(** [getADOContext()] on the address [url]. *)
Definition contextOf (url : jstring) : option ADOContext :=
  match leftmost devAzureAt url with
  | Some context => Some context
  | None => leftmost visualStudioAt url
  end.

Section DomStrategies.

Context {D : Type} {P : Dom D}.

Variable d : D.

Definition getADOContext : option ADOContext := contextOf (href d).

(** [root.querySelector(selector)]: the first match in document order. *)
Definition querySelector (root : option Element) (selector : jstring)
  : option Element :=
  hd_error (querySelectorAll d root selector).

(** [el.textContent?.trim() || ''] *)
Definition trimmedText (el : Element) : jstring := trim (textContent d el).

(** The loop of [getCurrentFileName] over its selectors. *)
Fixpoint firstFileName (selectors : list jstring) : option jstring :=
  match selectors with
  | [] => None
  | selector :: rest =>
      match querySelector None selector with
      | Some el =>
          if isEmpty (trimmedText el) then firstFileName rest
          else Some (trimmedText el)
      | None => firstFileName rest
      end
  end.

Definition getCurrentFileName : Result (option jstring) :=
  match firstFileName fileNameSelectors with
  | Some name => Ok (Some name)
  | None =>
      match matchPathParam (href d) with
      | Some captured =>
          let! decoded := decodeURIComponent captured in
          Ok (Some decoded)
      | None => Ok None
      end
  end.

(** The first selector of a list that matches, as the loops over
    [rightSideSelectors] do. *)
Fixpoint firstMatch (selectors : list jstring) : option Element :=
  match selectors with
  | [] => None
  | selector :: rest =>
      match querySelector None selector with
      | Some el => Some el
      | None => firstMatch rest
      end
  end.

(** [extractAllVisibleCode(container)] *)
Definition extractAllVisibleCode (container : Element) : jstring :=
  let codeElements :=
    querySelectorAll d (Some container) codeElementSelector in
  if negb (isEmpty codeElements)
  then trim (flat_map (fun el =>
                         match textContent d el with
                         | [] => []
                         | text => text ++ newline
                         end) codeElements)
  else
    match querySelector (Some container) mainContentSelector with
    | Some mainContent => trim (innerText d mainContent)
    | None => []
    end.

(** The lower-cased class name of an element that may be missing:
    [(el?.className || '').toLowerCase()] and
    [el?.className?.toLowerCase() || ''], which differ in how they are
    written only.  On an SVG element both call [toLowerCase] on an object
    that has none, and throw.  The words looked for in the result ([add],
    [insert], [new], [plus], [delete], [remove], [old], [minus]) have no
    [k], and in them an [i] is followed by an [n]; so the two code units
    that lower to an ASCII letter without being one, the Kelvin sign and
    the dotted capital I (which lowers to an [i] and a combining dot),
    make no difference to the [includes] tests, and lowering the ASCII
    letters is enough. *)
Definition classOf (callee : string) (el : option Element) : Result jstring :=
  match el with
  | Some e => lowerCased callee (className d e)
  | None => Ok []
  end.

Definition hasDescendant (line : Element) (selector : string) : bool :=
  match querySelector (Some line) (litq selector) with
  | Some _ => true
  | None => false
  end.

(* ---------------------------------------------------------------- *)
(** ** Strategy 0: the side-by-side view *)

(** The [forEach] over the addition markers, from index [idx]: the lines
    pushed to [additions]. *)
Fixpoint markerAdditions (idx : nat) (markers : list Element)
  : list LineEntry :=
  match markers with
  | [] => []
  | marker :: rest =>
      let text := trimmedText marker in
      let cleanText := trim (stripLineNumber text) in
      if (isEmpty text || isEmpty cleanText)%bool
      then markerAdditions (S idx) rest
      else {| line := S idx; lineContent := cleanText |}
           :: markerAdditions (S idx) rest
  end.

(** The test of the right panel for an added line. *)
Definition panelIsAddition (lineClass parentClass : jstring) (line : Element)
  : bool :=
  (includes (lit "add") lineClass
   || includes (lit "insert") lineClass
   || includes (lit "new") lineClass
   || includes (lit "add") parentClass
   || hasDescendant line "[class*=~add~]")%bool.

(** The [forEach] over the lines of the right panel, from index [idx]: the
    class names of every line and of its parent are read, whether the line
    has text or not. *)
Fixpoint panelAdditions (idx : nat) (lines : list Element)
  : Result (list LineEntry) :=
  match lines with
  | [] => Ok []
  | line :: rest =>
      let text := trimmedText line in
      let! lineClass :=
        classOf "(line.className || ~~).toLowerCase" (Some line) in
      let! parentClass :=
        classOf "(line.parentElement?.className || ~~).toLowerCase"
                (parentElement d line) in
      let! more := panelAdditions (S idx) rest in
      if (panelIsAddition lineClass parentClass line
          && negb (isEmpty text))%bool
      then Ok ({| line := S idx; lineContent := text |} :: more)
      else Ok more
  end.

Definition sideBySideRecord (filename : option jstring) (addedContent : jstring)
  (added : list LineEntry) (el : Element) : PageDiff :=
  {| filename := orDefault filename "Current File";
     content := trim addedContent;
     additions := Some added;
     deletions := Some [];
     hasNewCode := Some true;
     isSelection := false;
     element := Some el |}.

Definition extractFromSideBySideView : Result (list PageDiff) :=
  let! filename := getCurrentFileName in
  let rightPanel := firstMatch rightSideSelectors in
  let additionMarkers := querySelectorAll d None additionMarkerSelector in
  let added := markerAdditions 0 additionMarkers in
  let addedContent :=
    flat_map (fun a => lineContent a ++ newline) added in
  if (negb (isEmpty added) && negb (isEmpty (trim addedContent)))%bool
  then Ok [sideBySideRecord filename addedContent added (body d)]
  else
    match rightPanel with
    | Some panel =>
        let lines := querySelectorAll d (Some panel) panelLineSelector in
        let! fromPanel := panelAdditions 0 lines in
        let added' := added ++ fromPanel in
        let addedContent' :=
          addedContent
          ++ flat_map (fun a => plusLine (lineContent a)) fromPanel in
        if negb (isEmpty added')
        then Ok [sideBySideRecord filename addedContent' added' panel]
        else Ok []
    | None => Ok []
    end.

(* ---------------------------------------------------------------- *)
(** ** [extractDiffFromContainer] *)

Definition isAddition (combinedClass : jstring) (line : Element) : bool :=
  (includes (lit "add") combinedClass
   || includes (lit "insert") combinedClass
   || includes (lit "new") combinedClass
   || includes (lit "plus") combinedClass
   || hasDescendant line "[class*=~add~], [class*=~insert~]")%bool.

Definition isDeletion (combinedClass : jstring) (line : Element) : bool :=
  (includes (lit "delete") combinedClass
   || includes (lit "remove") combinedClass
   || includes (lit "old") combinedClass
   || includes (lit "minus") combinedClass
   || hasDescendant line "[class*=~delete~], [class*=~remove~]")%bool.

(** The lines of a container: the matches of the first selector of
    [lineSelectors] that has any. *)
Fixpoint firstLines (container : Element) (selectors : list jstring)
  : list Element :=
  match selectors with
  | [] => []
  | selector :: rest =>
      match querySelectorAll d (Some container) selector with
      | [] => firstLines container rest
      | lines => lines
      end
  end.

(** What the [forEach] over the lines accumulates. *)
Record LineScan : Type := {
  scanContent : jstring;
  scanAdditions : list LineEntry;
  scanDeletions : list LineEntry
}.

Definition emptyScan : LineScan :=
  {| scanContent := []; scanAdditions := []; scanDeletions := [] |}.

(** [lineClass + ' ' + parentClass] for a line with text: the class names
    of a line without text are not read. *)
Definition combinedClassOf (line : Element) : Result jstring :=
  let! lineClass := classOf "line.className?.toLowerCase" (Some line) in
  let! parentClass :=
    classOf "line.parentElement?.className?.toLowerCase"
            (parentElement d line) in
  Ok (lineClass ++ lit " " ++ parentClass).

Fixpoint scanLines (index : nat) (lines : list Element) (acc : LineScan)
  : Result LineScan :=
  match lines with
  | [] => Ok acc
  | line :: rest =>
      let text := trimmedText line in
      if isEmpty text then scanLines (S index) rest acc
      else
        let! combinedClass := combinedClassOf line in
        if isAddition combinedClass line
        then scanLines (S index) rest
               {| scanContent := scanContent acc ++ plusLine text;
                  scanAdditions :=
                    scanAdditions acc
                    ++ [{| line := S index; lineContent := text |}];
                  scanDeletions := scanDeletions acc |}
        else if isDeletion combinedClass line
        then scanLines (S index) rest
               {| scanContent := scanContent acc;
                  scanAdditions := scanAdditions acc;
                  scanDeletions :=
                    scanDeletions acc
                    ++ [{| line := S index; lineContent := text |}] |}
        else scanLines (S index) rest
               {| scanContent := scanContent acc ++ contextLine text;
                  scanAdditions := scanAdditions acc;
                  scanDeletions := scanDeletions acc |}
  end.

Definition extractDiffFromContainer (container : Element) : Result PageDiff :=
  let! filename := getCurrentFileName in
  let lines := firstLines container lineSelectors in
  let! scan := scanLines 0 lines emptyScan in
  let content := scanContent scan in
  let content :=
    if (isEmpty (trim content) && negb (isEmpty (scanAdditions scan)))%bool
    then join newline
           (map (fun a => lit "+ " ++ lineContent a) (scanAdditions scan))
    else content in
  let content :=
    if isEmpty (trim content)
    then match innerText d container with
         | [] => textContent d container
         | raw => raw
         end
    else content in
  Ok {| filename := orDefault filename "Unknown File";
        content := trim content;
        additions := Some (scanAdditions scan);
        deletions := Some (scanDeletions scan);
        hasNewCode := Some (negb (isEmpty (scanAdditions scan)));
        isSelection := false;
        element := Some container |}.

(* ---------------------------------------------------------------- *)
(** ** Strategy 1: the modern viewer *)

(** [extractCurrentDiffContent()]: the record of the first viewer whose
    content is longer than 50 once trimmed, or [null]. *)
Fixpoint firstViewerDiff (viewers : list Element) : Result (option PageDiff) :=
  match viewers with
  | [] => Ok None
  | viewer :: rest =>
      let! diff := extractDiffFromContainer viewer in
      if (negb (isEmpty (content diff))
          && N.ltb 50 (len (trim (content diff))))%bool
      then Ok (Some diff)
      else firstViewerDiff rest
  end.

Definition extractCurrentDiffContent : Result (option PageDiff) :=
  firstViewerDiff (querySelectorAll d None diffViewerSelector).

Definition plainRecord (filename : option jstring) (fallback : string)
  (content : jstring) (el : Element) : PageDiff :=
  {| filename := orDefault filename fallback;
     content := content;
     additions := None;
     deletions := None;
     hasNewCode := None;
     isSelection := false;
     element := Some el |}.

Definition extractFromModernViewer : Result (list PageDiff) :=
  let fileItems := querySelectorAll d None fileItemSelector in
  let! diffContent := extractCurrentDiffContent in
  let diffs :=
    match diffContent with
    | Some diff => if isEmpty (content diff) then [] else [diff]
    | None => []
    end in
  if (isEmpty diffs && negb (isEmpty fileItems))%bool
  then
    let! filename := getCurrentFileName in
    let content := extractAllVisibleCode (body d) in
    if isEmpty content then Ok diffs
    else Ok (diffs ++ [plainRecord filename "Current File" content (body d)])
  else Ok diffs.

(* ---------------------------------------------------------------- *)
(** ** Strategy 2: file diff containers *)

Fixpoint containerDiffs (containers : list Element) : Result (list PageDiff) :=
  match containers with
  | [] => Ok []
  | container :: rest =>
      let! diff := extractDiffFromContainer container in
      let! more := containerDiffs rest in
      if (negb (isEmpty (content diff))
          && N.ltb 20 (len (trim (content diff))))%bool
      then Ok (diff :: more)
      else Ok more
  end.

Definition extractFromFileDiffContainers : Result (list PageDiff) :=
  containerDiffs (querySelectorAll d None fileContainerSelector).

(* ---------------------------------------------------------------- *)
(** ** Strategy 3: Monaco editors *)

Fixpoint editorDiffs (editors : list Element) : Result (list PageDiff) :=
  match editors with
  | [] => Ok []
  | editor :: rest =>
      match querySelectorAll d (Some editor) viewLineSelector with
      | [] => editorDiffs rest
      | viewLines =>
          let content :=
            flat_map (fun line => textContent d line ++ newline) viewLines in
          if isEmpty (trim content) then editorDiffs rest
          else
            let! filename := getCurrentFileName in
            let! more := editorDiffs rest in
            Ok (plainRecord filename "Editor Content" (trim content) editor
                :: more)
      end
  end.

Definition extractFromMonacoEditor : Result (list PageDiff) :=
  editorDiffs (querySelectorAll d None editorSelector).

(* ---------------------------------------------------------------- *)
(** ** Strategy 4: generic code blocks *)

Fixpoint blockDiffs (blocks : list Element) : Result (list PageDiff) :=
  match blocks with
  | [] => Ok []
  | block :: rest =>
      let content := trimmedText block in
      if (negb (isEmpty content) && N.ltb 50 (len content))%bool
      then
        let! filename := getCurrentFileName in
        let! more := blockDiffs rest in
        Ok (plainRecord filename "Code Block" content block :: more)
      else blockDiffs rest
  end.

Definition extractFromGenericCodeBlocks : Result (list PageDiff) :=
  blockDiffs (querySelectorAll d None codeBlockSelector).

(* ---------------------------------------------------------------- *)
(** ** Strategy 5: the visible diff area *)

Fixpoint visibleDiffs (selectors : list jstring) : Result (list PageDiff) :=
  match selectors with
  | [] => Ok []
  | selector :: rest =>
      match querySelector None selector with
      | Some container =>
          let content := extractAllVisibleCode container in
          if (negb (isEmpty content) && N.ltb 100 (len content))%bool
          then
            let! filename := getCurrentFileName in
            Ok [plainRecord filename "All Changes" content container]
          else visibleDiffs rest
      | None => visibleDiffs rest
      end
  end.

Definition extractFromVisibleDiffArea : Result (list PageDiff) :=
  visibleDiffs mainSelectors.

End DomStrategies.

End DomScan.

(* ================================================================== *)
(** * The browser *)
(* ================================================================== *)

(** The page, the network, the model and the panel.  The document and the
    address are read through [DomScan.Dom]; the network calls and the
    panel change the world and may throw.  The window is one that is
    shown, so that it has a selection object. *)
Class Browser (W : Type) : Type := {
  (** [waitForElement(...)], which resolves when its time is out, and the
      one-second pause of [extractDiffs] *)
  await_page : W -> W;
  (** [window.getSelection().toString()] *)
  getSelection : W -> jstring;
  (** [document] and [window.location] *)
  page :: DomScan.Dom W;
  (** [fetch(url)] on a URL of the REST API *)
  fetch : Request -> W -> Result Response * W;
  (** [fetch(url, { method: 'POST', headers, body: JSON.stringify(body) })] *)
  post : jstring -> JValue -> W -> Result Response * W;
  (** [displayIssues(diff, reviewResult)] *)
  displayIssues : ChangeRecord -> ReviewResult -> W -> Result unit * W
}.

Section Script.

Context {E : Engine} {W : Type} {B : Browser W}.

Definition Script (A : Type) : Type := M (State W) A.

(** An operation on the world. *)
Definition in_world {A : Type} (op : W -> Result A * W) : Script A :=
  fun st => let (r, w) := op (world st) in (r, set_world st w).

(** A read of the page. *)
Definition read {A : Type} (f : W -> A) : Script A :=
  fun st => (Ok (f (world st)), st).

(** A read of the page that may throw. *)
Definition scan {A : Type} (f : W -> Result A) : Script A :=
  fun st => (f (world st), st).

Definition emit (e : Event) : Script unit :=
  fun st => (Ok tt, add_event e st).

(** [showNotification(message, type)] *)
Definition showNotification (message kind : jstring) : Script unit :=
  emit (Notified message kind).

(* ---------------------------------------------------------------- *)
(** ** Remote content fetcher *)

Definition fetchFileContentByPath (context : ADOContext) (path : jstring)
  (commitId : JValue) : Script jstring :=
  if wellFormed path
  then try_catch
         (response <- in_world (fetch (GetItem context path commitId)) ;;
          if ok response
          then lift (text response)
          else (errorText <- lift (text response) ;; ret []))
         (fun _ => ret [])
  else throw uriMalformed.

(** The loop of [extractFromADOApi] over [changesList], from the records
    pushed so far. *)
Fixpoint fetchChanges (context : ADOContext) (sourceCommit targetCommit : JValue)
  (changesList : list JValue) (diffs : list ChangeRecord) {struct changesList}
  : Script (list ChangeRecord) :=
  match changesList with
  | [] => ret diffs
  | change :: rest =>
      if N.leb MAX_FILES (N.of_nat (List.length diffs)) then ret diffs
      else
        changeItem <- lift (get_prop change (lit "item")) ;;
        let item := js_or changeItem change in
        isFolder <- lift (get_prop item (lit "isFolder")) ;;
        if truthy isFolder
        then fetchChanges context sourceCommit targetCommit rest diffs
        else
          changeChangeType <- lift (get_prop change (lit "changeType")) ;;
          let changeType := js_or changeChangeType (JStr (lit "edit")) in
          if is_string changeType (lit "delete")
          then fetchChanges context sourceCommit targetCommit rest diffs
          else
            filePath <- lift (get_prop item (lit "path")) ;;
            if negb (truthy filePath)
            then fetchChanges context sourceCommit targetCommit rest diffs
            else
              match filePath with
              | JStr path =>
                  if existsb (fun ext => endsWith ext (toLowerCase path))
                             binaryExtensions
                  then fetchChanges context sourceCommit targetCommit rest diffs
                  else
                    newContent <-
                      (if truthy sourceCommit
                       then fetchFileContentByPath context path sourceCommit
                       else ret []) ;;
                    if (truthy sourceCommit
                        && N.ltb MAX_FILE_SIZE (len newContent))%bool
                    then fetchChanges context sourceCommit targetCommit rest diffs
                    else
                      originalContent <-
                        (if (negb (is_string changeType (lit "add"))
                             && truthy targetCommit)%bool
                         then fetchFileContentByPath context path targetCommit
                         else ret []) ;;
                      if isEmpty newContent
                      then fetchChanges context sourceCommit targetCommit
                                        rest diffs
                      else fetchChanges context sourceCommit targetCommit rest
                             (diffs ++ [FromApi
                                {| apiFilename := path;
                                   originalContent := originalContent;
                                   newContent := newContent;
                                   changeType := changeType |}])
              | _ =>
                  throw (Exn TypeError
                           (lit "filePath.toLowerCase is not a function"))
              end
  end.

Definition extractFromADOApi : Script (list ChangeRecord) :=
  context <- read DomScan.getADOContext ;;
  match context with
  | None => ret []
  | Some context =>
      try_catch
        (iterationsResponse <- in_world (fetch (GetIterations context)) ;;
         if negb (ok iterationsResponse) then ret []
         else
           iterations <- lift (json iterationsResponse) ;;
           value <- lift (get_prop iterations (lit "value")) ;;
           if negb (truthy value) then ret []
           else
             valueLength <- lift (js_length value) ;;
             if is_zero valueLength then ret []
             else
               let lastIteration := lastOf value in
               iterationId <- lift (get_prop lastIteration (lit "id")) ;;
               sourceRef <- lift (get_prop lastIteration (lit "sourceRefCommit")) ;;
               let sourceCommit := get_prop_opt sourceRef (lit "commitId") in
               commonRef <- lift (get_prop lastIteration (lit "commonRefCommit")) ;;
               targetRef <- lift (get_prop lastIteration (lit "targetRefCommit")) ;;
               let targetCommit :=
                 js_or (get_prop_opt commonRef (lit "commitId"))
                       (get_prop_opt targetRef (lit "commitId")) in
               changesResponse <-
                 in_world (fetch (GetChanges context iterationId)) ;;
               if negb (ok changesResponse) then ret []
               else
                 changes <- lift (json changesResponse) ;;
                 changeEntries <- lift (get_prop changes (lit "changeEntries")) ;;
                 changesValue <- lift (get_prop changes (lit "value")) ;;
                 let changesList :=
                   js_or (js_or changeEntries changesValue) (JArr []) in
                 entries <- lift (iterate changesList) ;;
                 fetchChanges context sourceCommit targetCommit entries [])
        (fun _ => ret [])
  end.

(* ---------------------------------------------------------------- *)
(** ** Extraction strategy chain *)

(** A strategy that runs is recorded with what it returned. *)
Definition invoke (s : Strategy) (strategy : Script (list ChangeRecord))
  : Script (list ChangeRecord) :=
  out <- strategy ;;
  emit (Invoked s out) ;;;
  ret out.

(** A strategy that scans the DOM: it changes nothing, and what it throws
    is thrown by [extractDiffs]. *)
Definition fromPage (strategy : W -> Result (list PageDiff))
  : Script (list ChangeRecord) :=
  found <- scan strategy ;;
  ret (map FromPage found).

(** The [selected] block of [extractDiffs]: the record of the selection
    when it is not blank. *)
Definition selectedCode : Script (list ChangeRecord) :=
  selection <- read getSelection ;;
  if (negb (isEmpty selection) && negb (isEmpty (trim selection)))%bool
  then ret [FromPage {| filename := lit "Selected Code";
                        content := selection;
                        additions := None;
                        deletions := None;
                        hasNewCode := None;
                        isSelection := true;
                        element := None |}]
  else ret [].

Definition extractDiffs (type : jstring) : Script (list ChangeRecord) :=
  in_world (fun w => (Ok tt, await_page w)) ;;;
  diffs <- (if str_eqb type (lit "selected")
            then invoke Selection selectedCode
            else ret []) ;;
  if negb (isEmpty diffs) then ret diffs
  else
    extractedDiffs <- (if negb (str_eqb type (lit "selected"))
                       then invoke AdoApi extractFromADOApi
                       else ret []) ;;
    if negb (isEmpty extractedDiffs) then ret (scoped type extractedDiffs)
    else
    extractedDiffs <-
      invoke SideBySideView (fromPage DomScan.extractFromSideBySideView) ;;
    if negb (isEmpty extractedDiffs) then ret (scoped type extractedDiffs)
    else
    extractedDiffs <-
      invoke ModernViewer (fromPage DomScan.extractFromModernViewer) ;;
    if negb (isEmpty extractedDiffs) then ret (scoped type extractedDiffs)
    else
    extractedDiffs <-
      invoke FileDiffContainers
             (fromPage DomScan.extractFromFileDiffContainers) ;;
    if negb (isEmpty extractedDiffs) then ret (scoped type extractedDiffs)
    else
    extractedDiffs <-
      invoke MonacoEditor (fromPage DomScan.extractFromMonacoEditor) ;;
    if negb (isEmpty extractedDiffs) then ret (scoped type extractedDiffs)
    else
    extractedDiffs <-
      invoke GenericCodeBlocks
             (fromPage DomScan.extractFromGenericCodeBlocks) ;;
    if negb (isEmpty extractedDiffs) then ret (scoped type extractedDiffs)
    else
    extractedDiffs <-
      invoke VisibleDiffArea (fromPage DomScan.extractFromVisibleDiffArea) ;;
    if negb (isEmpty extractedDiffs) then ret (scoped type extractedDiffs)
    else ret [].

(* ---------------------------------------------------------------- *)
(** ** Review orchestrator *)

(** [callGeminiAPI(prompt, apiKey, model)] on the network of the page. *)
Definition callGeminiAPI (prompt apiKey model : jstring) : Script JValue :=
  in_world (Gemini.callGeminiAPI post prompt apiKey model).

Definition reviewDiff (diff : ChangeRecord) (settings : Settings)
  : Script ReviewResult :=
  let prompt := buildReviewPrompt diff settings in
  try_catch
    (response <- callGeminiAPI prompt (apiKey settings) (model settings) ;;
     reviewResult <- lift (parseResponseValue response) ;;
     emit (Reviewed diff reviewResult) ;;;
     ret reviewResult)
    (fun error => throw error).

(** The [for (const diff of diffs)] loop of [handleReview], from the
    running [totalIssues] and [stats]. *)
Fixpoint reviewLoop (settings : Settings) (diffs : list ChangeRecord)
  (totalIssues : nat) (stats : Stats) {struct diffs}
  : Script (nat * Stats) :=
  match diffs with
  | [] => ret (totalIssues, stats)
  | diff :: rest =>
      reviewResult <- reviewDiff diff settings ;;
      let issues := js_or (issues reviewResult) (JArr []) in
      match issues with
      | JArr issueList =>
          if (truthy (summary reviewResult)
              || negb (isEmpty issueList))%bool
          then
            counted <- lift (forEachSeverity issueList stats) ;;
            in_world (displayIssues diff reviewResult) ;;;
            reviewLoop settings rest (totalIssues + List.length issueList)
                       counted
          else reviewLoop settings rest totalIssues stats
      | _ =>
          if (truthy (summary reviewResult) || length_positive issues)%bool
          then throw (Exn TypeError (lit "issues.forEach is not a function"))
          else reviewLoop settings rest totalIssues stats
      end
  end.

Definition startNotice : jstring :=
  [55357; 56589]%N ++ lit " Starting AI code review...".

Definition reviewingNotice (n : nat) : jstring :=
  [55357; 56541]%N ++ lit " Reviewing " ++ show_nat n ++ lit " file(s)...".

Definition completeNotice (n : nat) : jstring :=
  [9989]%N ++ lit " Review complete! Found " ++ show_nat n ++ lit " issue(s)".

Definition failedNotice (msg : jstring) : jstring :=
  [10060]%N ++ lit " Review failed: " ++ msg.

(** The [try] block of [handleReview]. *)
Definition reviewPass (type : jstring) (settings : Settings)
  : Script Outcome :=
  showNotification startNotice (lit "info") ;;;
  diffs <- extractDiffs type ;;
  if isEmpty diffs
  then ret (Failure (lit "No code changes found to review"))
  else
    showNotification (reviewingNotice (List.length diffs)) (lit "info") ;;;
    counted <- reviewLoop settings diffs 0
                 {| files := List.length diffs; critical := 0;
                    warnings := 0; suggestions := 0 |} ;;
    let (totalIssues, stats) := counted in
    (fun st => (Ok tt, set_reviewStats stats st)) ;;;
    showNotification (completeNotice totalIssues) (lit "success") ;;;
    ret (Success totalIssues).

Definition handleReview (type : jstring) (settings : Settings)
  : Script Outcome :=
  fun st =>
    if isReviewing st
    then (Ok (Failure (lit "Review already in progress")), st)
    else
      finally
        (try_catch
           (reviewPass type settings)
           (fun error =>
              showNotification (failedNotice (message error)) (lit "error") ;;;
              ret (Failure (message error))))
        (set_isReviewing false)
        (set_currentSettings settings (set_isReviewing true st)).

End Script.

Arguments Script : clear implicits.


(* ================================================================== *)
(** * The chain as a first-non-empty reducer *)
(* ================================================================== *)

Section Reducer.

Context {E : Engine} {W : Type} {B : Browser W}.

(** The strategies in priority order.  The selection is read only for
    scope [selected], the REST API only for the other scopes. *)
Definition domStrategies : list Strategy :=
  [SideBySideView; ModernViewer; FileDiffContainers; MonacoEditor;
   GenericCodeBlocks; VisibleDiffArea].

Definition priority (type : jstring) : list Strategy :=
  (if str_eqb type (lit "selected") then [Selection] else [AdoApi])
  ++ domStrategies.

Definition strategyOf (s : Strategy) : Script W (list ChangeRecord) :=
  match s with
  | Selection => selectedCode
  | AdoApi => extractFromADOApi
  | SideBySideView => fromPage DomScan.extractFromSideBySideView
  | ModernViewer => fromPage DomScan.extractFromModernViewer
  | FileDiffContainers => fromPage DomScan.extractFromFileDiffContainers
  | MonacoEditor => fromPage DomScan.extractFromMonacoEditor
  | GenericCodeBlocks => fromPage DomScan.extractFromGenericCodeBlocks
  | VisibleDiffArea => fromPage DomScan.extractFromVisibleDiffArea
  end.

(** The words of the specification: try the strategies in order, return
    what [finish] makes of the first non-empty output, try no strategy
    after it, and return the empty sequence when all are empty.  What a
    strategy throws is thrown. *)
Fixpoint firstNonEmpty (finish : list ChangeRecord -> list ChangeRecord)
  (order : list Strategy) : Script W (list ChangeRecord) :=
  match order with
  | [] => ret []
  | s :: rest =>
      out <- invoke s (strategyOf s) ;;
      if negb (isEmpty out) then ret (finish out)
      else firstNonEmpty finish rest
  end.

(** A run of the chain over [order] from state [st]: the strategies are
    run in order, each in the state the one before left; one that returns
    no record is recorded and the next is tried; the first that returns
    records is recorded, [finish] of its output is the result, and no
    further strategy is run; one that throws is not recorded, what it
    threw is the result, and no further strategy is run.  When none is
    left the result is empty. *)
Inductive ChainRun (finish : list ChangeRecord -> list ChangeRecord)
  : list Strategy -> State W -> list Event -> Result (list ChangeRecord)
    -> State W -> Prop :=
| ChainExhausted (st : State W) : ChainRun finish [] st [] (Ok []) st
| ChainNext (s : Strategy) (rest : list Strategy) (st st1 st' : State W)
    (log : list Event) (result : Result (list ChangeRecord)) :
    strategyOf s st = (Ok [], st1) ->
    ChainRun finish rest (add_event (Invoked s []) st1) log result st' ->
    ChainRun finish (s :: rest) st (Invoked s [] :: log) result st'
| ChainWon (s : Strategy) (rest : list Strategy) (st st1 : State W)
    (out : list ChangeRecord) :
    strategyOf s st = (Ok out, st1) ->
    out <> [] ->
    ChainRun finish (s :: rest) st [Invoked s out] (Ok (finish out))
             (add_event (Invoked s out) st1)
| ChainThrew (s : Strategy) (rest : list Strategy) (st st1 : State W)
    (e : exn) :
    strategyOf s st = (Throw e, st1) ->
    ChainRun finish (s :: rest) st [] (Throw e) st1.

(** The state once [extractDiffs] has waited for the page. *)
Definition afterWait (st : State W) : State W :=
  set_world st (await_page (world st)).

(** A computation that touches nothing but the world. *)
Definition silent {A : Type} (m : Script W A) : Prop :=
  forall st, exists w, snd (m st) = set_world st w.

(** What a computation returns when it returns. *)
Definition ensures {A : Type} (m : Script W A) (P : A -> Prop) : Prop :=
  forall st a st', m st = (Ok a, st') -> P a.

End Reducer.

(** The record [extractDiffs] makes of a selection. *)
Definition selectionRecord (selection : jstring) : ChangeRecord :=
  FromPage {| filename := lit "Selected Code"; content := selection;
              additions := None; deletions := None; hasNewCode := None;
              isSelection := true; element := None |}.

(** A selection that [extractDiffs] does not take: empty, or white space
    only. *)
Definition blank (selection : jstring) : bool :=
  (isEmpty selection || isEmpty (trim selection))%bool.

(** The output of the first strategy of a log that returned records. *)
Fixpoint winnerOutput (log : list Event) : list ChangeRecord :=
  match log with
  | [] => []
  | Invoked _ out :: rest =>
      if isEmpty out then winnerOutput rest else out
  | _ :: rest => winnerOutput rest
  end.

Definition invokedStrategies (log : list Event) : list Strategy :=
  flat_map (fun e => match e with Invoked s _ => [s] | _ => [] end) log.

(** The results parsed during a pass, in order. *)
Definition reviewedResults (log : list Event) : list ReviewResult :=
  flat_map (fun e => match e with Reviewed _ r => [r] | _ => [] end) log.

(** The length of the [issues] array of a result. *)
Definition issueCount (r : ReviewResult) : nat :=
  match issues r with
  | JArr issueList => List.length issueList
  | _ => 0
  end.

Definition totalOf (results : list ReviewResult) : nat :=
  fold_right (fun r n => issueCount r + n) 0 results.

Definition bucketSum (stats : Stats) : nat :=
  critical stats + warnings stats + suggestions stats.

(** The severity of an array element is the given word. *)
Definition hasSeverity (word : string) (issue : JValue) : bool :=
  match get_prop issue (lit "severity") with
  | Ok severity => is_string severity (lit word)
  | Throw _ => false
  end.

(** The elements whose severity is neither of the two words. *)
Definition otherSeverity (issue : JValue) : bool :=
  (negb (hasSeverity "critical" issue)
   && negb (hasSeverity "warning" issue))%bool.

Definition counted (p : JValue -> bool) (issueList : list JValue) : nat :=
  List.length (filter p issueList).

(** An element of the array from which [severity] can be read. *)
Definition readable (issue : JValue) : bool :=
  match issue with
  | JNull | JUndefined => false
  | _ => true
  end.

Definition isPlainObject (v : JValue) : bool :=
  match v with JObj _ => true | _ => false end.

(** A record fetched through the REST API: content that is not empty and
    within the size limit. *)
Definition fetched (diff : ChangeRecord) : Prop :=
  exists d, diff = FromApi d
            /\ newContent d <> []
            /\ (len (newContent d) <= MAX_FILE_SIZE)%N.

Definition withinLimits (diffs : list ChangeRecord) : Prop :=
  (N.of_nat (List.length diffs) <= MAX_FILES)%N /\ Forall fetched diffs.

(* ------------------------------------------------------------------ *)
(** ** Invariants of the JSON automaton *)

(** The outermost open container is an array. *)
Definition bottomArray (stk : list JSON.Frame) : Prop :=
  exists pre elems, stk = pre ++ [JSON.FArr elems].

(** The states of a text that started with an opening bracket. *)
Definition arrayText (st : JSON.PState) : Prop :=
  match JSON.mode st with
  | JSON.MDone v => exists l, v = JArr l
  | _ => bottomArray (JSON.stack st)
  end.

(** A code unit that is neither white space nor a backtick. *)
Definition plainUnit (c : N) : bool :=
  (negb (isWhiteSpace c) && negb (N.eqb c 96))%bool.

(** What is left of a literal being read is made of letters. *)
Definition literalClean (st : JSON.PState) : Prop :=
  match JSON.mode st with
  | JSON.MLiteral rest _ => forallb plainUnit rest = true
  | _ => True
  end.

(* ================================================================== *)
(** * Scripted documents *)
(* ================================================================== *)

(** A document with fixed answers, for running the strategies on
    examples: what each selector matches under each root, the text and
    the class name of each element, which elements are SVG elements, the
    parent of each element, and the address.  The body is element 0, and
    an element that has no entry in [parents] is a child of nothing. *)
Module ScriptedDom.

Record Document : Type := {
  matches : list (option Element * jstring * list Element);
  texts : list (Element * string);
  classes : list (Element * string);
  vectors : list Element;
  parents : list (Element * Element);
  address : string
}.

Definition sameRoot (a b : option Element) : bool :=
  match a, b with
  | Some x, Some y => N.eqb x y
  | None, None => true
  | _, _ => false
  end.

Fixpoint select (table : list (option Element * jstring * list Element))
  (root : option Element) (selector : jstring) : list Element :=
  match table with
  | [] => []
  | (r, s, found) :: more =>
      if (sameRoot r root && str_eqb s selector)%bool then found
      else select more root selector
  end.

Fixpoint textOf (table : list (Element * string)) (el : Element) : jstring :=
  match table with
  | [] => []
  | (e, s) :: more => if N.eqb e el then lit s else textOf more el
  end.

Definition classNameOf (d : Document) (el : Element) : DomScan.ClassName :=
  if existsb (N.eqb el) (vectors d) then DomScan.ClassAnimated
  else DomScan.ClassString (textOf (classes d) el).

Fixpoint parentOf (table : list (Element * Element)) (el : Element)
  : option Element :=
  match table with
  | [] => None
  | (e, parent) :: more => if N.eqb e el then Some parent else parentOf more el
  end.

(** The fixtures escape nothing: a text without a percent sign decodes to
    itself, and the only other text they use, a lone percent sign, is
    malformed. *)
Definition decode (s : jstring) : Result jstring :=
  if existsb (N.eqb 37) s then Throw uriMalformed else Ok s.

#[export] Instance dom : DomScan.Dom Document := {|
  DomScan.body := fun _ => 0%N;
  DomScan.querySelectorAll := fun d => select (matches d);
  DomScan.textContent := fun d => textOf (texts d);
  DomScan.innerText := fun d => textOf (texts d);
  DomScan.className := classNameOf;
  DomScan.parentElement := fun d => parentOf (parents d);
  DomScan.href := fun d => lit (address d);
  DomScan.decodeURIComponent := decode
|}.

Definition pullRequestPage : string :=
  "https://dev.azure.com/contoso/web/_git/shop/pullrequest/42".

(** A document without elements at the given address. *)
Definition emptyAt (url : string) : Document := {|
  matches := []; texts := []; classes := []; vectors := []; parents := [];
  address := url
|}.

(** A side-by-side view with three marked lines, one of them blank; the
    file is named by the address. *)
Definition marked : Document := {|
  matches := [(None, DomScan.additionMarkerSelector, [1; 2; 3]%N)];
  texts := [(1%N, "12  let a = 1;"); (2%N, "   "); (3%N, "13 let b = 2;")];
  classes := [(1%N, "added"); (2%N, "added"); (3%N, "added")];
  vectors := [];
  parents := [(1%N, 0%N); (2%N, 0%N); (3%N, 0%N)];
  address := "https://dev.azure.com/contoso/web/_git/shop/pullrequest/42?path=/src/a.js&x=1"
|}.

(** A file container with an added, a removed and a plain line, under a
    header that names the file. *)
Definition container : Document := {|
  matches := [(None, litq ".file-path", [20%N]);
              (None, DomScan.fileContainerSelector, [10%N]);
              (None, DomScan.additionMarkerSelector, [11%N]);
              (Some 10%N, litq "[class*=~diff-line~]", [11; 12; 13]%N)];
  texts := [(20%N, " src/app.js ");
            (11%N, "const total = price * count;");
            (12%N, "const total = price;");
            (13%N, "return total;")];
  classes := [(20%N, "file-path"); (10%N, "file-container");
              (11%N, "diff-line added"); (12%N, "diff-line Removed");
              (13%N, "diff-line")];
  vectors := [];
  parents := [(20%N, 0%N); (10%N, 0%N);
              (11%N, 10%N); (12%N, 10%N); (13%N, 10%N)];
  address := pullRequestPage
|}.

(** A page without a file name, whose address has a malformed [path]. *)
Definition malformed : Document := {|
  matches := [(None, DomScan.editorSelector, [30%N]);
              (Some 30%N, DomScan.viewLineSelector, [31%N])];
  texts := [(31%N, "x = 1")];
  classes := [(30%N, "monaco-editor"); (32%N, "view-lines");
              (31%N, "view-line")];
  vectors := [];
  parents := [(30%N, 0%N); (32%N, 30%N); (31%N, 32%N)];
  address := "https://dev.azure.com/contoso/web/_git/shop/pullrequest/42?path=%"
|}.

(** A page with a [pre] around a [code] of more than 50 code units and a
    short [code]; the address names no file. *)
Definition nested : Document := {|
  matches := [(None, DomScan.codeBlockSelector, [40; 41; 42]%N)];
  texts := [(40%N, "  function total(price, count) { return price * count; }  ");
            (41%N, "function total(price, count) { return price * count; }");
            (42%N, "npm test")];
  classes := [];
  vectors := [];
  parents := [(40%N, 0%N); (41%N, 40%N); (42%N, 0%N)];
  address := pullRequestPage
|}.

(** The page [<body><pre>...</pre><pre>...</pre></body>]: two blocks of
    code and nothing else.  No element has a class or an attribute, so
    the only selectors of the script that match are those that name the
    [pre] tag. *)
Definition twoBlocks : Document := {|
  matches := [(None, DomScan.codeBlockSelector, [1; 2]%N);
              (Some 0%N, DomScan.codeElementSelector, [1; 2]%N)];
  texts := [(1%N, "function total(price, count) { return price * count; }");
            (2%N, "function tax(total, rate) { return total * rate / 100; }")];
  classes := [];
  vectors := [];
  parents := [(1%N, 0%N); (2%N, 0%N)];
  address := pullRequestPage
|}.

(** The page [<body><div role=treeitem>src/a.js</div><pre>let a = 1;</pre>
    </body>]: a file in the file tree, and a block of code of which no
    diff viewer shows anything. *)
Definition listed : Document := {|
  matches := [(None, DomScan.fileItemSelector, [50%N]);
              (None, DomScan.codeBlockSelector, [51%N]);
              (Some 0%N, DomScan.codeElementSelector, [51%N])];
  texts := [(50%N, "src/a.js"); (51%N, "let a = 1;")];
  classes := [];
  vectors := [];
  parents := [(50%N, 0%N); (51%N, 0%N)];
  address := pullRequestPage
|}.

(** The page [<body><main role=main><pre>...</pre></main></body>] with a
    block of 101 code units. *)
Definition mainArea : Document := {|
  matches := [(None, litq "[role=~main~]", [60%N]);
              (None, DomScan.codeBlockSelector, [61%N]);
              (Some 0%N, DomScan.codeElementSelector, [61%N]);
              (Some 60%N, DomScan.codeElementSelector, [61%N])];
  texts := [(61%N, "function total(price, count) { if (count < 0) { throw new RangeError(count) } return price * count; }")];
  classes := [];
  vectors := [];
  parents := [(60%N, 0%N); (61%N, 60%N)];
  address := pullRequestPage
|}.

(** A file container whose only line is an SVG [text] element of class
    [line]. *)
Definition drawing : Document := {|
  matches := [(None, DomScan.fileContainerSelector, [70%N]);
              (Some 70%N, litq ".line", [72%N])];
  texts := [(72%N, "total")];
  classes := [(70%N, "file-container")];
  vectors := [71%N; 72%N];
  parents := [(70%N, 0%N); (71%N, 70%N); (72%N, 71%N)];
  address := pullRequestPage
|}.

End ScriptedDom.

(* ================================================================== *)
(** * A scripted page *)
(* ================================================================== *)

(** A world with fixed answers, for running the script on examples: the
    selection, the document, canned REST responses, the queue of what the
    endpoint of the model answers, and what the panel was asked to
    show. *)
Module Scripted.

Record Page : Type := {
  selection : jstring;
  document : ScriptedDom.Document;
  rest : Request -> Result Response;
  replies : list (Result Response);
  shown : list (ChangeRecord * ReviewResult)
}.

(** What the endpoint answers when the queue is empty. *)
Definition serverError : Response := {|
  ok := false; status := 500; json := Ok (JObj []); text := Ok (lit "{}")
|}.

Definition nextReply (p : Page) : Result Response * Page :=
  match replies p with
  | [] => (Ok serverError, p)
  | r :: more =>
      (r, {| selection := selection p; document := document p;
             rest := rest p; replies := more; shown := shown p |})
  end.

Definition show (diff : ChangeRecord) (r : ReviewResult) (p : Page)
  : Result unit * Page :=
  (Ok tt, {| selection := selection p; document := document p;
             rest := rest p; replies := replies p;
             shown := shown p ++ [(diff, r)] |}).

(** The texts of V8 for what an object literal inherits. *)
#[export] Instance engine : Engine := {|
  string_of_value := fun _ => lit "[object Object]";
  index_below := fun _ => lit "NaN";
  length_positive := fun _ => false;
  string_of_inherited := fun name =>
    if str_eqb name (lit "__proto__") then lit "[object Object]"
    else if str_eqb name (lit "constructor")
    then lit "function Object() { [native code] }"
    else lit "function " ++ name ++ lit "() { [native code] }"
|}.

#[export] Instance browser : Browser Page := {|
  await_page := fun p => p;
  getSelection := selection;
  page := DomScan.through document ScriptedDom.dom;
  fetch := fun request p => (rest p request, p);
  post := fun _ _ => nextReply;
  displayIssues := show
|}.

Definition noNetwork (_ : Request) : Result Response :=
  Throw (Exn TypeError (lit "Failed to fetch")).

(** A response of the model whose first part has the given [text]. *)
Definition modelReply (text : JValue) : Result Response :=
  Ok {| ok := true; status := 200;
        json := Ok (JObj [(lit "candidates",
                           JArr [JObj [(lit "content",
                                        JObj [(lit "parts",
                                               JArr [JObj [(lit "text", text)]])])]])]);
        text := Ok [] |}.

(** A pull request page that shows nothing, without network. *)
Definition blankPage : Page := {|
  selection := []; document := ScriptedDom.emptyAt ScriptedDom.pullRequestPage;
  rest := noNetwork; replies := []; shown := []
|}.

Definition added (n : nat) (s : string) : LineEntry :=
  {| line := n; lineContent := lit s |}.

Definition markerDiff (name code : string) (lines : list LineEntry) : PageDiff := {|
  filename := lit name; content := lit code;
  additions := Some lines; deletions := Some [];
  hasNewCode := Some true; isSelection := false; element := Some 0%N
|}.

(** The records of the two blocks of [ScriptedDom.twoBlocks]. *)
Definition codeBlock (code : string) (el : Element) : PageDiff :=
  DomScan.plainRecord None "Code Block" (lit code) el.

Definition fileA : PageDiff :=
  codeBlock "function total(price, count) { return price * count; }" 1%N.
Definition fileB : PageDiff :=
  codeBlock "function tax(total, rate) { return total * rate / 100; }" 2%N.

(** A pull request page that shows two blocks of code, whose user has
    selected nothing and whose REST API cannot be reached; the model
    answers twice. *)
Definition twoFiles : Page := {|
  selection := []; document := ScriptedDom.twoBlocks; rest := noNetwork;
  replies :=
    [modelReply
       (JStr (litq "[{~line~:1,~severity~:~critical~},{~line~:2}]"));
     modelReply
       (JStr (litq "{~summary~:{~riskLevel~:~low~},~issues~:[{~severity~:~warning~}]}"))];
  shown := []
|}.

Definition idle (p : Page) : State Page :=
  mkScript false None None [] p.

Definition busy (p : Page) : State Page :=
  mkScript true None None [] p.

Definition settings : Settings := {|
  apiKey := lit "key"; model := lit "gemini-2.5-flash-lite";
  reviewDepth := lit "standard";
  focusAreas := {| bugs := true; security := true; performance := true;
                   style := true; naming := false; docs := false;
                   tests := false |}
|}.

(** The reply of the scenario, with one issue in the array. *)
Definition proseAroundArray : jstring :=
  litq "Here you go: [{~line~:3,~severity~:~warning~,~title~:~t~}] Thanks!".

Definition embeddedArray : jstring :=
  litq "[{~line~:3,~severity~:~warning~,~title~:~t~}]".

(** The same reply with the three dots of the scenario kept as they are. *)
Definition proseAroundDots : jstring :=
  litq "Here you go: [{~line~:3,~severity~:~warning~,...}] Thanks!".

(** A pull request page: the REST API lists two iterations and five
    changes (a folder, an edited file, a deleted file, an image and an
    added file) and serves every file. *)
Definition contoso : ADOContext := {|
  org := lit "contoso"; project := lit "web"; repo := lit "shop";
  prId := lit "42"; isLegacy := false
|}.

Definition answer (body : string) : Result Response :=
  Ok {| ok := true; status := 200; json := JSON.parse (litq body);
        text := Ok (litq body) |}.

Definition restApi (request : Request) : Result Response :=
  match request with
  | GetIterations _ =>
      answer "{~value~:[{~id~:1},{~id~:2,~sourceRefCommit~:{~commitId~:~abc~},~commonRefCommit~:{~commitId~:~def~}}]}"
  | GetChanges _ _ =>
      answer "{~changeEntries~:[{~item~:{~path~:~/src~,~isFolder~:true}},{~item~:{~path~:~/src/a.js~},~changeType~:~edit~},{~item~:{~path~:~/src/old.js~},~changeType~:~delete~},{~item~:{~path~:~/img/logo.PNG~},~changeType~:~add~},{~item~:{~path~:~/src/new.js~},~changeType~:~add~}]}"
  | GetItem _ path commitId =>
      Ok {| ok := true; status := 200; json := Throw JSON.syntax_error;
            text := Ok (display commitId ++ lit ":" ++ path) |}
  end.

Definition pullRequest : Page := {|
  selection := []; document := ScriptedDom.emptyAt ScriptedDom.pullRequestPage;
  rest := restApi; replies := []; shown := []
|}.

Definition sampleIssues : list JValue :=
  [JObj [(lit "severity", JStr (lit "critical"))];
   JObj [(lit "severity", JStr (lit "warning"))];
   JObj [(lit "severity", JStr (lit "blocker"))];
   JObj [(lit "line", JNum false 3 0)];
   JObj [(lit "severity", JStr (lit "Critical"))];
   JStr (lit "not an object")].

Definition noStats : Stats :=
  {| files := 1; critical := 0; warnings := 0; suggestions := 0 |}.

End Scripted.

(* ================================================================== *)
(** * What the parser returns for a reply that is JSON *)
(* ================================================================== *)

(** What the parser makes of a value it parsed in its [try] block. *)
Definition resultOf (parsed : JValue) : ReviewResult :=
  match parsed with
  | JObj fields =>
      {| summary := match lookup (lit "summary") fields with
                    | Some s => js_or s JNull
                    | None => JNull
                    end;
         issues := match lookup (lit "issues") fields with
                   | Some (JArr issueList) => JArr issueList
                   | _ => JArr []
                   end |}
  | JArr issueList => {| summary := JNull; issues := JArr issueList |}
  | _ => emptyResult
  end.

(* ================================================================== *)
(** * What a pass leaves alone *)
(* ================================================================== *)

Section Frames.
Context {E : Engine} {W : Type} {B : Browser W}.

(** Two states that differ in what was done and in the world only: the
    busy flag, the settings and the stored statistics are the same. *)
Definition sameScript (st st' : State W) : Prop :=
  isReviewing st' = isReviewing st
  /\ currentSettings st' = currentSettings st
  /\ reviewStats st' = reviewStats st
  /\ exists log, trace st' = trace st ++ log.

(** A computation that leaves the variables of the script and the stored
    statistics alone, whether it returns or throws. *)
Definition frames {A : Type} (m : Script W A) : Prop :=
  forall st, sameScript st (snd (m st)).

End Frames.

(* ================================================================== *)
(** * What the fetcher lets through *)
(* ================================================================== *)

(** [binaryExtensions.some(ext => path.toLowerCase().endsWith(ext))] *)
Definition isBinaryPath (path : jstring) : bool :=
  existsb (fun ext => endsWith ext (toLowerCase path)) binaryExtensions.

(** What the fetcher lets through: a record of the REST API for a change
    that is no deletion and a path that has no binary extension, without
    original content when the change is an addition. *)
Definition reviewable (diff : ChangeRecord) : Prop :=
  exists d,
    diff = FromApi d
    /\ is_string (changeType d) (lit "delete") = false
    /\ truthy (changeType d) = true
    /\ apiFilename d <> []
    /\ isBinaryPath (apiFilename d) = false
    /\ (is_string (changeType d) (lit "add") = true -> originalContent d = []).

(** The [filename] of a record. *)
Definition recordName (diff : ChangeRecord) : jstring :=
  match diff with
  | FromApi d => apiFilename d
  | FromPage d => filename d
  end.

(** [(change.item || change).path] of a change entry, when it is a
    string. *)
Definition changePath (change : JValue) : list jstring :=
  match get_prop change (lit "item") with
  | Ok changeItem =>
      match get_prop (js_or changeItem change) (lit "path") with
      | Ok (JStr path) => [path]
      | _ => []
      end
  | Throw _ => []
  end.

(** [picked] keeps some of the elements of [all], in their order. *)
Inductive Subsequence {A : Type} : list A -> list A -> Prop :=
| SubNil : Subsequence [] []
| SubSkip (x : A) (picked all : list A) :
    Subsequence picked all -> Subsequence picked (x :: all)
| SubKeep (x : A) (picked all : list A) :
    Subsequence picked all -> Subsequence (x :: picked) (x :: all).

(** A reply of the documented shape: the text of the first part of the
    first candidate is [text]. *)
Definition firstPartText (data : JValue) (text : JValue) : Prop :=
  exists fields candidate candidates content part parts,
    data = JObj fields
    /\ lookup (lit "candidates") fields
       = Some (JArr (JObj candidate :: candidates))
    /\ lookup (lit "content") candidate = Some (JObj content)
    /\ lookup (lit "parts") content = Some (JArr (JObj part :: parts))
    /\ lookup (lit "text") part = Some text.

(* ================================================================== *)
(** * The popup and the stored settings *)
(* ================================================================== *)

Module Popup.

(** The controls of the popup that hold settings. *)
Record Form : Type := {
  apiKeyInput : jstring;
  modelSelect : jstring;
  reviewDepthSelect : jstring;
  checkBugs : bool;
  checkSecurity : bool;
  checkPerformance : bool;
  checkStyle : bool;
  checkNaming : bool;
  checkDocs : bool;
  checkTests : bool
}.

(** [chrome.storage.sync]: the items by key. *)
Definition Storage := list (jstring * JValue).

(** [chrome.storage.sync.set(items)] *)
Definition set (items : list (string * JValue)) (store : Storage) : Storage :=
  fold_left (fun s item => obj_set (lit (fst item)) (snd item) s) items store.

(** [settings.key] on what [chrome.storage.sync.get] answers. *)
Definition get (store : Storage) (key : string) : JValue :=
  match lookup (lit key) store with
  | Some v => v
  | None => JUndefined
  end.

(** [saveSettings()] *)
Definition saveSettings (form : Form) (store : Storage) : Storage :=
  set [("geminiApiKey", JStr (trim (apiKeyInput form)));
       ("model", JStr (modelSelect form));
       ("reviewDepth", JStr (reviewDepthSelect form));
       ("checkBugs", JBool (checkBugs form));
       ("checkSecurity", JBool (checkSecurity form));
       ("checkPerformance", JBool (checkPerformance form));
       ("checkStyle", JBool (checkStyle form));
       ("checkNaming", JBool (checkNaming form));
       ("checkDocs", JBool (checkDocs form));
       ("checkTests", JBool (checkTests form))]
      store.

(** The defaults the service worker stores when the extension is
    installed. *)
Definition installDefaults (store : Storage) : Storage :=
  set [("model", JStr (lit "gemini-2.5-flash-lite"));
       ("reviewDepth", JStr (lit "standard"));
       ("checkBugs", JBool true);
       ("checkSecurity", JBool true);
       ("checkPerformance", JBool true);
       ("checkStyle", JBool true);
       ("checkNaming", JBool false);
       ("checkDocs", JBool false);
       ("checkTests", JBool false)]
      store.

(** [v !== false] *)
Definition notFalse (v : JValue) : JValue :=
  match v with
  | JBool false => JBool false
  | _ => JBool true
  end.

(** The [settings] of the [startReview] message that [triggerReview]
    sends, for the key read from the form and the stored items. *)
Definition reviewSettings (apiKey : jstring) (store : Storage) : JValue :=
  JObj [(lit "apiKey", JStr apiKey);
        (lit "model",
         js_or (get store "model") (JStr (lit "gemini-2.5-flash-lite")));
        (lit "reviewDepth",
         js_or (get store "reviewDepth") (JStr (lit "standard")));
        (lit "focusAreas",
         JObj [(lit "bugs", notFalse (get store "checkBugs"));
               (lit "security", notFalse (get store "checkSecurity"));
               (lit "performance", notFalse (get store "checkPerformance"));
               (lit "style", notFalse (get store "checkStyle"));
               (lit "naming", js_or (get store "checkNaming") (JBool false));
               (lit "docs", js_or (get store "checkDocs") (JBool false));
               (lit "tests", js_or (get store "checkTests") (JBool false))])].

(** [message.replace(/^[^\s]+\s/, '')] of [updateStatus]: the run of code
    units that are no white space at the head, when it is not empty and
    white space follows it, goes with the one white space after it. *)
Fixpoint stripIconFrom (seen : bool) (rest message : jstring) : jstring :=
  match rest with
  | [] => message
  | c :: rest' =>
      if isWhiteSpace c then (if seen then rest' else message)
      else stripIconFrom true rest' message
  end.

Definition stripIcon (message : jstring) : jstring :=
  stripIconFrom false message message.

End Popup.

(** The settings a form asks for, as [triggerReview] would send them. *)
Definition formSettings (form : Popup.Form) : JValue :=
  JObj [(lit "apiKey", JStr (trim (Popup.apiKeyInput form)));
        (lit "model",
         js_or (JStr (Popup.modelSelect form))
               (JStr (lit "gemini-2.5-flash-lite")));
        (lit "reviewDepth",
         js_or (JStr (Popup.reviewDepthSelect form)) (JStr (lit "standard")));
        (lit "focusAreas",
         JObj [(lit "bugs", JBool (Popup.checkBugs form));
               (lit "security", JBool (Popup.checkSecurity form));
               (lit "performance", JBool (Popup.checkPerformance form));
               (lit "style", JBool (Popup.checkStyle form));
               (lit "naming", JBool (Popup.checkNaming form));
               (lit "docs", JBool (Popup.checkDocs form));
               (lit "tests", JBool (Popup.checkTests form))])].

(** None of the keys of the settings is stored. *)
Definition unset (store : Popup.Storage) : Prop :=
  Forall (fun key => lookup (lit key) store = None)
         ["model"; "reviewDepth"; "checkBugs"; "checkSecurity";
          "checkPerformance"; "checkStyle"; "checkNaming"; "checkDocs";
          "checkTests"].

(* ================================================================== *)
(** * The filters of the issues panel *)
(* ================================================================== *)

Module Panel.

(** An element of class [ai-issue]: its [dataset.severity], when it has
    one, and its [style.display]. *)
Record IssueNode : Type := {
  severity : option jstring;
  issueDisplay : jstring
}.

(** A button of class [ai-filter-btn]: its [dataset.filter] and its
    text. *)
Record FilterButton : Type := {
  filter : option jstring;
  label : jstring
}.

(** What the two functions read and write: whether the panel is in the
    document, the [style.display] of each element of class [ai-summary],
    the elements of class [ai-issue], and the filter buttons of the
    panel.  No element is of both classes. *)
Record Page : Type := {
  hasPanel : bool;
  summaryDisplays : list jstring;
  issueNodes : list IssueNode;
  buttons : list FilterButton
}.

(** [a === b] on two values that are a string or [undefined]. *)
Definition same (a b : option jstring) : bool :=
  match a, b with
  | Some x, Some y => str_eqb x y
  | None, None => true
  | _, _ => false
  end.

Definition named (word : string) (v : option jstring) : bool :=
  same v (Some (lit word)).

(** The three counters after the [forEach] of [updateFilterCounts]. *)
Fixpoint countSeverities (issues : list IssueNode)
  (criticalCount warningCount suggestionCount : nat) : nat * nat * nat :=
  match issues with
  | [] => (criticalCount, warningCount, suggestionCount)
  | issue :: rest =>
      if named "critical" (severity issue)
      then countSeverities rest (S criticalCount) warningCount suggestionCount
      else if named "warning" (severity issue)
      then countSeverities rest criticalCount (S warningCount) suggestionCount
      else if named "suggestion" (severity issue)
      then countSeverities rest criticalCount warningCount (S suggestionCount)
      else countSeverities rest criticalCount warningCount suggestionCount
  end.

Definition counter (name : string) (n : nat) : jstring :=
  lit name ++ lit " (" ++ show_nat n ++ lit ")".

(** The callback of the [forEach] over the buttons: the text of a button
    whose filter is one of the five words is set, with the count. *)
Definition relabel (summaryCount totalCount : nat) (counts : nat * nat * nat)
  (btn : FilterButton) : FilterButton :=
  let '(criticalCount, warningCount, suggestionCount) := counts in
  {| filter := filter btn;
     label :=
       if named "all" (filter btn) then counter "All" totalCount
       else if named "summary" (filter btn)
       then counter "Summary" summaryCount
       else if named "critical" (filter btn)
       then counter "Critical" criticalCount
       else if named "warning" (filter btn)
       then counter "Warning" warningCount
       else if named "suggestion" (filter btn)
       then counter "Suggestions" suggestionCount
       else label btn |}.

(** [updateFilterCounts()] *)
Definition updateFilterCounts (page : Page) : Page :=
  if negb (hasPanel page) then page
  else
    let counts := countSeverities (issueNodes page) 0 0 0 in
    let summaryCount := List.length (summaryDisplays page) in
    let totalCount := summaryCount + List.length (issueNodes page) in
    {| hasPanel := hasPanel page;
       summaryDisplays := summaryDisplays page;
       issueNodes := issueNodes page;
       buttons := map (relabel summaryCount totalCount counts)
                      (buttons page) |}.

Definition withDisplay (value : string) (issue : IssueNode) : IssueNode :=
  {| severity := severity issue; issueDisplay := lit value |}.

(** [filterIssues(filter)] *)
Definition filterIssues (chosen : option jstring) (page : Page) : Page :=
  let shown :=
    if named "all" chosen
    then {| hasPanel := hasPanel page;
            summaryDisplays := map (fun _ => lit "block") (summaryDisplays page);
            issueNodes := map (withDisplay "block") (issueNodes page);
            buttons := buttons page |}
    else if named "summary" chosen
    then {| hasPanel := hasPanel page;
            summaryDisplays := map (fun _ => lit "block") (summaryDisplays page);
            issueNodes := map (withDisplay "none") (issueNodes page);
            buttons := buttons page |}
    else {| hasPanel := hasPanel page;
            summaryDisplays := map (fun _ => lit "none") (summaryDisplays page);
            issueNodes :=
              map (fun issue =>
                     if same (severity issue) chosen
                     then withDisplay "block" issue
                     else withDisplay "none" issue)
                  (issueNodes page);
            buttons := buttons page |} in
  updateFilterCounts shown.

End Panel.

(** The elements a severity filter can show: those whose severity is one
    of the three words. *)
Definition classified (issue : Panel.IssueNode) : bool :=
  (Panel.named "critical" (Panel.severity issue)
   || Panel.named "warning" (Panel.severity issue)
   || Panel.named "suggestion" (Panel.severity issue))%bool.

(* ------------------------------------------------------------------ *)
(** ** What the strategies return *)

(** A text that [trim] leaves as it is and that is not empty. *)
Definition nonBlank (s : jstring) : Prop := s <> [] /\ trim s = s.

(** The record of a DOM strategy: a name, content that is not blank, the
    element it was read from, and no selection mark. *)
Definition scanned (diff : PageDiff) : Prop :=
  filename diff <> []
  /\ nonBlank (content diff)
  /\ isSelection diff = false
  /\ element diff <> None.

(** Entries whose line numbers grow and whose texts are not blank. *)
Definition ascending (entries : list LineEntry) : Prop :=
  StronglySorted lt (map line entries)
  /\ Forall (fun a => nonBlank (lineContent a)) entries.

Section DomTable.
Context {D : Type} {P : DomScan.Dom D}.

(** The six strategies that scan the DOM, in the order of the chain. *)
Definition pageStrategies (d : D) : list (Result (list PageDiff)) :=
  [DomScan.extractFromSideBySideView d;
   DomScan.extractFromModernViewer d;
   DomScan.extractFromFileDiffContainers d;
   DomScan.extractFromMonacoEditor d;
   DomScan.extractFromGenericCodeBlocks d;
   DomScan.extractFromVisibleDiffArea d].
End DomTable.

Section DomEntries.

Context {D : Type} {P : DomScan.Dom D}.
Variable d : D.

(** An entry pushed for a line of [lines] that passes [test]: its number
    is the position of the line, counted from one, and its text the
    trimmed text of the line. *)
Definition entryOf (lines : list Element) (test : Element -> bool)
  (a : LineEntry) : Prop :=
  exists l,
    nth_error lines (pred (line a)) = Some l
    /\ 1 <= line a
    /\ lineContent a = DomScan.trimmedText d l
    /\ test l = true.

(** The two tests of [extractDiffFromContainer] on a line: whether the
    line is pushed as an addition, and whether it is pushed as a deletion.
    A line one of whose class names cannot be lowered is pushed as
    neither. *)
Definition addedLine (l : Element) : bool :=
  match DomScan.combinedClassOf d l with
  | Ok combinedClass => DomScan.isAddition d combinedClass l
  | Throw _ => false
  end.

Definition deletedLine (l : Element) : bool :=
  match DomScan.combinedClassOf d l with
  | Ok combinedClass =>
      (negb (DomScan.isAddition d combinedClass l)
       && DomScan.isDeletion d combinedClass l)%bool
  | Throw _ => false
  end.

(** What the scan of the lines keeps true of what it has pushed: both
    lists ascend, an added entry is a line that passes the addition test,
    a deleted entry is a line that fails it and passes the deletion
    test. *)
Definition scanInvariant (lines : list Element) (index : nat)
  (acc : DomScan.LineScan) : Prop :=
  ascending (DomScan.scanAdditions acc)
  /\ ascending (DomScan.scanDeletions acc)
  /\ Forall (fun a => line a <= index)
            (DomScan.scanAdditions acc ++ DomScan.scanDeletions acc)
  /\ Forall (entryOf lines addedLine) (DomScan.scanAdditions acc)
  /\ Forall (entryOf lines deletedLine) (DomScan.scanDeletions acc).

(** An exception of a class name that has no [toLowerCase]: a
    [TypeError], on a page with an SVG element. *)
Definition classThrown (e : exn) : Prop :=
  kind e = TypeError /\ exists el, DomScan.className d el = DomScan.ClassAnimated.

(** An exception of the file name: that of [decodeURIComponent] on the
    [path] parameter of the address, on a page where no file name element
    has text. *)
Definition nameThrown (e : exn) : Prop :=
  DomScan.getCurrentFileName d = Throw e
  /\ DomScan.firstFileName d DomScan.fileNameSelectors = None
  /\ exists captured,
       DomScan.matchPathParam (DomScan.href d) = Some captured
       /\ DomScan.decodeURIComponent captured = Throw e.

(** What the six strategies throw, before the first is traced to its
    source. *)
Definition thrown (e : exn) : Prop :=
  DomScan.getCurrentFileName d = Throw e \/ classThrown e.

(** The selectors before the first one whose match has text: each of them
    matches nothing, or an element without text. *)
Definition withoutText (selectors : list jstring) : Prop :=
  Forall (fun selector =>
            match DomScan.querySelector d None selector with
            | Some el => DomScan.trimmedText d el = []
            | None => True
            end) selectors.

End DomEntries.

(** A path segment of an address: not empty, and without a slash. *)
Definition isSegment (s : jstring) : Prop :=
  s <> [] /\ forallb (fun c => negb (N.eqb c 47)) s = true.

(** A pull request number: decimal digits, at least one. *)
Definition isNumber (s : jstring) : Prop :=
  s <> [] /\ forallb JSON.is_digit s = true.

(** What follows the number does not go on with a digit. *)
Definition endsNumber (rest : jstring) : Prop :=
  match rest with
  | [] => True
  | c :: _ => JSON.is_digit c = false
  end.

(** The path of a pull request page, after the host. *)
Definition pullRequestAddress (project repo prId rest : jstring) : jstring :=
  project ++ lit "/_git/" ++ repo ++ lit "/pullrequest/" ++ prId ++ rest.


(* ================================================================== *)
(** * More scripted worlds *)
(* ================================================================== *)

(** Worlds and values for the examples of the later sections. *)
Module Samples.

(** The page with two blocks of code when the endpoint of the model
    answers with an error. *)
Definition offline : Scripted.Page := {|
  Scripted.selection := []; Scripted.document := ScriptedDom.twoBlocks;
  Scripted.rest := Scripted.noNetwork;
  Scripted.replies := []; Scripted.shown := []
|}.

(** The same page when the text of the reply is the number 42. *)
Definition numberReply : Scripted.Page := {|
  Scripted.selection := []; Scripted.document := ScriptedDom.twoBlocks;
  Scripted.rest := Scripted.noNetwork;
  Scripted.replies := [Scripted.modelReply (JNum false 42 0)];
  Scripted.shown := []
|}.

(** A page whose address has a malformed [path], and a page with an SVG
    line in a file container. *)
Definition malformedPage : Scripted.Page := {|
  Scripted.selection := []; Scripted.document := ScriptedDom.malformed;
  Scripted.rest := Scripted.noNetwork;
  Scripted.replies := []; Scripted.shown := []
|}.

Definition drawingPage : Scripted.Page := {|
  Scripted.selection := []; Scripted.document := ScriptedDom.drawing;
  Scripted.rest := Scripted.noNetwork;
  Scripted.replies := []; Scripted.shown := []
|}.

(** A script that stored statistics in an earlier pass. *)
Definition reviewedBefore (p : Scripted.Page) : State Scripted.Page :=
  mkScript false None (Some Scripted.noStats) [] p.

(** The change entries the REST API of the pull request page lists. *)
Definition changeEntries : list JValue :=
  match Scripted.restApi (GetChanges Scripted.contoso JUndefined) with
  | Ok response =>
      match json response with
      | Ok (JObj fields) =>
          match lookup (lit "changeEntries") fields with
          | Some (JArr entries) => entries
          | _ => []
          end
      | _ => []
      end
  | Throw _ => []
  end.

(** A network that gives the same response to every request. *)
Definition always (response : Response)
  : jstring -> JValue -> unit -> Result Response * unit :=
  fun _ _ w => (Ok response, w).

Definition quotaExceeded : Response := {|
  ok := false; status := 429;
  json := JSON.parse (litq "{~error~:{~code~:429,~message~:~Quota exceeded~}}");
  text := Ok []
|}.

Definition twoParts : Response := {|
  ok := true; status := 200;
  json := JSON.parse
            (litq "{~candidates~:[{~content~:{~parts~:[{~text~:~[]~},{~text~:~more~}]}}]}");
  text := Ok []
|}.

Definition codeData : JValue := JObj [(lit "prompt", JStr (lit "Review this"))].

Definition workerSettings : JValue :=
  JObj [(lit "apiKey", JStr (lit "key"));
        (lit "model", JStr (lit "gemini-2.5-flash-lite"))].

(** A store that holds the key alone. *)
Definition keyOnly : Popup.Storage := [(lit "geminiApiKey", JStr (lit "key"))].

Definition issueNode (severity : option string) : Panel.IssueNode :=
  {| Panel.severity := option_map lit severity;
     Panel.issueDisplay := lit "block" |}.

Definition filterButton (name text : string) : Panel.FilterButton :=
  {| Panel.filter := Some (lit name); Panel.label := lit text |}.

(** A panel with one summary and four issues, one of them with a severity
    that is none of the three words and one without a severity. *)
Definition panelPage : Panel.Page := {|
  Panel.hasPanel := true;
  Panel.summaryDisplays := [lit "block"];
  Panel.issueNodes :=
    [issueNode (Some "critical"); issueNode (Some "blocker");
     issueNode None; issueNode (Some "warning")];
  Panel.buttons :=
    [filterButton "all" "All"; filterButton "summary" "Summary";
     filterButton "critical" "Critical"; filterButton "warning" "Warning";
     filterButton "suggestion" "Suggestions"]
|}.

End Samples.
(* ================================================================== *)
(** * Facts about strings and the JSON automaton *)
(* ================================================================== *)

Ltac ntests :=
  repeat match goal with
         | |- context [N.eqb ?a ?b] => destruct (N.eqb_spec a b); try lia
         | |- context [N.leb ?a ?b] => destruct (N.leb_spec a b); try lia
         | |- context [N.ltb ?a ?b] => destruct (N.ltb_spec a b); try lia
         end.

Lemma str_eqb_eq a : forall b, str_eqb a b = true <-> a = b.
Proof.
  induction a as [|x a IH]; intros [|y b]; simpl; split; intros H;
    try discriminate; try reflexivity.
  - apply andb_true_iff in H. destruct H as [Hx Ha].
    apply N.eqb_eq in Hx. apply IH in Ha. congruence.
  - inversion H; subst. rewrite N.eqb_refl. simpl. apply IH. reflexivity.
Qed.

Lemma match_span_head opening closing s m :
  match_span opening closing s = Some m -> exists t, m = opening :: t.
Proof.
  unfold match_span.
  destruct (dropWhile _ s) as [|c body]; [discriminate|].
  destruct (dropWhile _ (rev body)); [discriminate|].
  intros H; inversion H; eauto.
Qed.

Section JsonFacts.

Import JSON.

Lemma run_app st a b :
  run st (a ++ b)
  = match run st a with Some st' => run st' b | None => None end.
Proof.
  revert st; induction a as [|c a IH]; intros st; simpl; [reflexivity|].
  destruct (step st c); [apply IH | reflexivity].
Qed.

(** *** A text that opens with a bracket is an array *)

Lemma bottomArray_push f stk : bottomArray stk -> bottomArray (f :: stk).
Proof. intros (pre & es & ->). exists (f :: pre), es. reflexivity. Qed.

Lemma bottomArray_nil : ~ bottomArray [].
Proof. intros (pre & es & H). destruct pre; discriminate. Qed.

Lemma bottomArray_pop f stk :
  bottomArray (f :: stk) -> stk = [] \/ bottomArray stk.
Proof.
  intros (pre & es & H). destruct pre as [|g pre]; simpl in H.
  - inversion H; auto.
  - inversion H; subst. right. exists pre, es. reflexivity.
Qed.

Lemma bottomArray_under_object fields key stk :
  bottomArray (FObj fields key :: stk) -> bottomArray stk.
Proof.
  intros (pre & es & H).
  destruct pre as [|g pre]; simpl in H; inversion H; subst.
  exists pre, es. reflexivity.
Qed.

Lemma bottomArray_replace x y stk :
  bottomArray (FArr x :: stk) -> bottomArray (FArr y :: stk).
Proof.
  intros (pre & es & H).
  destruct pre as [|g pre]; simpl in H; inversion H; subst.
  - exists [], y. reflexivity.
  - exists (FArr y :: pre), es. reflexivity.
Qed.

Lemma deliver_array v stk : bottomArray stk -> arrayText (deliver v stk).
Proof.
  intros H. destruct stk as [|[x|fields key] stk]; unfold arrayText; simpl.
  - destruct (bottomArray_nil H).
  - eapply bottomArray_replace; eassumption.
  - eapply bottomArray_under_object; eassumption.
Qed.

Lemma close_array x stk l :
  bottomArray (FArr x :: stk) -> arrayText (deliver (JArr l) stk).
Proof.
  intros H. destruct (bottomArray_pop H) as [-> | H'].
  - unfold arrayText; simpl; eauto.
  - apply deliver_array; assumption.
Qed.

Lemma start_value_array c stk st :
  bottomArray stk -> start_value c stk = Some st -> arrayText st.
Proof.
  unfold start_value, arrayText. intros H.
  repeat match goal with
         | |- context [if ?b then _ else _] => destruct b
         end; intros Hs; inversion Hs; subst; simpl;
    auto using bottomArray_push.
Qed.

Lemma step_token_array st c st' :
  arrayText st -> step_token st c = Some st' -> arrayText st'.
Proof.
  destruct st as [m stk]. unfold step_token, arrayText at 1. simpl.
  intros Hinv Hstep.
  destruct m; simpl in *;
    repeat match goal with
           | H : (if ?b then _ else _) = Some _ |- _ => destruct b eqn:?
           | H : match ?x with _ => _ end = Some _ |- _ => destruct x eqn:?
           end;
    try discriminate; inversion Hstep; subst; clear Hstep;
    try assumption;
    first [ solve [eauto using start_value_array, deliver_array, close_array]
          | unfold arrayText; simpl; eauto using bottomArray_push ].
Qed.

Lemma step_array st c st' :
  arrayText st -> step st c = Some st' -> arrayText st'.
Proof.
  unfold step. destruct (mode st) eqn:Hm;
    try (apply step_token_array).
  intros Hinv. unfold arrayText in Hinv. rewrite Hm in Hinv.
  destruct (num_step p a c) as [[p' a']|].
  - intros H; inversion H; subst. unfold arrayText; simpl. assumption.
  - destruct (num_complete p); [|discriminate].
    apply step_token_array, deliver_array; assumption.
Qed.

Lemma run_array text : forall st st',
  arrayText st -> run st text = Some st' -> arrayText st'.
Proof.
  induction text as [|c text IH]; simpl; intros st st' Hinv Hrun.
  - inversion Hrun; subst; assumption.
  - destruct (step st c) as [st1|] eqn:Hs; [|discriminate].
    eauto using step_array.
Qed.

Lemma finish_array st v :
  arrayText st -> finish st = Some v -> exists l, v = JArr l.
Proof.
  unfold arrayText, finish. destruct (mode st); try discriminate.
  - intros H. destruct (stack st); [destruct (bottomArray_nil H)|discriminate].
  - intros H Hv; inversion Hv; subst; assumption.
Qed.

Lemma accept_bracket text v :
  accept (91%N :: text) = Some v -> exists l, v = JArr l.
Proof.
  unfold accept. simpl.
  destruct (run _ text) as [st|] eqn:Hrun; [|discriminate].
  apply finish_array. eapply run_array; [|eassumption].
  unfold arrayText; simpl. exists [], []. reflexivity.
Qed.

(** *** White space and backticks around an accepted text *)

Lemma isWhiteSpace_cases c :
  isWhiteSpace c = true ->
  (c = 9 \/ c = 10 \/ c = 11 \/ c = 12 \/ c = 13 \/ c = 32 \/ c = 160
   \/ c = 5760 \/ (8192 <= c <= 8202) \/ c = 8232 \/ c = 8233 \/ c = 8239
   \/ c = 8287 \/ c = 12288 \/ c = 65279)%N.
Proof.
  unfold isWhiteSpace.
  rewrite ?orb_true_iff, ?andb_true_iff, ?N.eqb_eq, ?N.leb_le. tauto.
Qed.

Lemma plainUnit_cases c :
  plainUnit c = false ->
  (c = 96 \/ c = 9 \/ c = 10 \/ c = 11 \/ c = 12 \/ c = 13 \/ c = 32
   \/ c = 160 \/ c = 5760 \/ (8192 <= c <= 8202) \/ c = 8232 \/ c = 8233
   \/ c = 8239 \/ c = 8287 \/ c = 12288 \/ c = 65279)%N.
Proof.
  unfold plainUnit. rewrite andb_false_iff, !negb_false_iff, N.eqb_eq.
  intros [H | H]; [apply isWhiteSpace_cases in H; tauto | tauto].
Qed.

Lemma start_value_blank c stk : plainUnit c = false -> start_value c stk = None.
Proof.
  intros H; apply plainUnit_cases in H.
  unfold start_value, is_digit, dquote. ntests; reflexivity.
Qed.

Lemma num_step_blank p a c : plainUnit c = false -> num_step p a c = None.
Proof.
  intros H; apply plainUnit_cases in H.
  unfold num_step, is_digit, is_e. destruct p; ntests; reflexivity.
Qed.

Lemma escape_value_blank c : plainUnit c = false -> escape_value c = None.
Proof.
  intros H; apply plainUnit_cases in H.
  unfold escape_value, dquote. ntests; reflexivity.
Qed.

Lemma hex_value_blank c : plainUnit c = false -> hex_value c = None.
Proof.
  intros H; apply plainUnit_cases in H.
  unfold hex_value, is_digit. ntests; reflexivity.
Qed.

Lemma punctuation_blank c :
  plainUnit c = false ->
  (N.eqb c 93 = false /\ N.eqb c 44 = false /\ N.eqb c dquote = false
   /\ N.eqb c 125 = false /\ N.eqb c 58 = false /\ N.eqb c 92 = false
   /\ N.eqb c 117 = false)%N.
Proof.
  intros H; apply plainUnit_cases in H. unfold dquote.
  repeat split; ntests; reflexivity.
Qed.

(** After a value is delivered, the end of the text is acceptable only at
    the top level. *)
Lemma finish_deliver v stk w :
  finish (deliver v stk) = Some w -> stk = [] /\ w = v.
Proof.
  destruct stk as [|[x|fields key] stk]; simpl; try discriminate.
  intros H; inversion H; auto.
Qed.

(** White space at the end of the text leaves what the text stands for
    unchanged; a backtick there is never accepted. *)
Lemma step_token_blank st c st' v :
  literalClean st -> plainUnit c = false ->
  step_token st c = Some st' -> finish st' = Some v -> finish st = Some v.
Proof.
  intros Hclean Hc.
  destruct (punctuation_blank c Hc) as (P1 & P2 & P3 & P4 & P5 & P6 & P7).
  destruct st as [m stk]. unfold step_token, literalClean in *. simpl in *.
  destruct m as [ | | | |f|f k|f|k acc|k acc|k acc todo code|p a|rest w|w];
    simpl;
    rewrite ?P1, ?P2, ?P3, ?P4, ?P5, ?P6, ?P7,
            ?(start_value_blank c stk Hc), ?(escape_value_blank c Hc),
            ?(hex_value_blank c Hc);
    try match goal with
        | |- context [is_ws c] => destruct (is_ws c)
        end;
    try (intros H; inversion H; subst; clear H; tauto);
    try discriminate.
  - destruct (N.ltb c 32); [discriminate|].
    intros H; inversion H; subst. discriminate.
  - destruct rest as [|x rest]; [discriminate|].
    simpl in Hclean. apply andb_true_iff in Hclean. destruct Hclean as [Hx _].
    destruct (N.eqb_spec c x); [subst; congruence | discriminate].
Qed.

Lemma deliver_clean v stk : literalClean (deliver v stk).
Proof. destruct stk as [|[x|fields key] stk]; exact I. Qed.

Lemma step_blank st c st' v :
  literalClean st -> plainUnit c = false ->
  step st c = Some st' -> finish st' = Some v -> finish st = Some v.
Proof.
  intros Hclean Hc. unfold step.
  destruct (mode st) eqn:Hm; try (apply step_token_blank; assumption).
  rewrite (num_step_blank p a c Hc).
  destruct (num_complete p) eqn:Hp; [|discriminate].
  intros Hs Hf.
  assert (Hd : finish (deliver (num_value a) (stack st)) = Some v).
  { eapply step_token_blank; try eassumption. apply deliver_clean. }
  apply finish_deliver in Hd. destruct Hd as [Hstk ->].
  unfold finish. rewrite Hm, Hstk, Hp. reflexivity.
Qed.

Lemma start_value_clean c stk st :
  start_value c stk = Some st -> literalClean st.
Proof.
  unfold start_value, literalClean.
  repeat match goal with
         | |- context [if ?b then _ else _] => destruct b
         end; intros H; inversion H; subst; simpl; try exact I; reflexivity.
Qed.

Lemma step_token_clean st c st' :
  literalClean st -> step_token st c = Some st' -> literalClean st'.
Proof.
  destruct st as [m stk]. unfold step_token, literalClean at 1. simpl.
  intros Hinv Hstep.
  destruct m; simpl in *;
    repeat match goal with
           | H : (if ?b then _ else _) = Some _ |- _ => destruct b eqn:?
           | H : match ?x with _ => _ end = Some _ |- _ => destruct x eqn:?
           end;
    try discriminate; inversion Hstep; subst; clear Hstep;
    try first [ solve [eauto using start_value_clean, deliver_clean]
              | exact I ].
  - unfold literalClean; simpl. simpl in Hinv.
    apply andb_true_iff in Hinv. tauto.
Qed.

Lemma step_clean st c st' :
  literalClean st -> step st c = Some st' -> literalClean st'.
Proof.
  unfold step. destruct (mode st) eqn:Hm; try (apply step_token_clean).
  intros _. destruct (num_step p a c) as [[p' a']|].
  - intros H; inversion H; exact I.
  - destruct (num_complete p); [|discriminate].
    apply step_token_clean, deliver_clean.
Qed.

Lemma run_clean text : forall st st',
  literalClean st -> run st text = Some st' -> literalClean st'.
Proof.
  induction text as [|c text IH]; simpl; intros st st' Hinv Hrun.
  - inversion Hrun; subst; assumption.
  - destruct (step st c) as [st1|] eqn:Hs; [|discriminate].
    eauto using step_clean.
Qed.

Lemma accept_head_blank c text v :
  plainUnit c = false -> accept (c :: text) = Some v ->
  is_ws c = true /\ accept text = Some v.
Proof.
  intros Hc. unfold accept. simpl. unfold step, step_token. simpl.
  rewrite (start_value_blank c [] Hc).
  destruct (is_ws c); [auto | discriminate].
Qed.

Lemma accept_last_blank text c v :
  plainUnit c = false -> accept (text ++ [c]) = Some v ->
  accept text = Some v.
Proof.
  intros Hc. unfold accept. rewrite run_app.
  destruct (run init text) as [st|] eqn:Hrun; [|discriminate].
  simpl. destruct (step st c) as [st'|] eqn:Hs; [|discriminate].
  eapply step_blank; try eassumption.
  eapply run_clean; [|eassumption]. exact I.
Qed.

Lemma step_token_backtick st st' :
  literalClean st -> step_token st 96%N = Some st' -> finish st' = None.
Proof.
  destruct st as [m stk].
  destruct m as [ | | | |f|f k|f|k acc|k acc|k acc todo code|p a|rest w|w];
    unfold step_token, literalClean; cbn [mode stack]; intros Hclean Hs;
    try solve [simpl in Hs; discriminate].
  - simpl in Hs. inversion Hs; reflexivity.
  - destruct rest as [|x rest]; [discriminate|].
    simpl in Hclean. apply andb_true_iff in Hclean. destruct Hclean as [Hx _].
    destruct (N.eqb_spec 96 x) as [<-|_]; discriminate.
Qed.

Lemma step_backtick st st' :
  literalClean st -> step st 96%N = Some st' -> finish st' = None.
Proof.
  intros Hclean. unfold step.
  destruct (mode st) eqn:Hm; try (apply step_token_backtick; assumption).
  rewrite num_step_blank by reflexivity.
  destruct (num_complete p); [|discriminate].
  apply step_token_backtick, deliver_clean.
Qed.

Lemma accept_last_backtick text v : accept (text ++ [96%N]) = Some v -> False.
Proof.
  unfold accept. rewrite run_app.
  destruct (run init text) as [st|] eqn:Hrun; [|discriminate].
  simpl. destruct (step st 96) as [st'|] eqn:Hs; [|discriminate].
  intros Hf. erewrite step_backtick in Hf; [discriminate| |eassumption].
  eapply run_clean; [|eassumption]. exact I.
Qed.

Lemma accept_trimStart s v : accept s = Some v -> accept (trimStart s) = Some v.
Proof.
  unfold trimStart. induction s as [|c s IH]; simpl; [auto|].
  destruct (isWhiteSpace c) eqn:Hc; [|auto].
  intros H. apply accept_head_blank in H.
  - apply IH, H.
  - unfold plainUnit. rewrite Hc. reflexivity.
Qed.

Lemma accept_dropWhile_rev r v :
  accept (rev r) = Some v -> accept (rev (dropWhile isWhiteSpace r)) = Some v.
Proof.
  induction r as [|c r IH]; simpl; [auto|].
  destruct (isWhiteSpace c) eqn:Hc; [|auto].
  intros H. apply IH. eapply accept_last_blank; [|eassumption].
  unfold plainUnit. rewrite Hc. reflexivity.
Qed.

Lemma accept_trim s v : accept s = Some v -> accept (trim s) = Some v.
Proof.
  intros H. unfold trim, trimEnd. apply accept_dropWhile_rev.
  rewrite rev_involutive. apply accept_trimStart, H.
Qed.

Lemma startsWith_backtick p s v :
  accept s = Some v -> startsWith (96%N :: p) s = false.
Proof.
  destruct s as [|c s]; [reflexivity|]. cbn [startsWith].
  destruct (N.eqb_spec 96 c); [subst|reflexivity].
  intros H. apply accept_head_blank in H; [|reflexivity].
  destruct H; discriminate.
Qed.

Lemma endsWith_backtick p s v :
  accept s = Some v -> endsWith (p ++ [96%N]) s = false.
Proof.
  unfold endsWith. rewrite rev_app_distr. cbn [rev app].
  destruct (rev s) as [|c r] eqn:Hr; [reflexivity|]. cbn [startsWith].
  destruct (N.eqb_spec 96 c); [subst|reflexivity].
  intros H. exfalso. apply (f_equal (@rev N)) in Hr.
  rewrite rev_involutive in Hr. simpl in Hr. subst s.
  eapply accept_last_backtick; eassumption.
Qed.

Lemma strip_json_fence_open_accepted t v :
  accept t = Some v -> strip_json_fence_open t = t.
Proof.
  intros H. unfold strip_json_fence_open.
  change fence with (96%N :: [96%N; 96%N]).
  erewrite startsWith_backtick by eassumption. reflexivity.
Qed.

Lemma strip_fence_open_accepted t v :
  accept t = Some v -> strip_fence_open t = t.
Proof.
  intros H. unfold strip_fence_open.
  change fence with (96%N :: [96%N; 96%N]).
  erewrite startsWith_backtick by eassumption. reflexivity.
Qed.

Lemma strip_fence_close_accepted t v :
  accept t = Some v -> strip_fence_close t = t.
Proof.
  intros H. unfold strip_fence_close.
  change (newline ++ fence) with ([10%N; 96%N; 96%N] ++ [96%N]).
  change fence with ([96%N; 96%N] ++ [96%N]).
  erewrite !endsWith_backtick by eassumption. reflexivity.
Qed.

(** A text that is JSON as it stands has no fence to strip: cleaning it
    is trimming it. *)
Lemma cleanFences_accepted s v :
  accept s = Some v -> cleanFences s = trim s.
Proof.
  intros H. apply accept_trim in H. unfold cleanFences.
  rewrite (@strip_json_fence_open_accepted (trim s) v H).
  rewrite (@strip_fence_close_accepted (trim s) v H).
  rewrite (@strip_fence_open_accepted (trim s) v H).
  apply (@strip_fence_close_accepted (trim s) v H).
Qed.

Lemma parse_cleanFences s v :
  parse s = Ok v -> parse (cleanFences s) = Ok v.
Proof.
  unfold parse. destruct (accept s) as [w|] eqn:H; [|discriminate].
  intros Hv; inversion Hv; subst.
  erewrite cleanFences_accepted by eassumption.
  erewrite accept_trim by eassumption. reflexivity.
Qed.

End JsonFacts.

(* ================================================================== *)
(** * The response parser *)
(* ================================================================== *)

Lemma summaryAndIssues_shape parsed r :
  summaryAndIssues parsed = Ok r ->
  (exists issueList, issues r = JArr issueList)
  /\ (summary r = JNull
      \/ exists fields, parsed = JObj fields
                        /\ lookup (lit "summary") fields = Some (summary r)).
Proof.
  unfold summaryAndIssues.
  destruct parsed as [ | |b|neg m e|s|elems|fields]; simpl;
    try discriminate; intros H; inversion H; subst; clear H; simpl;
    try (split; [eauto | left; reflexivity]).
  split.
  - destruct (lookup (lit "issues") fields) as [[ | |b|neg m e|s|elems|fs]|];
      simpl; eauto.
  - destruct (lookup (lit "summary") fields) as [x|] eqn:Hl.
    + unfold js_or. destruct (truthy x); [right; eauto | left; reflexivity].
    + left; reflexivity.
Qed.

Lemma recoverObject_shape response :
  recoverObject response = Ok None
  \/ exists r objMatch parsed,
       recoverObject response = Ok (Some r)
       /\ match_object_span response = Some objMatch
       /\ JSON.parse objMatch = Ok parsed
       /\ summaryAndIssues parsed = Ok r.
Proof.
  unfold recoverObject.
  destruct (match_object_span response) as [m|]; [|auto].
  destruct (JSON.parse m) as [parsed|e] eqn:Hparsed; simpl; [|auto].
  destruct (summaryAndIssues parsed) as [r|e] eqn:Hr; simpl; [|auto].
  right. exists r, m, parsed. repeat split; auto.
Qed.

Lemma recoverArray_shape response :
  recoverArray response = Ok None
  \/ exists issueList,
       recoverArray response
       = Ok (Some {| summary := JNull; issues := JArr issueList |}).
Proof.
  unfold recoverArray.
  destruct (match_array_span response) as [m|] eqn:Hm; [|auto].
  destruct (match_span_head _ _ _ Hm) as [t ->].
  unfold JSON.parse.
  destruct (JSON.accept (91%N :: t)) as [parsed|] eqn:Ha; simpl; [|auto].
  destruct (accept_bracket _ Ha) as [l ->]. eauto.
Qed.

(** Whatever the reply, the parser returns, and returns an array of issues
    and a summary that is [null] or the [summary] member of an object it
    parsed. *)
Lemma parseReviewResponse_result (response : jstring) :
  exists result,
    parseReviewResponse response = Ok result
    /\ (exists issueList, issues result = JArr issueList)
    /\ (summary result = JNull
        \/ exists text fields,
             (text = cleanFences response
              \/ match_object_span response = Some text)
             /\ JSON.parse text = Ok (JObj fields)
             /\ lookup (lit "summary") fields = Some (summary result)).
Proof.
  unfold parseReviewResponse, parseStrict.
  destruct (JSON.parse (cleanFences response)) as [parsed|e] eqn:Hp; simpl.
  - destruct (truthy parsed && typeof_object parsed
              && negb (isArray parsed))%bool eqn:Hobj.
    + destruct (summaryAndIssues parsed) as [r|e] eqn:Hr.
      * destruct (summaryAndIssues_shape _ Hr) as [Hi Hs].
        exists r; simpl. repeat split; auto.
        destruct Hs as [Hs | (fields & -> & Hl)]; [auto|].
        right. exists (cleanFences response), fields. auto.
      * destruct parsed; simpl in *; discriminate.
    + destruct parsed as [ | |b|neg m e|s|elems|fields]; simpl in *;
        try discriminate; eexists; repeat split; simpl; eauto.
  - unfold parseRecover.
    destruct (recoverObject_shape response)
      as [-> | (r & m & parsed & -> & Hm & Hparsed & Hr)]; simpl.
    + destruct (recoverArray_shape response) as [-> | (l & ->)]; simpl;
        eexists; repeat split; simpl; eauto.
    + destruct (summaryAndIssues_shape _ Hr) as [Hi Hs].
      exists r. repeat split; auto.
      destruct Hs as [Hs | (fields & -> & Hl)]; [auto|].
      right. exists m, fields. auto.
Qed.

(** C3.  For every input string, [parseReviewResponse] returns and does
    not throw; the [issues] of what it returns is an array, and the
    [summary] is [null] or the [summary] member of the object it parsed
    (the cleaned text, or the object span of the reply). *)
Theorem parseReviewResponse_never_throws (response : jstring) :
  exists result,
    parseReviewResponse response = Ok result
    /\ (exists issueList, issues result = JArr issueList)
    /\ (summary result = JNull
        \/ exists text fields,
             (text = cleanFences response
              \/ match_object_span response = Some text)
             /\ JSON.parse text = Ok (JObj fields)
             /\ lookup (lit "summary") fields = Some (summary result)).
Proof. exact (parseReviewResponse_result response). Qed.

(** C9.  When the reply as it stands is valid JSON for a value that is
    neither an object nor an array, the [try] block itself returns the
    result with no summary and no issue: the [catch] block, with its two
    span recoveries, is not entered. *)
Theorem parseReviewResponse_scalar (response : jstring) (v : JValue) :
  JSON.parse response = Ok v ->
  isArray v = false ->
  isPlainObject v = false ->
  parseStrict response = Ok emptyResult
  /\ parseReviewResponse response = Ok emptyResult.
Proof.
  intros Hp Harr Hobj. apply parse_cleanFences in Hp.
  assert (Hs : parseStrict response = Ok emptyResult).
  { unfold parseStrict. rewrite Hp. simpl.
    destruct v; simpl in *; try discriminate;
      rewrite ?andb_false_r; reflexivity. }
  split; [exact Hs|]. unfold parseReviewResponse. rewrite Hs. reflexivity.
Qed.

Lemma parseReviewResponse_scalar_witness :
  JSON.parse (lit "42") = Ok (JNum false 42 0)
  /\ parseStrict (lit "42") = Ok emptyResult
  /\ parseReviewResponse (lit "42") = Ok emptyResult.
Proof.
  split; [reflexivity|].
  apply (@parseReviewResponse_scalar (lit "42") (JNum false 42 0));
    reflexivity.
Defined.

(** C4.  On the reply of the scenario with one issue in the array, strict
    parsing throws, the array span is the embedded array and parses to an
    array of one issue object; but the object span is tried first, it is
    the issue object itself and parses, so the parser returns no issue at
    all.  With the three dots of the scenario kept as they are, neither
    span parses and the result is empty as well. *)
Theorem parseReviewResponse_single_issue_lost :
  match_array_span Scripted.proseAroundArray = Some Scripted.embeddedArray
  /\ (exists issue,
        JSON.parse Scripted.embeddedArray = Ok (JArr [JObj issue]))
  /\ JSON.parse (cleanFences Scripted.proseAroundArray)
     = Throw JSON.syntax_error
  /\ recoverObject Scripted.proseAroundArray = Ok (Some emptyResult)
  /\ parseReviewResponse Scripted.proseAroundArray = Ok emptyResult
  /\ parseReviewResponse Scripted.proseAroundDots = Ok emptyResult.
Proof.
  repeat split; try (vm_compute; reflexivity).
  eexists. vm_compute. reflexivity.
Qed.

(** An array of two issues in prose is recovered: the object span then
    runs from the first issue to the last and does not parse. *)
Example parseReviewResponse_two_issues :
  exists first second,
    parseReviewResponse
      (litq "Here you go: [{~line~:3},{~line~:4}] Thanks!")
    = Ok {| summary := JNull; issues := JArr [JObj first; JObj second] |}.
Proof. eexists _, _. vm_compute. reflexivity. Qed.

(** A fenced object is parsed with its fences stripped. *)
Example parseReviewResponse_fenced :
  exists risk,
    parseReviewResponse
      (text_lines ["```json";
                   "{~summary~:{~riskLevel~:~low~},~issues~:[]}";
                   "```"])
    = Ok {| summary := JObj risk; issues := JArr [] |}.
Proof. eexists. vm_compute. reflexivity. Qed.

(* ================================================================== *)
(** * The prompt builder *)
(* ================================================================== *)

(** C8.  For a record that did not come from the REST API and any
    settings, the prompt is the addition-only template around a payload
    between two fences.  The payload is the head of the code under
    review, which is the contents of [additions] joined by line feeds when
    [additions] is there and not empty and [content] otherwise: all of it
    when it has at most 15000 code units, its first 15000 code units
    otherwise. *)
Theorem buildReviewPrompt_additions_payload {E : Engine} (d : PageDiff)
  (settings : Settings) :
  let code :=
    match additions d with
    | Some (first :: more) => join newline (map lineContent (first :: more))
    | _ => content d
    end in
  let count := match additions d with
               | Some added => List.length added
               | None => 0
               end in
  exists payload cut,
    buildReviewPrompt (FromPage d) settings
    = (pagePromptIntro ++ filename d ++ pagePromptCount ++ show_nat count
         ++ pagePromptCode)
        ++ payload
        ++ (pagePromptRequirements ++ depthInstruction settings ++ promptFocus
              ++ join (lit ", ") (focusAreaPhrases (focusAreas settings))
              ++ promptResponseFormat)
    /\ code = payload ++ cut
    /\ len payload = N.min 15000 (len code)
    /\ (exists before, pagePromptCode = before ++ fence ++ newline)
    /\ (exists rest, pagePromptRequirements = newline ++ fence ++ rest).
Proof.
  intros code count.
  exists (firstn (N.to_nat 15000) code), (skipn (N.to_nat 15000) code).
  split.
  { unfold buildReviewPrompt, substring0. rewrite <- !app_assoc.
    subst code count.
    destruct (additions d) as [[|first more]|]; reflexivity. }
  split; [symmetry; apply firstn_skipn|].
  split; [unfold len; rewrite length_firstn; lia|].
  split.
  - exists (dropEnd 4 pagePromptCode). vm_compute. reflexivity.
  - exists (skipn 4 pagePromptRequirements). vm_compute. reflexivity.
Qed.

(** The additions win over the raw content. *)
Example buildReviewPrompt_uses_additions :
  exists head tail,
    @buildReviewPrompt Scripted.engine
      (FromPage (Scripted.markerDiff "a.js" "  context 1; + let a = 1;"
                   [Scripted.added 1 "let a = 1;";
                    Scripted.added 2 "let b = 2;"]))
      Scripted.settings
    = head ++ fence ++ newline
      ++ lit "let a = 1;" ++ newline ++ lit "let b = 2;"
      ++ newline ++ fence ++ tail.
Proof.
  exists (dropEnd 4 (pagePromptIntro ++ lit "a.js" ++ pagePromptCount
                       ++ show_nat 2 ++ pagePromptCode)).
  eexists (skipn 4 pagePromptRequirements ++ _).
  vm_compute. reflexivity.
Qed.

(** A depth that the table does not have gives the standard
    instruction, unless the table inherits something under that name,
    which is then printed. *)
Example depthInstruction_inherited :
  let depth name :=
    @depthInstruction Scripted.engine
      {| apiKey := []; model := []; reviewDepth := lit name;
         focusAreas := focusAreas Scripted.settings |} in
  depth "deep" = depthStandard
  /\ depth "constructor" = lit "function Object() { [native code] }"
  /\ depth "quick" = lit "Focus only on critical issues. Be brief.".
Proof. repeat split; vm_compute; reflexivity. Qed.

(* ================================================================== *)
(** * Severity counting *)
(* ================================================================== *)

Lemma increment_cases stats severity :
  let stats' := increment stats severity in
  files stats' = files stats
  /\ critical stats'
     = critical stats + (if is_string severity (lit "critical") then 1 else 0)
  /\ warnings stats'
     = warnings stats + (if is_string severity (lit "warning") then 1 else 0)
  /\ suggestions stats'
     = suggestions stats
       + (if (negb (is_string severity (lit "critical"))
              && negb (is_string severity (lit "warning")))%bool
          then 1 else 0).
Proof.
  unfold increment.
  destruct (is_string severity (lit "critical")) eqn:Hc.
  - assert (Hw : is_string severity (lit "warning") = false).
    { destruct severity; try reflexivity. simpl in *.
      apply str_eqb_eq in Hc. subst. reflexivity. }
    rewrite Hw. simpl. repeat split; lia.
  - destruct (is_string severity (lit "warning")); simpl; repeat split; lia.
Qed.

Lemma countSeverity_readable stats issue :
  readable issue = true ->
  exists severity,
    get_prop issue (lit "severity") = Ok severity
    /\ countSeverity stats issue = Ok (increment stats severity).
Proof.
  unfold countSeverity.
  destruct issue; try discriminate; intros _; simpl; eauto.
Qed.

Lemma forEachSeverity_buckets issueList : forall stats,
  forallb readable issueList = true ->
  exists stats',
    forEachSeverity issueList stats = Ok stats'
    /\ files stats' = files stats
    /\ critical stats'
       = critical stats + counted (hasSeverity "critical") issueList
    /\ warnings stats'
       = warnings stats + counted (hasSeverity "warning") issueList
    /\ suggestions stats'
       = suggestions stats + counted otherSeverity issueList.
Proof.
  unfold counted.
  induction issueList as [|issue rest IH]; intros stats Hall.
  - exists stats. simpl. repeat split; lia.
  - simpl in Hall. apply andb_true_iff in Hall. destruct Hall as [Hi Hrest].
    destruct (countSeverity_readable stats issue Hi) as (severity & Hs & Hc).
    destruct (IH (increment stats severity) Hrest)
      as (stats' & Hrun & Hf & Hcrit & Hwarn & Hsug).
    exists stats'. cbn [forEachSeverity]. rewrite Hc. cbn [rbind].
    split; [assumption|].
    destruct (increment_cases stats severity) as (If & Ic & Iw & Is).
    unfold otherSeverity, hasSeverity in *. cbn [filter]. rewrite Hs.
    destruct (is_string severity (lit "critical"));
      destruct (is_string severity (lit "warning")); simpl in *;
      repeat split; lia.
Qed.

Lemma partition_length issueList :
  counted (hasSeverity "critical") issueList
  + counted (hasSeverity "warning") issueList
  + counted otherSeverity issueList
  = List.length issueList
    + counted (fun i => hasSeverity "critical" i && hasSeverity "warning" i)%bool
              issueList.
Proof.
  unfold counted, otherSeverity.
  induction issueList as [|issue rest IH]; [reflexivity|]. cbn [filter].
  destruct (hasSeverity "critical" issue);
    destruct (hasSeverity "warning" issue); simpl; lia.
Qed.

Lemma severities_exclusive issue :
  (hasSeverity "critical" issue && hasSeverity "warning" issue)%bool = false.
Proof.
  unfold hasSeverity.
  destruct (get_prop issue (lit "severity")) as [severity|e]; [|reflexivity].
  destruct (is_string severity (lit "critical")) eqn:Hc; [|reflexivity].
  destruct severity; try discriminate. simpl in *.
  apply str_eqb_eq in Hc. subst. reflexivity.
Qed.

Lemma counted_none p issueList :
  (forall i, p i = false) -> counted p issueList = 0.
Proof.
  intros Hp. unfold counted.
  induction issueList as [|i rest IH]; [reflexivity|].
  simpl. rewrite Hp. assumption.
Qed.

(** Once the counting returns, the three buckets have grown by the number
    of issues. *)
Lemma forEachSeverity_sum issueList : forall stats stats',
  forEachSeverity issueList stats = Ok stats' ->
  files stats' = files stats
  /\ bucketSum stats' = bucketSum stats + List.length issueList.
Proof.
  unfold bucketSum.
  induction issueList as [|issue rest IH]; intros stats stats' Hrun.
  - inversion Hrun; subst. split; simpl; lia.
  - cbn [forEachSeverity] in Hrun. unfold countSeverity in Hrun.
    destruct (get_prop issue (lit "severity")) as [severity|e];
      [|discriminate].
    cbn [rbind] in Hrun. apply IH in Hrun. destruct Hrun as [Hf Hsum].
    destruct (increment_cases stats severity) as (If & Ic & Iw & Is).
    destruct (is_string severity (lit "critical")) eqn:Hc.
    + assert (Hw : is_string severity (lit "warning") = false).
      { destruct severity; try reflexivity. simpl in *.
        apply str_eqb_eq in Hc. subst. reflexivity. }
      rewrite Hw in *. simpl in *. split; lia.
    + destruct (is_string severity (lit "warning")); simpl in *; split; lia.
Qed.

(** C10.  Over issues from which a severity can be read (any value but
    [null]), the counting returns; [critical] grows by the issues whose
    severity is exactly that word, [warnings] likewise, and [suggestions]
    by every other issue, a missing or unknown severity included; the
    three counts add up to the number of issues. *)
Theorem severity_buckets_partition (issueList : list JValue) (stats : Stats) :
  forallb readable issueList = true ->
  exists stats',
    forEachSeverity issueList stats = Ok stats'
    /\ critical stats'
       = critical stats + counted (hasSeverity "critical") issueList
    /\ warnings stats'
       = warnings stats + counted (hasSeverity "warning") issueList
    /\ suggestions stats'
       = suggestions stats + counted otherSeverity issueList
    /\ counted (hasSeverity "critical") issueList
       + counted (hasSeverity "warning") issueList
       + counted otherSeverity issueList
       = List.length issueList.
Proof.
  intros Hall.
  destruct (forEachSeverity_buckets issueList stats Hall)
    as (stats' & Hrun & _ & Hc & Hw & Hs).
  exists stats'. repeat split; try assumption.
  rewrite partition_length, counted_none; [lia|].
  apply severities_exclusive.
Qed.

Lemma severity_buckets_partition_witness :
  forallb readable Scripted.sampleIssues = true
  /\ exists stats',
       forEachSeverity Scripted.sampleIssues Scripted.noStats = Ok stats'
       /\ critical stats'
          = critical Scripted.noStats
            + counted (hasSeverity "critical") Scripted.sampleIssues
       /\ warnings stats'
          = warnings Scripted.noStats
            + counted (hasSeverity "warning") Scripted.sampleIssues
       /\ suggestions stats'
          = suggestions Scripted.noStats
            + counted otherSeverity Scripted.sampleIssues
       /\ counted (hasSeverity "critical") Scripted.sampleIssues
          + counted (hasSeverity "warning") Scripted.sampleIssues
          + counted otherSeverity Scripted.sampleIssues
          = List.length Scripted.sampleIssues.
Proof.
  split; [reflexivity|].
  apply severity_buckets_partition. reflexivity.
Defined.

(** Of the six sample issues one is critical, one a warning, and the four
    others, the one without severity among them, are suggestions. *)
Example forEachSeverity_sample :
  forEachSeverity Scripted.sampleIssues Scripted.noStats
  = Ok {| files := 1; critical := 1; warnings := 1; suggestions := 4 |}.
Proof. reflexivity. Qed.

(** A [null] in the array makes the callback throw. *)
Example forEachSeverity_null :
  exists e, forEachSeverity [JNull] Scripted.noStats = Throw e.
Proof. eexists. reflexivity. Qed.

(* ================================================================== *)
(** * The remote content fetcher *)
(* ================================================================== *)

Create HintDb silent.

Section FetcherFacts.

Context {E : Engine} {W : Type} {B : Browser W}.

Lemma set_world_same (st : State W) : set_world st (world st) = st.
Proof. destruct st; reflexivity. Qed.

Lemma silent_ret {A : Type} (a : A) : silent (W:=W) (ret a).
Proof. intros st. exists (world st). destruct st; reflexivity. Qed.

Lemma silent_throw {A : Type} (e : exn) : silent (W:=W) (throw (A:=A) e).
Proof. intros st. exists (world st). destruct st; reflexivity. Qed.

Lemma silent_lift {A : Type} (r : Result A) : silent (W:=W) (lift r).
Proof. intros st. exists (world st). destruct st; reflexivity. Qed.

Lemma silent_read {A : Type} (f : W -> A) : silent (read f).
Proof. intros st. exists (world st). destruct st; reflexivity. Qed.

Lemma silent_in_world {A : Type} (op : W -> Result A * W) :
  silent (in_world op).
Proof.
  intros st. unfold in_world. destruct (op (world st)) as [r w].
  exists w. reflexivity.
Qed.

Lemma silent_bind {A C : Type} (m : Script W A) (k : A -> Script W C) :
  silent m -> (forall a, silent (k a)) -> silent (bind m k).
Proof.
  intros Hm Hk st. unfold bind.
  destruct (Hm st) as [w Hw]. destruct (m st) as [[a|e] st1]; simpl in *.
  - destruct (Hk a st1) as [w' Hw']. exists w'. rewrite Hw', Hw. reflexivity.
  - exists w. assumption.
Qed.

Lemma silent_try_catch {A : Type} (m : Script W A) (h : exn -> Script W A) :
  silent m -> (forall e, silent (h e)) -> silent (try_catch m h).
Proof.
  intros Hm Hh st. unfold try_catch.
  destruct (Hm st) as [w Hw]. destruct (m st) as [[a|e] st1]; simpl in *.
  - exists w. assumption.
  - destruct (Hh e st1) as [w' Hw']. exists w'. rewrite Hw', Hw. reflexivity.
Qed.

Lemma silent_if {A : Type} (b : bool) (m1 m2 : Script W A) :
  silent m1 -> silent m2 -> silent (if b then m1 else m2).
Proof. destruct b; auto. Qed.

Lemma silent_match_string {A : Type} (v : JValue)
  (onString : jstring -> Script W A) (otherwise : Script W A) :
  (forall s, silent (onString s)) -> silent otherwise ->
  silent (match v with JStr s => onString s | _ => otherwise end).
Proof. destruct v; auto. Qed.

#[local] Hint Resolve silent_ret silent_throw silent_lift silent_read
  silent_in_world silent_if : silent.

Ltac silence :=
  repeat first
    [ apply silent_bind; [|intros ?]
    | apply silent_try_catch; [|intros ?]
    | apply silent_if
    | solve [auto with silent] ].

Lemma silent_fetchFileContentByPath context path commitId :
  silent (fetchFileContentByPath context path commitId).
Proof. unfold fetchFileContentByPath. silence. Qed.

#[local] Hint Resolve silent_fetchFileContentByPath : silent.

Lemma silent_fetchChanges context sourceCommit targetCommit changesList :
  forall diffs,
    silent (fetchChanges context sourceCommit targetCommit changesList diffs).
Proof.
  induction changesList as [|change rest IH]; intros diffs;
    cbn [fetchChanges].
  - silence.
  - silence; try apply IH.
    apply silent_match_string; [intros path|]; silence; apply IH.
Qed.

Lemma silent_extractFromADOApi : silent extractFromADOApi.
Proof.
  unfold extractFromADOApi. silence.
  match goal with |- silent (match ?c with _ => _ end) => destruct c end;
    silence. apply silent_fetchChanges.
Qed.

Lemma ensures_ret {A : Type} (a : A) (P : A -> Prop) :
  P a -> ensures (W:=W) (ret a) P.
Proof. intros H st x st' Hrun. inversion Hrun; subst; assumption. Qed.

Lemma ensures_throw {A : Type} (e : exn) (P : A -> Prop) :
  ensures (W:=W) (throw e) P.
Proof. intros st x st' Hrun. discriminate. Qed.

Lemma ensures_bind {A C : Type} (m : Script W A) (k : A -> Script W C)
  (Q : A -> Prop) (P : C -> Prop) :
  ensures m Q -> (forall a, Q a -> ensures (k a) P) -> ensures (bind m k) P.
Proof.
  intros Hm Hk st c st' Hrun. unfold bind in Hrun.
  destruct (m st) as [[a|e] st1] eqn:Em; [|discriminate].
  eapply Hk; [eapply Hm|]; eassumption.
Qed.

Lemma ensures_any {A : Type} (m : Script W A) : ensures m (fun _ => True).
Proof. intros st a st' _. exact I. Qed.

Lemma ensures_if {A : Type} (b : bool) (m1 m2 : Script W A) (P : A -> Prop) :
  (b = true -> ensures m1 P) -> (b = false -> ensures m2 P) ->
  ensures (if b then m1 else m2) P.
Proof. destruct b; auto. Qed.

Lemma ensures_try_catch {A : Type} (m : Script W A) (h : exn -> Script W A)
  (P : A -> Prop) :
  ensures m P -> (forall e, ensures (h e) P) -> ensures (try_catch m h) P.
Proof.
  intros Hm Hh st a st' Hrun. unfold try_catch in Hrun.
  destruct (m st) as [[x|e] st1] eqn:Em.
  - inversion Hrun; subst. eapply Hm; eassumption.
  - eapply Hh; eassumption.
Qed.

(** The fetch loop keeps both limits: it stops at [MAX_FILES] records, and
    pushes a record only for content that was fetched, is not empty and is
    within [MAX_FILE_SIZE]. *)
Lemma fetchChanges_bounds context sourceCommit targetCommit changesList :
  forall diffs,
    withinLimits diffs ->
    ensures (fetchChanges context sourceCommit targetCommit changesList diffs)
            withinLimits.
Proof.
  induction changesList as [|change rest IH]; intros diffs Hin;
    cbn [fetchChanges].
  - apply ensures_ret; assumption.
  - apply ensures_if; intros Hroom; [apply ensures_ret; assumption|].
    eapply ensures_bind; [apply ensures_any|]; intros changeItem _.
    eapply ensures_bind; [apply ensures_any|]; intros isFolder _.
    apply ensures_if; intros _; [apply IH; assumption|].
    eapply ensures_bind; [apply ensures_any|]; intros changeChangeType _.
    apply ensures_if; intros _; [apply IH; assumption|].
    eapply ensures_bind; [apply ensures_any|]; intros filePath _.
    apply ensures_if; intros _; [apply IH; assumption|].
    destruct filePath as [ | |b|neg m e|path|elems|fields];
      try apply ensures_throw.
    apply ensures_if; intros _; [apply IH; assumption|].
    eapply ensures_bind with
      (Q := fun newContent => truthy sourceCommit = false -> newContent = []).
    { apply ensures_if; intros Hsrc; [intros st a st' _; congruence|].
      apply ensures_ret; reflexivity. }
    intros newContent Hnew.
    apply ensures_if; intros Hsize; [apply IH; assumption|].
    eapply ensures_bind; [apply ensures_any|]; intros originalContent _.
    apply ensures_if; intros Hempty; [apply IH; assumption|].
    apply IH. destruct Hin as [Hn Hall]. split.
    + rewrite length_app. simpl. apply N.leb_gt in Hroom. lia.
    + apply Forall_app. split; [assumption|]. constructor; [|constructor].
      eexists. split; [reflexivity|]. simpl. split.
      * destruct newContent; [discriminate | discriminate].
      * destruct (truthy sourceCommit) eqn:Hsrc.
        -- simpl in Hsize. apply N.ltb_ge in Hsize. assumption.
        -- rewrite Hnew in Hempty by reflexivity. discriminate.
Qed.

Lemma try_catch_returns {A : Type} (m : Script W A) (h : exn -> Script W A) st :
  (forall e st1, exists a, fst (h e st1) = Ok a) ->
  exists a, fst (try_catch m h st) = Ok a.
Proof.
  intros Hh. unfold try_catch. destruct (m st) as [[a|e] st1]; simpl; eauto.
Qed.

(** The fetcher always returns, and leaves the state of the script as it
    was, the world apart. *)
Lemma extractFromADOApi_returns st :
  exists diffs w, extractFromADOApi st = (Ok diffs, set_world st w).
Proof.
  destruct (silent_extractFromADOApi st) as [w Hw].
  assert (Hok : exists diffs, fst (extractFromADOApi st) = Ok diffs).
  { unfold extractFromADOApi. unfold bind at 1. unfold read.
    destruct (DomScan.getADOContext (world st)) as [context|];
      [|simpl; eauto].
    apply try_catch_returns. intros e st1. simpl. eauto. }
  destruct Hok as [diffs Hd]. exists diffs, w.
  destruct (extractFromADOApi st) as [r st1]; simpl in *. congruence.
Qed.

Lemma extractFromADOApi_bounds : ensures extractFromADOApi withinLimits.
Proof.
  assert (Hnil : withinLimits [])
    by (split; [vm_compute; discriminate | constructor]).
  unfold extractFromADOApi.
  eapply ensures_bind; [apply ensures_any|]; intros [context|] _;
    [|apply ensures_ret; assumption].
  apply ensures_try_catch; [|intros e; apply ensures_ret; assumption].
  repeat first
    [ apply ensures_ret; assumption
    | apply fetchChanges_bounds; assumption
    | apply ensures_if; intros _
    | eapply ensures_bind; [apply ensures_any|]; intros ? _ ].
Qed.

(** C5.  Whatever the page address, the REST responses and the content
    served for each file, [extractFromADOApi] returns, and returns at most
    15 records, each of them an API record whose [newContent] is not empty
    and has at most 50000 code units. *)
Theorem extractFromADOApi_limits (st : State W) :
  exists diffs st',
    extractFromADOApi st = (Ok diffs, st')
    /\ (N.of_nat (List.length diffs) <= 15)%N
    /\ Forall (fun diff =>
                 exists d, diff = FromApi d
                           /\ newContent d <> []
                           /\ (len (newContent d) <= 50000)%N)
              diffs.
Proof.
  destruct (extractFromADOApi_returns st) as (diffs & w & Hrun).
  exists diffs, (set_world st w). split; [assumption|].
  exact (extractFromADOApi_bounds _ Hrun).
Qed.

End FetcherFacts.

(* ================================================================== *)
(** * The extraction strategy chain *)
(* ================================================================== *)

Section ChainFacts.

Context {E : Engine} {W : Type} {B : Browser W}.

Lemma fromPage_run (strategy : W -> Result (list PageDiff)) (st : State W) :
  fromPage strategy st
  = (match strategy (world st) with
     | Ok found => Ok (map FromPage found)
     | Throw e => Throw e
     end, st).
Proof.
  unfold fromPage, bind, scan, ret. destruct (strategy (world st)); reflexivity.
Qed.

(** The strategies that scan the DOM change nothing, the world
    included. *)
Lemma strategyOf_dom s (st st1 : State W) r :
  In s domStrategies -> strategyOf s st = (r, st1) -> st1 = st.
Proof.
  intros Hin Hs. simpl in Hin.
  repeat (destruct Hin as [<- | Hin];
          [cbn [strategyOf] in Hs; rewrite fromPage_run in Hs;
           inversion Hs; reflexivity|]).
  contradiction.
Qed.

(** Every strategy changes nothing but the world, whether it returns or
    throws. *)
Lemma strategyOf_quiet s (st : State W) :
  exists r w, strategyOf s st = (r, set_world st w).
Proof.
  destruct s; cbn [strategyOf];
    try (rewrite fromPage_run; eexists; exists (world st);
         rewrite set_world_same; reflexivity).
  - unfold selectedCode, bind, read, ret.
    destruct (_ && _)%bool; eexists; exists (world st);
      rewrite set_world_same; reflexivity.
  - destruct (extractFromADOApi_returns st) as (diffs & w & Hrun).
    exists (Ok diffs), w. exact Hrun.
Qed.

Lemma invoke_run s (st st1 : State W) out :
  strategyOf s st = (Ok out, st1) ->
  invoke s (strategyOf s) st = (Ok out, add_event (Invoked s out) st1).
Proof. intros H. unfold invoke, bind, emit, ret. rewrite H. reflexivity. Qed.

Lemma invoke_throws s (st st1 : State W) e :
  strategyOf s st = (Throw e, st1) ->
  invoke s (strategyOf s) st = (Throw e, st1).
Proof. intros H. unfold invoke, bind. rewrite H. reflexivity. Qed.

Lemma firstNonEmpty_run finish order : forall st : State W,
  exists result log st',
    firstNonEmpty finish order st = (result, st')
    /\ ChainRun finish order st log result st'.
Proof.
  induction order as [|s rest IH]; intros st.
  - exists (Ok []), [], st. split; [reflexivity | constructor].
  - destruct (strategyOf_quiet s st) as ([out|e] & w & Hs).
    + cbn [firstNonEmpty]. unfold bind at 1.
      rewrite (@invoke_run s st _ out Hs).
      destruct out as [|d out]; cbn [isEmpty negb].
      * destruct (IH (add_event (Invoked s []) (set_world st w)))
          as (result & log & st' & Hrun & Hchain).
        exists result, (Invoked s [] :: log), st'. split; [assumption|].
        econstructor; eassumption.
      * eexists _, _, _. split; [reflexivity|].
        econstructor; [eassumption | discriminate].
    + cbn [firstNonEmpty]. unfold bind at 1.
      rewrite (@invoke_throws s st _ e Hs).
      eexists _, _, _. split; [reflexivity|].
      apply ChainThrew. assumption.
Qed.

(** What a run of the chain leaves behind: its events and nothing else,
    no parsed review among them, from a prefix of the order. *)
Lemma ChainRun_trace finish order (st st' : State W) log result :
  ChainRun finish order st log result st' ->
  trace st' = trace st ++ log
  /\ isReviewing st' = isReviewing st
  /\ currentSettings st' = currentSettings st
  /\ reviewStats st' = reviewStats st
  /\ reviewedResults log = []
  /\ (exists skipped, order = invokedStrategies log ++ skipped).
Proof.
  induction 1 as [st | s rest st st1 st' log result Hs Hrun IH
                 | s rest st st1 out Hs Hout
                 | s rest st st1 e Hs].
  - rewrite app_nil_r. repeat split. exists []. reflexivity.
  - destruct (strategyOf_quiet s st) as (r & w & Hq).
    rewrite Hq in Hs. inversion Hs; subst.
    destruct IH as (Ht & Hr & Hc & Hst & Hrev & skipped & Hord).
    simpl in *. rewrite Ht, <- app_assoc. repeat split; try assumption.
    exists skipped. rewrite Hord. reflexivity.
  - destruct (strategyOf_quiet s st) as (r & w & Hq).
    rewrite Hq in Hs. inversion Hs; subst. simpl.
    repeat split. exists rest. reflexivity.
  - destruct (strategyOf_quiet s st) as (r & w & Hq).
    rewrite Hq in Hs. inversion Hs; subst. simpl.
    rewrite app_nil_r. repeat split. exists (s :: rest). reflexivity.
Qed.

(** The strategies that scan the DOM leave the world as it is. *)
Lemma ChainRun_dom_world finish order (st st' : State W) log result :
  ChainRun finish order st log result st' ->
  Forall (fun s => In s domStrategies) order ->
  world st' = world st.
Proof.
  induction 1 as [st | s rest st st1 st' log result Hs Hrun IH
                 | s rest st st1 out Hs Hout
                 | s rest st st1 e Hs]; intros Hall.
  - reflexivity.
  - inversion Hall as [|? ? Hin Hrest]; subst. rewrite (IH Hrest).
    rewrite (strategyOf_dom _ Hin Hs). reflexivity.
  - inversion Hall as [|? ? Hin Hrest]; subst.
    rewrite (strategyOf_dom _ Hin Hs). reflexivity.
  - inversion Hall as [|? ? Hin Hrest]; subst.
    rewrite (strategyOf_dom _ Hin Hs). reflexivity.
Qed.

(** [extractDiffs] is the reducer over the priority order of the scope. *)
Lemma extractDiffs_reducer type (st : State W) :
  extractDiffs type st
  = firstNonEmpty (scoped type) (priority type) (afterWait st).
Proof.
  unfold extractDiffs, priority, domStrategies, afterWait.
  destruct (str_eqb type (lit "selected")) eqn:Hsel;
    cbn [negb app firstNonEmpty strategyOf].
  - apply str_eqb_eq in Hsel. subst type.
    unfold bind, in_world, ret.
    destruct (invoke Selection selectedCode _) as [[[|d out]|e] st1];
      reflexivity.
  - unfold bind, in_world, ret. reflexivity.
Qed.

Lemma extractDiffs_run (type : jstring) (st : State W) :
  exists result log st',
    extractDiffs type st = (result, st')
    /\ trace st' = trace st ++ log
    /\ ChainRun (scoped type) (priority type) (afterWait st) log result st'.
Proof.
  destruct (firstNonEmpty_run (scoped type) (priority type) (afterWait st))
    as (result & log & st' & Hrun & Hchain).
  exists result, log, st'. rewrite extractDiffs_reducer.
  split; [assumption|]. split; [|assumption].
  apply ChainRun_trace in Hchain. destruct Hchain as [Ht _]. exact Ht.
Qed.


(** C2 (amended).  Under scope [selected] the REST API strategy is never
    run and the world is the one the wait left.  A selection that is not
    blank is returned as it is, as one record, and no other strategy runs;
    with a blank selection (empty, or white space only) the chain goes on
    to the six strategies that scan the DOM, in order, and returns what
    the first of them that finds records returns, or throws what the
    first of them that throws throws. *)
Theorem extractDiffs_selected (st : State W) :
  let selection := getSelection (world (afterWait st)) in
  exists result log st',
    extractDiffs (lit "selected") st = (result, st')
    /\ trace st' = trace st ++ log
    /\ ~ In AdoApi (invokedStrategies log)
    /\ world st' = await_page (world st)
    /\ if blank selection
       then exists domLog,
              log = Invoked Selection [] :: domLog
              /\ ChainRun (fun out => out) domStrategies
                          (add_event (Invoked Selection []) (afterWait st))
                          domLog result st'
       else result = Ok [selectionRecord selection]
            /\ log = [Invoked Selection [selectionRecord selection]].
Proof.
  intros selection.
  destruct (extractDiffs_run (lit "selected") st)
    as (result & log & st' & Hrun & Ht & Hchain).
  exists result, log, st'. split; [assumption|]. split; [assumption|].
  change (priority (lit "selected")) with (Selection :: domStrategies)
    in Hchain.
  assert (Hsel : strategyOf Selection (afterWait st)
                 = (Ok (if blank selection then []
                        else [selectionRecord selection]), afterWait st)).
  { cbn [strategyOf]. unfold selectedCode, bind, read, ret. fold selection.
    unfold blank. destruct (isEmpty selection); simpl; [reflexivity|].
    destruct (isEmpty (trim selection)); reflexivity. }
  inversion Hchain as [ | s rest st0 st1 st2 domLog res Hs Hdom
                       | s rest st0 st1 out Hs Hout
                       | s rest st0 st1 e Hs]; subst;
    rewrite Hsel in Hs; destruct (blank selection) eqn:Hb;
    inversion Hs; subst; try congruence.
  - assert (Hall : Forall (fun s => In s domStrategies) domStrategies)
      by (apply Forall_forall; auto).
    assert (Hw : world st'
                 = world (add_event (Invoked Selection []) (afterWait st)))
      by (eapply ChainRun_dom_world; eassumption).
    pose proof Hdom as Hfacts. apply ChainRun_trace in Hfacts.
    destruct Hfacts as (_ & _ & _ & _ & _ & skipped & Hord).
    repeat split.
    + simpl. intros [Hin | Hin]; [discriminate|].
      assert (Hin' : In AdoApi domStrategies)
        by (rewrite Hord; apply in_or_app; left; exact Hin).
      simpl in Hin'. intuition discriminate.
    + rewrite Hw. reflexivity.
    + exists domLog. split; [reflexivity|]. exact Hdom.
  - repeat split; simpl; intuition discriminate.
Qed.

End ChainFacts.

(* ================================================================== *)
(** * The review orchestrator *)
(* ================================================================== *)

Lemma reviewedResults_app a b :
  reviewedResults (a ++ b) = reviewedResults a ++ reviewedResults b.
Proof. unfold reviewedResults. apply flat_map_app. Qed.

Lemma totalOf_app a b : totalOf (a ++ b) = totalOf a + totalOf b.
Proof.
  unfold totalOf. induction a as [|r a IH]; simpl; [reflexivity|].
  rewrite IH. lia.
Qed.

Section PassFacts.

Context {E : Engine} {W : Type} {B : Browser W}.

(** C6.  While a pass is in flight, [handleReview] returns at once with
    [success: false] and the message, and the state it leaves is the state
    it found: no event, the stored [reviewStats] and everything else
    untouched. *)
Theorem handleReview_rejects_when_busy (type : jstring) (settings : Settings)
  (st : State W) :
  isReviewing st = true ->
  handleReview type settings st
  = (Ok (Failure (lit "Review already in progress")), st).
Proof. intros Hbusy. unfold handleReview. rewrite Hbusy. reflexivity. Qed.

Lemma reviewDiff_run diff settings (st st' : State W) result :
  reviewDiff diff settings st = (Ok result, st') ->
  exists w issueList,
    st' = add_event (Reviewed diff result) (set_world st w)
    /\ issues result = JArr issueList.
Proof.
  unfold reviewDiff, callGeminiAPI, try_catch, bind, in_world, lift, emit,
    ret, throw.
  destruct (Gemini.callGeminiAPI post _ _ _ (world st)) as [[response|e] w];
    [|discriminate].
  destruct response as [ | | | |text| | ]; cbn [parseResponseValue];
    try discriminate.
  destruct (parseReviewResponse_result text) as (r & Hr & [l Hl] & _).
  rewrite Hr. intros H; inversion H; subst. eauto.
Qed.

(** The loop over the records: when it completes, every record was
    reviewed once, [totalIssues] grew by the issues of all the results, and
    so did the three severity counts together. *)
Lemma reviewLoop_counts settings diffs :
  forall totalIssues stats (st : State W) totalIssues' stats' st',
    reviewLoop settings diffs totalIssues stats st
    = (Ok (totalIssues', stats'), st') ->
    exists log,
      trace st' = trace st ++ log
      /\ reviewStats st' = reviewStats st
      /\ totalIssues' = totalIssues + totalOf (reviewedResults log)
      /\ bucketSum stats' = bucketSum stats + totalOf (reviewedResults log)
      /\ files stats' = files stats
      /\ List.length (reviewedResults log) = List.length diffs.
Proof.
  induction diffs as [|diff rest IH];
    intros totalIssues stats st totalIssues' stats' st' Hrun.
  - inversion Hrun; subst. exists []. rewrite app_nil_r. simpl.
    repeat split; lia.
  - cbn [reviewLoop] in Hrun. unfold bind at 1 in Hrun.
    destruct (reviewDiff diff settings st) as [[result|e] st1] eqn:Hd;
      [|discriminate].
    destruct (reviewDiff_run _ _ _ Hd) as (w & issueList & -> & Hi).
    rewrite Hi in Hrun. cbn [js_or truthy] in Hrun.
    assert (Hcount : issueCount result = List.length issueList)
      by (unfold issueCount; rewrite Hi; reflexivity).
    destruct (truthy (summary result) || negb (isEmpty issueList))%bool
      eqn:Hshow.
    + unfold bind, lift, in_world in Hrun.
      destruct (forEachSeverity issueList stats) as [tallied|e] eqn:Ht;
        [|discriminate].
      cbn [world add_event set_world] in Hrun.
      destruct (displayIssues diff result w) as [[u|e] w'];
        [|discriminate].
      apply IH in Hrun.
      destruct Hrun as (log & Htr & Hst & Htot & Hsum & Hf & Hlen).
      apply forEachSeverity_sum in Ht. destruct Ht as [Hf' Hsum'].
      exists (Reviewed diff result :: log).
      cbn [trace add_event set_world reviewStats] in *.
      change (Reviewed diff result :: log)
        with ([Reviewed diff result] ++ log).
      rewrite reviewedResults_app, totalOf_app. cbn.
      rewrite Htr, <- app_assoc.
      repeat split; try assumption; try lia; congruence.
    + apply orb_false_iff in Hshow. destruct Hshow as [_ Hnone].
      destruct issueList; [|discriminate].
      apply IH in Hrun.
      destruct Hrun as (log & Htr & Hst & Htot & Hsum & Hf & Hlen).
      exists (Reviewed diff result :: log).
      cbn [trace add_event set_world reviewStats] in *.
      change (Reviewed diff result :: log)
        with ([Reviewed diff result] ++ log).
      rewrite reviewedResults_app, totalOf_app. cbn.
      rewrite Htr, <- app_assoc. simpl in Hcount.
      repeat split; try assumption; try lia.
Qed.

(** C7.  When a pass succeeds, the [reviewStats] it stored satisfy
    [critical + warnings + suggestions] = the sum of the lengths of the
    [issues] arrays parsed for the records of the pass, which is also the
    [issueCount] it returns; [files] is the number of records reviewed. *)
Theorem handleReview_stats_total (type : jstring) (settings : Settings)
  (st st' : State W) (issueCountReturned : nat) :
  handleReview type settings st = (Ok (Success issueCountReturned), st') ->
  exists stats log,
    reviewStats st' = Some stats
    /\ trace st' = trace st ++ log
    /\ critical stats + warnings stats + suggestions stats
       = totalOf (reviewedResults log)
    /\ issueCountReturned = totalOf (reviewedResults log)
    /\ files stats = List.length (reviewedResults log).
Proof.
  unfold handleReview. destruct (isReviewing st); [discriminate|].
  unfold finally, try_catch.
  destruct (reviewPass type settings _) as [[outcome|e] st1] eqn:Hpass.
  2:{ unfold bind, showNotification, emit, ret. discriminate. }
  intros Hout. inversion Hout; subst; clear Hout.
  unfold reviewPass in Hpass.
  unfold bind at 1 in Hpass. unfold showNotification at 1, emit at 1 in Hpass.
  unfold bind at 1 in Hpass.
  match type of Hpass with
  | context [extractDiffs type ?s0] =>
      destruct (extractDiffs_run type s0)
        as ([diffs|thrown] & chainLog & st2 & Hx & Hxt & Hchain)
  end; rewrite Hx in Hpass; [|discriminate].
  apply ChainRun_trace in Hchain.
  destruct Hchain as (_ & _ & _ & Hxs & Hxr & _).
  destruct (isEmpty diffs); [discriminate|].
  unfold bind at 1 in Hpass. unfold showNotification at 1, emit at 1 in Hpass.
  unfold bind at 1 in Hpass.
  match type of Hpass with
  | context [reviewLoop settings diffs 0 ?s0 ?st0] =>
      destruct (reviewLoop settings diffs 0 s0 st0)
        as [[[totalIssues stats]|e] st3] eqn:Hloop; [|discriminate]
  end.
  apply reviewLoop_counts in Hloop.
  destruct Hloop as (log & Htr & Hst & Htot & Hsum & Hf & Hlen).
  unfold bind, showNotification, emit, ret in Hpass.
  inversion Hpass; subst; clear Hpass.
  exists stats.
  eexists. cbn [reviewStats trace set_isReviewing add_event set_reviewStats].
  rewrite Htr. cbn [trace add_event]. rewrite Hxt.
  cbn [trace add_event set_world afterWait set_currentSettings set_isReviewing].
  rewrite <- !app_assoc.
  split; [reflexivity|]. split; [reflexivity|].
  rewrite !reviewedResults_app, Hxr. cbn.
  rewrite app_nil_r. unfold bucketSum in Hsum. cbn in Hsum, Hf.
  unfold totalOf in *. repeat split; lia.
Qed.

End PassFacts.

(* ================================================================== *)
(** * The script on the scripted pages *)
(* ================================================================== *)

Section Runs.

Import Scripted.

Lemma handleReview_rejects_when_busy_witness :
  isReviewing (busy twoFiles) = true
  /\ handleReview (lit "all") settings (busy twoFiles)
     = (Ok (Failure (lit "Review already in progress")), busy twoFiles).
Proof.
  split; [reflexivity|].
  apply handleReview_rejects_when_busy. reflexivity.
Defined.

Lemma handleReview_stats_total_witness :
  exists st',
    handleReview (lit "all") settings (idle twoFiles) = (Ok (Success 3), st')
    /\ exists stats log,
         reviewStats st' = Some stats
         /\ trace st' = trace (idle twoFiles) ++ log
         /\ critical stats + warnings stats + suggestions stats
            = totalOf (reviewedResults log)
         /\ 3 = totalOf (reviewedResults log)
         /\ files stats = List.length (reviewedResults log).
Proof.
  exists (snd (handleReview (lit "all") settings (idle twoFiles))).
  split; [vm_compute; reflexivity|].
  apply (@handleReview_stats_total engine Page browser (lit "all") settings
           (idle twoFiles)).
  vm_compute. reflexivity.
Defined.

(** On the page with two blocks of code, a pass over both stores one
    critical issue, one warning and one suggestion, and clears the busy
    flag. *)
Example handleReview_two_files :
  let run := handleReview (lit "all") settings (idle twoFiles) in
  fst run = Ok (Success 3)
  /\ reviewStats (snd run)
     = Some {| files := 2; critical := 1; warnings := 1; suggestions := 1 |}
  /\ isReviewing (snd run) = false.
Proof. repeat split; vm_compute; reflexivity. Qed.

(** On a page that shows nothing, the pass ends with the message of the
    script, stores nothing and clears the busy flag. *)
Example handleReview_nothing_found :
  let run := handleReview (lit "all") settings (idle blankPage) in
  fst run = Ok (Failure (lit "No code changes found to review"))
  /\ reviewStats (snd run) = None
  /\ isReviewing (snd run) = false.
Proof. repeat split; vm_compute; reflexivity. Qed.


(** C2, counterexample.  Under scope [selected] with nothing selected, on
    the same page, the strategies that scan the DOM are run in order up to
    the one of the generic code blocks, and its two records are returned:
    the result is not empty. *)
Lemma extractDiffs_selected_falls_back :
  let run := extractDiffs (lit "selected") (idle twoFiles) in
  getSelection (world (afterWait (idle twoFiles))) = []
  /\ fst run = Ok [FromPage fileA; FromPage fileB]
  /\ fst run <> Ok []
  /\ invokedStrategies (trace (snd run))
     = [Selection; SideBySideView; ModernViewer; FileDiffContainers;
        MonacoEditor; GenericCodeBlocks].
Proof.
  repeat split; try (vm_compute; reflexivity).
  vm_compute. discriminate.
Qed.

(** On a page without a file name element whose address has a malformed
    [path] parameter, the first strategy that scans the DOM throws, no
    strategy is run after it, and [extractDiffs] throws the same
    [URIError]. *)
Example extractDiffs_throws :
  let run := extractDiffs (lit "all") (idle Samples.malformedPage) in
  fst run = Throw uriMalformed
  /\ DomScan.extractFromSideBySideView (world (idle Samples.malformedPage))
     = Throw uriMalformed
  /\ invokedStrategies (trace (snd run)) = [AdoApi].
Proof. repeat split; vm_compute; reflexivity. Qed.

(** On the pull request page the fetcher skips the folder, the deleted
    file and the image, and returns the edited file with both contents and
    the added file with no original content. *)
Example extractFromADOApi_pull_request :
  fst (extractFromADOApi (idle pullRequest))
  = Ok [FromApi {| apiFilename := lit "/src/a.js";
                   originalContent := lit "def:/src/a.js";
                   newContent := lit "abc:/src/a.js";
                   changeType := JStr (lit "edit") |};
        FromApi {| apiFilename := lit "/src/new.js";
                   originalContent := [];
                   newContent := lit "abc:/src/new.js";
                   changeType := JStr (lit "add") |}].
Proof. vm_compute. reflexivity. Qed.

End Runs.

(* ================================================================== *)
(** * More facts about strings *)
(* ================================================================== *)

Lemma str_eqb_refl a : str_eqb a a = true.
Proof. apply str_eqb_eq. reflexivity. Qed.

Lemma str_eqb_sym a b : str_eqb a b = str_eqb b a.
Proof.
  destruct (str_eqb a b) eqn:H1, (str_eqb b a) eqn:H2; try reflexivity.
  - apply str_eqb_eq in H1. subst. rewrite str_eqb_refl in H2. discriminate.
  - apply str_eqb_eq in H2. subst. rewrite str_eqb_refl in H1. discriminate.
Qed.

Lemma isEmpty_false {A : Type} (l : list A) : isEmpty l = false <-> l <> [].
Proof. destruct l; simpl; split; congruence. Qed.

Lemma startsWith_app p s : startsWith p (p ++ s) = true.
Proof.
  induction p as [|c p IH]; simpl; [reflexivity|].
  rewrite N.eqb_refl. exact IH.
Qed.

Lemma endsWith_app s t : endsWith t (s ++ t) = true.
Proof. unfold endsWith. rewrite rev_app_distr. apply startsWith_app. Qed.

Lemma skipn_prefix (p s : jstring) : skipn (List.length p) (p ++ s) = s.
Proof. induction p; simpl; auto. Qed.

Lemma dropEnd_app s t : dropEnd (List.length t) (s ++ t) = s.
Proof.
  unfold dropEnd. rewrite rev_app_distr.
  rewrite <- (length_rev t). rewrite skipn_app, skipn_all, Nat.sub_diag.
  simpl. apply rev_involutive.
Qed.

Lemma dropWhile_keeps p (s : jstring) c :
  In c s -> p c = false -> In c (dropWhile p s).
Proof.
  induction s as [|x s IH]; simpl; [tauto|].
  intros [->|Hin] Hc.
  - rewrite Hc. left. reflexivity.
  - destruct (p x); [auto | right; assumption].
Qed.

Lemma dropWhile_head p (s : jstring) x rest :
  dropWhile p s = x :: rest -> p x = false.
Proof.
  induction s as [|y s IH]; simpl; [discriminate|].
  destruct (p y) eqn:Hy; [assumption|].
  intros H; inversion H; subst. assumption.
Qed.

Lemma trim_keeps s c : In c s -> isWhiteSpace c = false -> In c (trim s).
Proof.
  intros Hin Hc. unfold trim, trimEnd, trimStart.
  rewrite <- in_rev. apply dropWhile_keeps; [|assumption].
  rewrite <- in_rev. apply dropWhile_keeps; assumption.
Qed.

Lemma trim_nonempty s c : In c s -> isWhiteSpace c = false -> trim s <> [].
Proof.
  intros Hin Hc H. pose proof (trim_keeps s c Hin Hc) as Hk.
  rewrite H in Hk. exact Hk.
Qed.

(** What [trim] returns starts and ends with a code unit that is no white
    space. *)
Lemma trim_ends s x rest :
  trim s = x :: rest ->
  isWhiteSpace x = false
  /\ isWhiteSpace (last (x :: rest) x) = false.
Proof.
  unfold trim, trimEnd, trimStart. intros H.
  destruct (dropWhile isWhiteSpace (rev (dropWhile isWhiteSpace s)))
    as [|y r] eqn:Hr; [discriminate|].
  pose proof (dropWhile_head _ _ Hr) as Hy.
  assert (Hlast : last (x :: rest) x = y).
  { rewrite <- H. simpl. rewrite last_last. reflexivity. }
  split; [|rewrite Hlast; assumption].
  (* the head *)
  destruct (dropWhile isWhiteSpace s) as [|z t] eqn:Hs;
    [simpl in Hr; discriminate|].
  pose proof (dropWhile_head _ _ Hs) as Hz.
  (* rev (z :: t) = rev t ++ [z]; dropping white space from it keeps z last *)
  assert (Hin : exists pre, y :: r = pre ++ [z]).
  { clear H Hlast Hy. revert y r Hr. simpl.
    induction (rev t) as [|a u IH]; simpl; intros y r Hr.
    - rewrite Hz in Hr. inversion Hr. exists []. reflexivity.
    - destruct (isWhiteSpace a).
      + apply IH. assumption.
      + inversion Hr; subst. exists (y :: u). reflexivity. }
  destruct Hin as [pre Hpre]. rewrite Hpre in H.
  rewrite rev_app_distr in H. simpl in H. inversion H; subst. assumption.
Qed.

Lemma trimStart_head c s : isWhiteSpace c = false -> trimStart (c :: s) = c :: s.
Proof. intros H. unfold trimStart. simpl. rewrite H. reflexivity. Qed.

Lemma trimEnd_last s c : isWhiteSpace c = false -> trimEnd (s ++ [c]) = s ++ [c].
Proof.
  intros H. unfold trimEnd. rewrite rev_app_distr. simpl. rewrite H.
  simpl. rewrite rev_involutive. reflexivity.
Qed.

Lemma trim_bounded c s d :
  isWhiteSpace c = false -> isWhiteSpace d = false ->
  trim (c :: s ++ [d]) = c :: s ++ [d].
Proof.
  intros Hc Hd. unfold trim. rewrite trimStart_head by assumption.
  apply (trimEnd_last (c :: s)). assumption.
Qed.

Lemma trim_idempotent s : trim (trim s) = trim s.
Proof.
  destruct (trim s) as [|x rest] eqn:H; [reflexivity|].
  destruct (trim_ends _ H) as [Hx Hl].
  destruct rest as [|r rest].
  - unfold trim, trimEnd, trimStart. simpl. rewrite Hx. simpl. rewrite Hx.
    reflexivity.
  - destruct (@exists_last _ (r :: rest)) as (pre & y & Hpre);
      [discriminate|].
    rewrite Hpre in *. change (x :: pre ++ [y]) with ((x :: pre) ++ [y]) in Hl.
    rewrite last_last in Hl. apply trim_bounded; assumption.
Qed.

Lemma trim_nonBlank s : trim s <> [] -> nonBlank (trim s).
Proof. intros H. split; [assumption | apply trim_idempotent]. Qed.

Lemma nonBlank_unit s : nonBlank s -> exists c, In c s /\ isWhiteSpace c = false.
Proof.
  intros [Hne Ht]. destruct s as [|x rest]; [congruence|].
  destruct (trim_ends _ Ht) as [Hx _]. exists x. split; [left; reflexivity|assumption].
Qed.

Lemma takeWhile_app p (a b : jstring) :
  forallb p a = true ->
  match b with [] => True | c :: _ => p c = false end ->
  DomScan.takeWhile p (a ++ b) = a.
Proof.
  intros Ha Hb. induction a as [|x a IH]; simpl.
  - destruct b as [|c b]; simpl; [reflexivity|]. rewrite Hb. reflexivity.
  - simpl in Ha. apply andb_true_iff in Ha. destruct Ha as [Hx Ha].
    rewrite Hx, IH by assumption. reflexivity.
Qed.

Lemma dropWhile_app p (a b : jstring) :
  forallb p a = true ->
  match b with [] => True | c :: _ => p c = false end ->
  dropWhile p (a ++ b) = b.
Proof.
  intros Ha Hb. induction a as [|x a IH]; simpl.
  - destruct b as [|c b]; simpl; [reflexivity|]. rewrite Hb. reflexivity.
  - simpl in Ha. apply andb_true_iff in Ha. destruct Ha as [Hx Ha].
    rewrite Hx. apply IH. assumption.
Qed.

Lemma takeWhile_all p (s : jstring) :
  forallb p (DomScan.takeWhile p s) = true.
Proof.
  induction s as [|c s IH]; simpl; [reflexivity|].
  destruct (p c) eqn:Hc; simpl; [rewrite Hc; assumption | reflexivity].
Qed.

Lemma forallb_rev {A : Type} (p : A -> bool) (l : list A) :
  forallb p (rev l) = forallb p l.
Proof.
  induction l as [|x l IH]; simpl; [reflexivity|].
  rewrite forallb_app, IH. simpl. rewrite andb_true_r. apply andb_comm.
Qed.

(** The span of a text with no opening character before the one that
    starts the body and no closing character after the one that ends
    it. *)
Lemma match_span_around opening closing (p body q : jstring) :
  forallb (fun c => negb (N.eqb c opening)) p = true ->
  forallb (fun c => negb (N.eqb c closing)) q = true ->
  match_span opening closing (p ++ opening :: body ++ closing :: q)
  = Some (opening :: body ++ [closing]).
Proof.
  intros Hp Hq. unfold match_span.
  rewrite dropWhile_app; [|assumption|simpl; rewrite N.eqb_refl; reflexivity].
  replace (rev (body ++ closing :: q)) with (rev q ++ closing :: rev body)
    by (rewrite rev_app_distr; simpl; rewrite <- app_assoc; reflexivity).
  rewrite dropWhile_app;
    [|rewrite forallb_rev; assumption|simpl; rewrite N.eqb_refl; reflexivity].
  simpl. rewrite rev_involutive. reflexivity.
Qed.

(* ================================================================== *)
(** * The response parser on replies that are JSON *)
(* ================================================================== *)

(** Once the cleaned reply parses, the [try] block returns what
    [resultOf] makes of the value. *)
Lemma parseStrict_cleaned response v :
  JSON.parse (cleanFences response) = Ok v ->
  parseStrict response = Ok (resultOf v).
Proof.
  intros Hp. unfold parseStrict. rewrite Hp.
  simpl. destruct v as [ | |b|neg m e|s|elems|fields]; simpl;
    rewrite ?andb_false_r; try reflexivity.
  unfold summaryAndIssues. simpl.
  destruct (lookup (lit "summary") fields) as [s|];
    destruct (lookup (lit "issues") fields) as [[ | |b|neg m e|t|elems|fs]|];
    reflexivity.
Qed.

Lemma parseReviewResponse_cleaned response v :
  JSON.parse (cleanFences response) = Ok v ->
  parseReviewResponse response = Ok (resultOf v).
Proof.
  intros Hp. unfold parseReviewResponse.
  rewrite (parseStrict_cleaned _ Hp). reflexivity.
Qed.

(** X1.  A reply that [JSON.parse] accepts as it stands is read by the
    [try] block, whatever white space surrounds it: an object gives its
    [summary] member, or [null] when that is missing or falsy, and its
    [issues] member when that is an array, no issue otherwise; an array
    gives itself as the issues, without a summary; every other value gives
    the empty result.  The recovery of the [catch] block plays no part. *)
Theorem parseReviewResponse_valid_json (response : jstring) (v : JValue) :
  JSON.parse response = Ok v ->
  parseStrict response = Ok (resultOf v)
  /\ parseReviewResponse response = Ok (resultOf v).
Proof.
  intros Hp. apply parse_cleanFences in Hp. split.
  - apply parseStrict_cleaned. assumption.
  - apply parseReviewResponse_cleaned. assumption.
Qed.

Lemma cleanFences_fenced tag t v :
  JSON.accept t = Some v ->
  map lower tag = lit "json" \/ tag = [] ->
  cleanFences (fence ++ tag ++ newline ++ t ++ newline ++ fence) = t.
Proof.
  intros Ha Htag. unfold cleanFences.
  assert (Htrim : forall body,
            trim (fence ++ body ++ newline ++ fence)
            = fence ++ body ++ newline ++ fence).
  { intros body.
    replace (fence ++ body ++ newline ++ fence)
      with (96%N :: ([96%N; 96%N] ++ body ++ [10%N; 96%N; 96%N]) ++ [96%N])
      by (rewrite <- !app_assoc; reflexivity).
    apply trim_bounded; reflexivity. }
  replace (fence ++ tag ++ newline ++ t ++ newline ++ fence)
    with (fence ++ (tag ++ newline ++ t) ++ newline ++ fence)
    by (rewrite <- !app_assoc; reflexivity).
  rewrite Htrim.
  assert (Hclose : forall body,
            strip_fence_close (body ++ newline ++ fence) = body).
  { intros body. unfold strip_fence_close. rewrite endsWith_app.
    apply (dropEnd_app body (newline ++ fence)). }
  assert (Hbare : strip_fence_close
                    (strip_fence_open (fence ++ newline ++ t)) = t).
  { unfold strip_fence_open. rewrite startsWith_app.
    change (skipn 3 (fence ++ newline ++ t)) with (newline ++ t).
    unfold skipNewline. rewrite startsWith_app. simpl.
    eapply strip_fence_close_accepted; eassumption. }
  destruct Htag as [Htag | ->].
  - assert (Hlen : List.length tag = 4)
      by (rewrite <- (length_map lower), Htag; reflexivity).
    destruct tag as [|a [|b [|c [|d [|x tag]]]]]; try discriminate. clear Hlen.
    unfold strip_json_fence_open at 1.
    replace (fence ++ ([a; b; c; d] ++ newline ++ t) ++ newline ++ fence)
      with (fence ++ [a; b; c; d] ++ newline ++ t ++ newline ++ fence)
      by (rewrite <- !app_assoc; reflexivity).
    rewrite startsWith_app.
    change (firstn 4 (skipn 3 (fence ++ [a; b; c; d] ++ newline
                                 ++ t ++ newline ++ fence)))
      with [a; b; c; d].
    rewrite Htag. cbn [andb str_eqb].
    replace (str_eqb (lit "json") (lit "json")) with true by reflexivity.
    change (skipn 7 (fence ++ [a; b; c; d] ++ newline ++ t ++ newline ++ fence))
      with (newline ++ t ++ newline ++ fence).
    unfold skipNewline. rewrite startsWith_app.
    change (skipn 1 (newline ++ t ++ newline ++ fence))
      with (t ++ newline ++ fence).
    rewrite Hclose.
    erewrite strip_fence_open_accepted by eassumption.
    eapply strip_fence_close_accepted; eassumption.
  - change ([] ++ newline ++ t) with (newline ++ t).
    assert (Hno : strip_json_fence_open
                    (fence ++ (newline ++ t) ++ newline ++ fence)
                  = (fence ++ newline ++ t) ++ newline ++ fence).
    { unfold strip_json_fence_open. rewrite startsWith_app.
      rewrite <- !app_assoc. reflexivity. }
    rewrite Hno, Hclose. exact Hbare.
Qed.

(** X2.  A reply that is valid JSON between an opening fence, bare or
    tagged [json] in any letter case, and a closing fence, each on a line
    of its own, is read as the JSON alone would be. *)
Theorem parseReviewResponse_fence_round_trip (tag t : jstring) (v : JValue) :
  JSON.parse t = Ok v ->
  map lower tag = lit "json" \/ tag = [] ->
  parseReviewResponse (fence ++ tag ++ newline ++ t ++ newline ++ fence)
  = parseReviewResponse t
  /\ parseReviewResponse t = Ok (resultOf v).
Proof.
  intros Hp Htag.
  assert (Hplain : parseReviewResponse t = Ok (resultOf v))
    by (apply parseReviewResponse_cleaned, parse_cleanFences; assumption).
  split; [|exact Hplain]. rewrite Hplain.
  apply parseReviewResponse_cleaned.
  unfold JSON.parse in Hp.
  destruct (JSON.accept t) as [w|] eqn:Ha; [|discriminate].
  rewrite (@cleanFences_fenced tag t w Ha Htag).
  unfold JSON.parse. rewrite Ha. assumption.
Qed.

Lemma summaryAndIssues_object fields :
  summaryAndIssues (JObj fields) = Ok (resultOf (JObj fields)).
Proof.
  unfold summaryAndIssues. simpl.
  destruct (lookup (lit "summary") fields) as [s|];
    destruct (lookup (lit "issues") fields) as [[ | |b|neg m e|t|elems|fs]|];
    reflexivity.
Qed.

(** X3.  Prose around an object is tolerated: when the reply as a whole
    is not JSON, but is an object between a text without an opening brace
    and a text without a closing brace, the object span of the [catch]
    block is that object, and the parser returns what it would return
    for the object alone. *)
Theorem parseReviewResponse_recovers_object (p body q : jstring)
  (fields : list (jstring * JValue)) (e : exn) :
  forallb (fun c => negb (N.eqb c 123)) p = true ->
  forallb (fun c => negb (N.eqb c 125)) q = true ->
  JSON.parse (123%N :: body ++ [125%N]) = Ok (JObj fields) ->
  JSON.parse (cleanFences (p ++ 123%N :: body ++ 125%N :: q)) = Throw e ->
  parseReviewResponse (p ++ 123%N :: body ++ 125%N :: q)
  = Ok (resultOf (JObj fields)).
Proof.
  intros Hp Hq Hobject Hstrict.
  unfold parseReviewResponse, parseStrict. rewrite Hstrict. cbn [rbind rcatch].
  unfold parseRecover, recoverObject, match_object_span.
  rewrite match_span_around by assumption.
  rewrite Hobject. cbn [rbind]. rewrite summaryAndIssues_object.
  reflexivity.
Qed.

(* ================================================================== *)
(** * What a pass leaves alone, and how it fails *)
(* ================================================================== *)

Create HintDb frames.

Section FrameFacts.
Context {E : Engine} {W : Type} {B : Browser W}.

Lemma sameScript_refl (st : State W) : sameScript st st.
Proof. repeat split. exists []. symmetry. apply app_nil_r. Qed.

Lemma sameScript_trans (a b c : State W) :
  sameScript a b -> sameScript b c -> sameScript a c.
Proof.
  intros (H1 & H2 & H3 & l1 & H4) (K1 & K2 & K3 & l2 & K4).
  repeat split; try congruence.
  exists (l1 ++ l2). rewrite K4, H4. symmetry. apply app_assoc.
Qed.

Lemma sameScript_world (st : State W) w : sameScript st (set_world st w).
Proof.
  destruct st; repeat split. exists []. symmetry. apply app_nil_r.
Qed.

Lemma sameScript_event (st : State W) e : sameScript st (add_event e st).
Proof. destruct st; repeat split. exists [e]. reflexivity. Qed.

Lemma frames_silent {A : Type} (m : Script W A) : silent m -> frames m.
Proof.
  intros H st. destruct (H st) as [w ->]. apply sameScript_world.
Qed.

Lemma frames_emit (e : Event) : frames (W:=W) (emit e).
Proof. intros st. apply sameScript_event. Qed.

Lemma frames_bind {A C : Type} (m : Script W A) (k : A -> Script W C) :
  frames m -> (forall a, frames (k a)) -> frames (bind m k).
Proof.
  intros Hm Hk st. unfold bind. specialize (Hm st).
  destruct (m st) as [[a|e] st1]; simpl in *; [|assumption].
  eapply sameScript_trans; [eassumption|apply Hk].
Qed.

Lemma frames_try_catch {A : Type} (m : Script W A) (h : exn -> Script W A) :
  frames m -> (forall e, frames (h e)) -> frames (try_catch m h).
Proof.
  intros Hm Hh st. unfold try_catch. specialize (Hm st).
  destruct (m st) as [[a|e] st1]; simpl in *; [assumption|].
  eapply sameScript_trans; [eassumption|apply Hh].
Qed.

Lemma frames_if {A : Type} (b : bool) (m1 m2 : Script W A) :
  frames m1 -> frames m2 -> frames (if b then m1 else m2).
Proof. destruct b; auto. Qed.

Lemma frames_ret {A : Type} (a : A) : frames (W:=W) (ret a).
Proof. intros st. apply sameScript_refl. Qed.

Lemma frames_throw {A : Type} (e : exn) : frames (W:=W) (throw (A:=A) e).
Proof. intros st. apply sameScript_refl. Qed.

Lemma frames_lift {A : Type} (r : Result A) : frames (W:=W) (lift r).
Proof. intros st. apply sameScript_refl. Qed.

Lemma frames_in_world {A : Type} (op : W -> Result A * W) :
  frames (in_world op).
Proof. apply frames_silent, silent_in_world. Qed.

Lemma frames_read {A : Type} (f : W -> A) : frames (read f).
Proof. intros st. apply sameScript_refl. Qed.

Lemma frames_scan {A : Type} (f : W -> Result A) : frames (scan f).
Proof. intros st. apply sameScript_refl. Qed.

#[local] Hint Resolve frames_ret frames_throw frames_lift frames_in_world
  frames_read frames_scan frames_emit : frames.

Ltac framing :=
  repeat first
    [ solve [auto with frames]
    | apply frames_try_catch; [|intros ?; cbv beta]
    | apply frames_bind; [|intros ?; cbv beta]
    | apply frames_if ].

Lemma frames_invoke s (m : Script W (list ChangeRecord)) :
  frames m -> frames (invoke s m).
Proof. intros H. unfold invoke. framing. Qed.

Lemma frames_extractDiffs type : frames (extractDiffs type).
Proof.
  assert (Hp : forall f, frames (fromPage f))
    by (intros f; unfold fromPage; framing).
  assert (Hs : frames selectedCode) by (unfold selectedCode; framing).
  assert (Ha : frames extractFromADOApi)
    by (apply frames_silent, silent_extractFromADOApi).
  unfold extractDiffs.
  repeat first
    [ solve [auto with frames]
    | apply frames_invoke; first [exact Ha | exact Hs | apply Hp]
    | apply frames_bind; [|intros ?]
    | apply frames_if ].
Qed.

Lemma frames_reviewDiff diff settings : frames (reviewDiff diff settings).
Proof. unfold reviewDiff, callGeminiAPI. cbv zeta. framing. Qed.

Lemma frames_reviewLoop settings diffs :
  forall totalIssues stats,
    frames (reviewLoop settings diffs totalIssues stats).
Proof.
  induction diffs as [|diff rest IH]; intros totalIssues stats;
    cbn [reviewLoop]; [framing|].
  apply frames_bind; [apply frames_reviewDiff|]; intros reviewResult.
  destruct (js_or (issues reviewResult) (JArr [])); framing; apply IH.
Qed.

(** A pass that does not end in success stores nothing; every pass keeps
    the busy flag and the settings, and only adds to what was done. *)
Lemma reviewPass_frame type settings (st st' : State W) r :
  reviewPass type settings st = (r, st') ->
  isReviewing st' = isReviewing st
  /\ currentSettings st' = currentSettings st
  /\ (exists log, trace st' = trace st ++ log)
  /\ ((exists n, r = Ok (Success n)) \/ reviewStats st' = reviewStats st).
Proof.
  unfold reviewPass.
  unfold bind at 1. unfold showNotification at 1, emit at 1.
  set (st0 := add_event _ st).
  assert (H0 : sameScript st st0) by apply sameScript_event.
  unfold bind at 1.
  pose proof (frames_extractDiffs type st0) as Hx.
  destruct (extractDiffs type st0) as [[diffs|e] st1]; cbn [snd] in Hx.
  2:{ intros H; inversion H; subst.
      destruct (sameScript_trans H0 Hx) as (? & ? & ? & ?). auto. }
  destruct (isEmpty diffs).
  { intros H; inversion H; subst.
    destruct (sameScript_trans H0 Hx) as (? & ? & ? & ?). auto. }
  unfold bind at 1. unfold showNotification at 1, emit at 1.
  set (st2 := add_event _ st1).
  assert (H2 : sameScript st1 st2) by apply sameScript_event.
  unfold bind at 1.
  match goal with
  | |- context [reviewLoop settings diffs 0 ?s0 st2] =>
      pose proof (frames_reviewLoop settings diffs 0 s0 st2) as Hl;
      destruct (reviewLoop settings diffs 0 s0 st2)
        as [[[totalIssues stats]|e] st3]
  end; cbn [snd] in Hl.
  - unfold bind, showNotification, emit, ret.
    intros H; inversion H; subst.
    destruct (sameScript_trans H0 (sameScript_trans Hx
                (sameScript_trans H2 Hl))) as (? & ? & ? & log & Hlog).
    cbn. repeat split; eauto.
    exists (log ++ [Notified (completeNotice totalIssues) (lit "success")]).
    rewrite Hlog. symmetry. apply app_assoc.
  - intros H; inversion H; subst.
    destruct (sameScript_trans H0 (sameScript_trans Hx
                (sameScript_trans H2 Hl))) as (? & ? & ? & ?).
    auto.
Qed.

(** X5.  From a state in which no pass is in flight, [handleReview]
    always returns an outcome and never throws, whatever the page, the
    network and the model do; when it returns, the busy flag is clear
    again and the settings it was called with are the current ones. *)
Theorem handleReview_settles (type : jstring) (settings : Settings)
  (st : State W) :
  isReviewing st = false ->
  exists outcome st',
    handleReview type settings st = (Ok outcome, st')
    /\ isReviewing st' = false
    /\ currentSettings st' = Some settings.
Proof.
  intros Hidle. unfold handleReview. rewrite Hidle.
  unfold finally, try_catch.
  set (st0 := set_currentSettings settings (set_isReviewing true st)).
  destruct (reviewPass type settings st0) as [[outcome|e] st1] eqn:Hpass;
    apply reviewPass_frame in Hpass; destruct Hpass as (_ & Hs & _ & _).
  - exists outcome. eexists. split; [reflexivity|]. cbn.
    split; [reflexivity|]. rewrite Hs. reflexivity.
  - unfold bind, showNotification, emit, ret.
    eexists _, _. split; [reflexivity|]. cbn.
    split; [reflexivity|]. rewrite Hs. reflexivity.
Qed.

(** X6.  A call that reports a failure leaves the stored [reviewStats]
    as they were: the statistics are written only by a pass that runs to
    its end. *)
Theorem handleReview_failure_stores_nothing (type : jstring)
  (settings : Settings) (st st' : State W) (error : jstring) :
  handleReview type settings st = (Ok (Failure error), st') ->
  reviewStats st' = reviewStats st.
Proof.
  unfold handleReview. destruct (isReviewing st).
  { intros H; inversion H; subst. reflexivity. }
  unfold finally, try_catch.
  set (st0 := set_currentSettings settings (set_isReviewing true st)).
  destruct (reviewPass type settings st0) as [[outcome|e] st1] eqn:Hpass;
    apply reviewPass_frame in Hpass; destruct Hpass as (_ & _ & _ & Hf).
  - intros H; inversion H; subst.
    destruct Hf as [[n Hn]|Hf]; [discriminate|]. cbn. rewrite Hf. reflexivity.
  - unfold bind, showNotification, emit, ret.
    intros H; inversion H; subst.
    destruct Hf as [[n Hn]|Hf]; [discriminate|]. cbn. rewrite Hf. reflexivity.
Qed.

(** X7.  A failure is one of three: the call was refused because a pass
    was in flight, and nothing changed; no change was found; or something
    threw, and then the last thing the script did was to show the
    notification of the failure with the message it returns. *)
Theorem handleReview_failure_reported (type : jstring) (settings : Settings)
  (st st' : State W) (error : jstring) :
  handleReview type settings st = (Ok (Failure error), st') ->
  (isReviewing st = true /\ st' = st
   /\ error = lit "Review already in progress")
  \/ (isReviewing st = false
      /\ error = lit "No code changes found to review")
  \/ (isReviewing st = false
      /\ exists log,
           trace st'
           = trace st ++ log ++ [Notified (failedNotice error) (lit "error")]).
Proof.
  unfold handleReview. destruct (isReviewing st).
  { intros H; inversion H; subst. left. auto. }
  unfold finally, try_catch.
  set (st0 := set_currentSettings settings (set_isReviewing true st)).
  destruct (reviewPass type settings st0) as [[outcome|e] st1] eqn:Hpass.
  - intros H; inversion H; subst. right. left. split; [reflexivity|].
    revert Hpass. unfold reviewPass.
    unfold bind at 1. unfold showNotification at 1, emit at 1.
    unfold bind at 1.
    destruct (extractDiffs type _) as [[diffs|e] st2]; [|discriminate].
    destruct (isEmpty diffs); [intros Hr; inversion Hr; reflexivity|].
    unfold bind at 1. unfold showNotification at 1, emit at 1.
    unfold bind at 1.
    destruct (reviewLoop settings diffs 0 _ _) as [[[totalIssues stats]|e] st3];
      [|discriminate].
    unfold bind, showNotification, emit, ret. discriminate.
  - apply reviewPass_frame in Hpass. destruct Hpass as (_ & _ & [log Hlog] & _).
    unfold bind, showNotification, emit, ret.
    intros H; inversion H; subst. right. right. split; [reflexivity|].
    exists log. cbn. rewrite Hlog. cbn. symmetry. apply app_assoc.
Qed.

(** X8.  [reviewDiff] throws exactly when the call to the model throws
    or when what the call returns is not a string, and then nothing is
    recorded for the record: it throws the error of the call, or the
    [TypeError] of the method that is not there.  No reply that is a
    string, however malformed, makes it throw. *)
Theorem reviewDiff_throws_with_the_model (diff : ChangeRecord)
  (settings : Settings) (st st' : State W) (e : exn) :
  reviewDiff diff settings st = (Throw e, st')
  <-> exists reply w,
        Gemini.callGeminiAPI post (buildReviewPrompt diff settings)
                             (apiKey settings) (model settings) (world st)
        = (reply, w)
        /\ st' = set_world st w
        /\ (reply = Throw e
            \/ exists value,
                 reply = Ok value
                 /\ (forall text, value <> JStr text)
                 /\ parseResponseValue value = Throw e
                 /\ kind e = TypeError).
Proof.
  unfold reviewDiff, callGeminiAPI, try_catch, bind, in_world, lift, emit,
    ret, throw.
  destruct (Gemini.callGeminiAPI post _ _ _ (world st)) as [[response|e0] w].
  - destruct response as [ | |b|neg m x|text|elems|fields];
      cbn [parseResponseValue].
    5:{ destruct (parseReviewResponse_result text) as (r & -> & _).
        split; [discriminate|].
        intros (reply & w' & H & _ & Hcase). inversion H; subst.
        destruct Hcase as [Hr|(value & Hv & Hno & _)]; [discriminate|].
        inversion Hv; subst. exfalso. eapply Hno. reflexivity. }
    all: split;
      [ intros H; inversion H; subst; eexists _, w;
        split; [reflexivity|]; split; [reflexivity|]; right;
        eexists; split; [reflexivity|];
        split; [intros text; discriminate|];
        split; reflexivity
      | intros (reply & w' & H & Hst & Hcase); inversion H; subst;
        destruct Hcase as [Hr|(value & Hv & _ & Hp & _)];
        [discriminate|];
        inversion Hv; subst; cbn [parseResponseValue] in Hp;
        inversion Hp; subst; reflexivity ].
  - split.
    + intros H; inversion H; subst. exists (Throw e), w. auto.
    + intros (reply & w' & H & Hst & Hcase). inversion H; subst.
      destruct Hcase as [Hr|(value & Hv & _)]; [|discriminate].
      inversion Hr; subst. reflexivity.
Qed.

End FrameFacts.

(* ================================================================== *)
(** * What the fetcher lets through *)
(* ================================================================== *)

Lemma Subsequence_nil {A : Type} (all : list A) : Subsequence [] all.
Proof. induction all; constructor; assumption. Qed.

Lemma Subsequence_app {A : Type} (a b c d : list A) :
  Subsequence a b -> Subsequence c d -> Subsequence (a ++ c) (b ++ d).
Proof.
  intros Hab Hcd. induction Hab; simpl;
    [assumption | constructor; assumption | constructor; assumption].
Qed.

Section FetcherExtras.

Context {E : Engine} {W : Type} {B : Browser W}.

Lemma ensures_lift {A : Type} (r : Result A) :
  ensures (W:=W) (lift r) (fun a => r = Ok a).
Proof. intros st a st' Hrun. inversion Hrun; subst. reflexivity. Qed.

Lemma fetchChanges_reviewable context sourceCommit targetCommit changesList :
  forall diffs,
    Forall reviewable diffs ->
    ensures (fetchChanges context sourceCommit targetCommit changesList diffs)
            (Forall reviewable).
Proof.
  induction changesList as [|change rest IH]; intros diffs Hin;
    cbn [fetchChanges].
  - apply ensures_ret; assumption.
  - apply ensures_if; intros Hroom; [apply ensures_ret; assumption|].
    eapply ensures_bind; [apply ensures_any|]; intros changeItem _.
    eapply ensures_bind; [apply ensures_any|]; intros isFolder _.
    apply ensures_if; intros _; [apply IH; assumption|].
    eapply ensures_bind; [apply ensures_any|]; intros changeChangeType _.
    apply ensures_if; intros Hdel; [apply IH; assumption|].
    eapply ensures_bind; [apply ensures_any|]; intros filePath _.
    apply ensures_if; intros Hpath; [apply IH; assumption|].
    destruct filePath as [ | |b|neg m e|path|elems|fields];
      try apply ensures_throw.
    apply ensures_if; intros Hbin; [apply IH; assumption|].
    eapply ensures_bind; [apply ensures_any|]; intros newContent _.
    apply ensures_if; intros Hsize; [apply IH; assumption|].
    eapply ensures_bind with
      (Q := fun originalContent =>
              is_string (js_or changeChangeType (JStr (lit "edit")))
                        (lit "add") = true -> originalContent = []).
    { apply ensures_if; intros Hadd.
      - apply andb_true_iff in Hadd. destruct Hadd as [Hadd _].
        intros st a st' _ Hc. rewrite Hc in Hadd. discriminate.
      - apply ensures_ret. reflexivity. }
    intros originalContent Horig.
    apply ensures_if; intros Hempty; [apply IH; assumption|].
    apply IH. apply Forall_app. split; [assumption|].
    constructor; [|constructor].
    eexists. split; [reflexivity|]. cbn.
    repeat split; try assumption.
    + unfold js_or. destruct (truthy changeChangeType) eqn:Ht;
        [assumption | reflexivity].
    + intros ->. discriminate.
Qed.

(** X9.  Whatever the REST API answers, every record the fetcher returns
    is for a change that is no deletion and for a path that is not empty
    and has no binary extension in any letter case, and the record of an
    added file carries no original content. *)
Theorem extractFromADOApi_skips (st : State W) :
  exists diffs st',
    extractFromADOApi st = (Ok diffs, st')
    /\ Forall reviewable diffs.
Proof.
  destruct (extractFromADOApi_returns st) as (diffs & w & Hrun).
  exists diffs, (set_world st w). split; [assumption|].
  revert Hrun. generalize (set_world st w). revert st diffs.
  change (ensures extractFromADOApi (Forall reviewable)).
  unfold extractFromADOApi.
  eapply ensures_bind; [apply ensures_any|]; intros [context|] _;
    [|apply ensures_ret; constructor].
  apply ensures_try_catch; [|intros e; apply ensures_ret; constructor].
  repeat first
    [ apply ensures_ret; constructor
    | apply fetchChanges_reviewable; constructor
    | apply ensures_if; intros _
    | eapply ensures_bind; [apply ensures_any|]; intros ? _ ].
Qed.

Lemma fetchChanges_order context sourceCommit targetCommit changesList :
  forall diffs,
    ensures (fetchChanges context sourceCommit targetCommit changesList diffs)
            (fun out =>
               exists pushed,
                 out = diffs ++ pushed
                 /\ Subsequence (map recordName pushed)
                                (flat_map changePath changesList)).
Proof.
  induction changesList as [|change rest IH]; intros diffs;
    cbn [fetchChanges].
  - apply ensures_ret. exists []. rewrite app_nil_r. split; constructor.
  - assert (Hskip : ensures
              (fetchChanges context sourceCommit targetCommit rest diffs)
              (fun out =>
                 exists pushed,
                   out = diffs ++ pushed
                   /\ Subsequence (map recordName pushed)
                        (flat_map changePath (change :: rest)))).
    { intros st out st' Hrun. destruct (IH diffs st out st' Hrun)
        as (pushed & -> & Hsub).
      exists pushed. split; [reflexivity|].
      cbn [flat_map].
      apply (Subsequence_app (Subsequence_nil (changePath change)) Hsub). }
    apply ensures_if; intros Hroom.
    { apply ensures_ret. exists []. rewrite app_nil_r.
      split; [reflexivity|]. apply Subsequence_nil. }
    eapply ensures_bind; [apply ensures_lift|]; intros changeItem Hitem.
    eapply ensures_bind; [apply ensures_any|]; intros isFolder _.
    apply ensures_if; intros _; [exact Hskip|].
    eapply ensures_bind; [apply ensures_any|]; intros changeChangeType _.
    apply ensures_if; intros _; [exact Hskip|].
    eapply ensures_bind; [apply ensures_lift|]; intros filePath Hpath.
    apply ensures_if; intros _; [exact Hskip|].
    destruct filePath as [ | |b|neg m e|path|elems|fields];
      try apply ensures_throw.
    apply ensures_if; intros _; [exact Hskip|].
    eapply ensures_bind; [apply ensures_any|]; intros newContent _.
    apply ensures_if; intros _; [exact Hskip|].
    eapply ensures_bind; [apply ensures_any|]; intros originalContent _.
    apply ensures_if; intros _; [exact Hskip|].
    intros st out st' Hrun.
    destruct (IH _ _ _ _ Hrun) as (pushed & -> & Hsub).
    eexists (_ :: pushed). rewrite <- app_assoc. split; [reflexivity|].
    cbn [map recordName apiFilename flat_map].
    unfold changePath at 1. rewrite Hitem, Hpath.
    cbn [app]. apply SubKeep. assumption.
Qed.

(** X10.  The loop over the changes pushes at most one record per change,
    in the order of the changes: the file names of the records it returns
    are, in order, some of the paths of the change entries. *)
Theorem fetchChanges_in_order (context : ADOContext)
  (sourceCommit targetCommit : JValue) (changesList : list JValue)
  (st st' : State W) (diffs : list ChangeRecord) :
  fetchChanges context sourceCommit targetCommit changesList [] st
  = (Ok diffs, st') ->
  Subsequence (map recordName diffs) (flat_map changePath changesList).
Proof.
  intros Hrun.
  destruct (fetchChanges_order _ _ _ _ [] _ Hrun) as (pushed & -> & Hsub).
  exact Hsub.
Qed.

(** X11.  For a path without a lone surrogate [fetchFileContentByPath]
    never throws, whatever the network does; the one request it makes is
    for that path at that commit, and a content that is not empty is the
    body of a response with [ok]. *)
Theorem fetchFileContentByPath_fails_closed (context : ADOContext)
  (path : jstring) (commitId : JValue) (st : State W) :
  wellFormed path = true ->
  exists content w,
    fetchFileContentByPath context path commitId st
    = (Ok content, set_world st w)
    /\ w = snd (fetch (GetItem context path commitId) (world st))
    /\ (content <> [] ->
        exists response,
          fst (fetch (GetItem context path commitId) (world st)) = Ok response
          /\ ok response = true
          /\ text response = Ok content).
Proof.
  intros Hwf. unfold fetchFileContentByPath. rewrite Hwf.
  unfold try_catch, bind, in_world, lift, ret.
  destruct (fetch (GetItem context path commitId) (world st))
    as [[response|e] w] eqn:Hf; cbn [fst].
  - destruct (ok response) eqn:Hok.
    + destruct (text response) as [content|e] eqn:Ht.
      * exists content, w. repeat split. intros _. exists response. auto.
      * exists [], w. repeat split. congruence.
    + destruct (text response) as [errorText|e];
        exists [], w; repeat split; congruence.
  - exists [], w. repeat split. congruence.
Qed.

End FetcherExtras.

(* ================================================================== *)
(** * The call to the model *)
(* ================================================================== *)

Lemma replyText_value data text :
  Gemini.replyText data = Ok text -> text = JStr [] \/ truthy text = true.
Proof.
  unfold Gemini.replyText.
  destruct (get_prop data (lit "candidates")); cbn [rbind]; [|discriminate].
  intros H; inversion H. unfold js_or.
  match goal with |- context [if ?b then _ else _] => destruct b eqn:Ht end;
    auto.
Qed.

Lemma replyText_returns data :
  readable data = true ->
  exists text,
    Gemini.replyText data = Ok text
    /\ (text = JStr [] \/ truthy text = true).
Proof.
  intros Hr.
  destruct (get_prop data (lit "candidates")) as [candidates|e] eqn:Hc.
  - destruct (Gemini.replyText data) as [text|e] eqn:Ht.
    + exists text. split; [reflexivity|]. eapply replyText_value; eassumption.
    + unfold Gemini.replyText in Ht. rewrite Hc in Ht. discriminate.
  - destruct data; simpl in *; discriminate.
Qed.

Lemma replyText_first_part data text :
  firstPartText data text ->
  Gemini.replyText data = Ok (js_or text (JStr [])).
Proof.
  intros (fields & candidate & candidates & content & part & parts
          & -> & Hc & Hk & Hp & Ht).
  unfold Gemini.replyText. cbn [get_prop rbind]. rewrite Hc.
  cbn [Gemini.firstOf]. unfold get_prop_opt at 3. cbn [get_prop].
  rewrite Hk. unfold get_prop_opt at 2. cbn [get_prop]. rewrite Hp.
  cbn [Gemini.firstOf]. unfold get_prop_opt. cbn [get_prop]. rewrite Ht.
  reflexivity.
Qed.

Section GeminiFacts.

Context {E : Engine} {W : Type}.
Variable post : jstring -> JValue -> W -> Result Response * W.

(** X12.  A response that is not [ok] never counts as a reply: the call
    throws.  When the body is JSON other than [null], what is thrown is an
    [Error] whose message is the [error.message] of the body, when there
    is one that is truthy, and [API error: ] with the status otherwise. *)
Theorem callGeminiAPI_rejected (prompt apiKey model : jstring) (w w' : W)
  (response : Response) :
  post (Gemini.endpoint model apiKey)
       (JObj [(lit "contents", Gemini.contents (JStr prompt));
              (lit "generationConfig", Gemini.generationConfig);
              (lit "safetySettings", Gemini.safetySettings)]) w
  = (Ok response, w') ->
  ok response = false ->
  exists e,
    Gemini.callGeminiAPI post prompt apiKey model w = (Throw e, w')
    /\ forall error,
         json response = Ok error -> readable error = true ->
         let message :=
           get_prop_opt (get_prop_opt error (lit "error")) (lit "message") in
         e = Exn PlainError
               (if truthy message then display message
                else lit "API error: "
                       ++ show_nat (N.to_nat (status response))).
Proof.
  intros Hpost Hok.
  unfold Gemini.callGeminiAPI. unfold bind at 1. rewrite Hpost, Hok.
  cbn [negb]. unfold bind, lift, throw.
  destruct (json response) as [error|e0] eqn:Hj.
  - unfold Gemini.apiError.
    destruct (get_prop error (lit "error")) as [inner|e1] eqn:Hi;
      cbn [rbind].
    + eexists. split; [reflexivity|].
      intros error' H Hr. inversion H; subst error'. cbv zeta.
      replace (get_prop_opt error (lit "error")) with inner
        by (unfold get_prop_opt; rewrite Hi; reflexivity).
      reflexivity.
    + eexists. split; [reflexivity|].
      intros error' H Hr. inversion H; subst error'.
      destruct error; simpl in *; discriminate.
  - eexists. split; [reflexivity|]. intros error H. discriminate.
Qed.

(** X13.  On a response with [ok] whose body is JSON other than [null]
    the call returns and does not throw, whatever the shape of the body:
    what it returns is the empty string or a truthy value, and for a body
    of the documented shape it is the text of the first part of the first
    candidate, or the empty string when that text is falsy. *)
Theorem callGeminiAPI_reply (prompt apiKey model : jstring) (w w' : W)
  (response : Response) (data : JValue) :
  post (Gemini.endpoint model apiKey)
       (JObj [(lit "contents", Gemini.contents (JStr prompt));
              (lit "generationConfig", Gemini.generationConfig);
              (lit "safetySettings", Gemini.safetySettings)]) w
  = (Ok response, w') ->
  ok response = true ->
  json response = Ok data ->
  readable data = true ->
  exists text,
    Gemini.callGeminiAPI post prompt apiKey model w = (Ok text, w')
    /\ (text = JStr [] \/ truthy text = true)
    /\ forall found, firstPartText data found -> text = js_or found (JStr []).
Proof.
  intros Hpost Hok Hj Hr.
  unfold Gemini.callGeminiAPI. unfold bind at 1. rewrite Hpost, Hok.
  cbn [negb]. unfold bind, lift. rewrite Hj.
  destruct (replyText_returns data Hr) as (text & Ht & Hcases).
  rewrite Ht. exists text. repeat split; try assumption.
  intros found Hfound. apply replyText_first_part in Hfound. congruence.
Qed.

(** X14.  When [handleCodeReview] of the service worker returns, the
    settings held a truthy [apiKey], one request was made and its response
    had [ok], and the result is [{ success: true, content }] with a
    content that is the empty string or truthy. *)
Theorem handleCodeReview_success (codeData settings : JValue) (w w' : W)
  (result : JValue) :
  Gemini.handleCodeReview post codeData settings w = (Ok result, w') ->
  exists apiKey content url body response,
    get_prop settings (lit "apiKey") = Ok apiKey
    /\ truthy apiKey = true
    /\ post url body w = (Ok response, w')
    /\ ok response = true
    /\ result = JObj [(lit "success", JBool true); (lit "content", content)]
    /\ (content = JStr [] \/ truthy content = true).
Proof.
  unfold Gemini.handleCodeReview.
  assert (Hmain :
    forall apiKey model,
      get_prop settings (lit "apiKey") = Ok apiKey ->
      (if negb (truthy apiKey)
       then throw (Exn PlainError (lit "API key not configured"))
       else
         prompt <- lift (get_prop codeData (lit "prompt")) ;;
         response <-
           post (Gemini.endpoint (display model) (display apiKey))
                (JObj [(lit "contents", Gemini.contents prompt);
                       (lit "generationConfig", Gemini.generationConfig)]) ;;
         if negb (ok response)
         then
           error <- lift (json response) ;;
           thrown <- lift (Gemini.apiError error (status response)) ;;
           throw thrown
         else
           data <- lift (json response) ;;
           content <- lift (Gemini.replyText data) ;;
           ret (JObj [(lit "success", JBool true); (lit "content", content)]))
        w = (Ok result, w') ->
      exists apiKey content url body response,
        get_prop settings (lit "apiKey") = Ok apiKey
        /\ truthy apiKey = true
        /\ post url body w = (Ok response, w')
        /\ ok response = true
        /\ result = JObj [(lit "success", JBool true); (lit "content", content)]
        /\ (content = JStr [] \/ truthy content = true)).
  { intros apiKey model Hkey.
    destruct (truthy apiKey) eqn:Htruthy; cbn [negb]; [|discriminate].
    unfold bind at 1. unfold lift at 1.
    destruct (get_prop codeData (lit "prompt")) as [prompt|e]; [|discriminate].
    unfold bind at 1.
    destruct (post _ _ w) as [[response|e] w1] eqn:Hpost; [|discriminate].
    destruct (ok response) eqn:Hok; cbn [negb].
    - unfold bind, lift, ret.
      destruct (json response) as [data|e]; [|discriminate].
      destruct (Gemini.replyText data) as [content|e] eqn:Hreply;
        [|discriminate].
      intros H; inversion H; subst.
      exists apiKey, content. eexists _, _, response.
      repeat split; try eassumption.
      eapply replyText_value; eassumption.
    - unfold bind, lift, throw.
      destruct (json response) as [error|e]; [|discriminate].
      destruct (Gemini.apiError error (status response)); discriminate. }
  destruct settings as [ | |b|neg m e|s|elems|fields];
    try discriminate;
    unfold bind at 1; unfold lift at 1; cbn [get_prop];
    unfold bind at 1; unfold lift at 1; cbn [get_prop];
    apply Hmain; reflexivity.
Qed.

End GeminiFacts.

(* ================================================================== *)
(** * The popup and the stored settings *)
(* ================================================================== *)

Lemma lookup_obj_set key key' v store :
  lookup key (obj_set key' v store)
  = if str_eqb key' key then Some v else lookup key store.
Proof.
  induction store as [|[k v0] rest IH]; simpl.
  - reflexivity.
  - destruct (str_eqb k key') eqn:Hk; simpl.
    + apply str_eqb_eq in Hk. subst k.
      destruct (str_eqb key' key); reflexivity.
    + rewrite IH. destruct (str_eqb k key) eqn:Hkk; [|reflexivity].
      apply str_eqb_eq in Hkk. subst k. rewrite str_eqb_sym, Hk. reflexivity.
Qed.

Lemma get_set_other key items : forall store,
  forallb (fun item => negb (str_eqb (lit (fst item)) (lit key))) items = true ->
  Popup.get (Popup.set items store) key = Popup.get store key.
Proof.
  induction items as [|[k v] items IH]; intros store; simpl; [reflexivity|].
  intros H. apply andb_true_iff in H. destruct H as [Hk Hrest].
  unfold Popup.set in *. simpl. rewrite IH by assumption.
  unfold Popup.get. rewrite lookup_obj_set.
  apply negb_true_iff in Hk. rewrite Hk. reflexivity.
Qed.

Lemma get_set_last key k v items store :
  str_eqb (lit k) (lit key) = true ->
  forallb (fun item => negb (str_eqb (lit (fst item)) (lit key))) items = true ->
  Popup.get (Popup.set ((k, v) :: items) store) key = v.
Proof.
  intros Hk Hrest.
  change (Popup.set ((k, v) :: items) store)
    with (Popup.set items (obj_set (lit k) v store)).
  rewrite get_set_other by assumption.
  unfold Popup.get. rewrite lookup_obj_set, Hk. reflexivity.
Qed.

Ltac stored :=
  repeat first
    [ rewrite get_set_last by reflexivity
    | match goal with
      | |- context [Popup.get (Popup.set ((?k, ?v) :: ?items) ?store) ?key] =>
          change (Popup.set ((k, v) :: items) store)
            with (Popup.set items (obj_set (lit k) v store))
      end ].

(** X15.  What [saveSettings] stores is what [triggerReview] sends:
    after a save, whatever was stored before, the settings of the
    [startReview] message are those of the form, the key trimmed, every
    check box as it is, the model and the depth as selected, or the
    default for a selection that is empty. *)
Theorem saveSettings_round_trip (form : Popup.Form) (store : Popup.Storage) :
  Popup.reviewSettings (trim (Popup.apiKeyInput form))
                       (Popup.saveSettings form store)
  = formSettings form.
Proof.
  unfold Popup.reviewSettings, Popup.saveSettings, formSettings.
  set (items := [("geminiApiKey", _); _; _; _; _; _; _; _; _; _]).
  assert (Hget : forall key v,
            In (key, v) items ->
            Popup.get (Popup.set items store) key = v).
  { intros key v Hin. subst items.
    repeat (destruct Hin as [Hin|Hin];
            [inversion Hin; subst; clear Hin; stored; reflexivity|]).
    destruct Hin. }
  rewrite (Hget "model" (JStr (Popup.modelSelect form)))
    by (subst items; simpl; tauto).
  rewrite (Hget "reviewDepth" (JStr (Popup.reviewDepthSelect form)))
    by (subst items; simpl; tauto).
  rewrite (Hget "checkBugs" (JBool (Popup.checkBugs form)))
    by (subst items; simpl; tauto).
  rewrite (Hget "checkSecurity" (JBool (Popup.checkSecurity form)))
    by (subst items; simpl; tauto).
  rewrite (Hget "checkPerformance" (JBool (Popup.checkPerformance form)))
    by (subst items; simpl; tauto).
  rewrite (Hget "checkStyle" (JBool (Popup.checkStyle form)))
    by (subst items; simpl; tauto).
  rewrite (Hget "checkNaming" (JBool (Popup.checkNaming form)))
    by (subst items; simpl; tauto).
  rewrite (Hget "checkDocs" (JBool (Popup.checkDocs form)))
    by (subst items; simpl; tauto).
  rewrite (Hget "checkTests" (JBool (Popup.checkTests form)))
    by (subst items; simpl; tauto).
  destruct form as [k m r b1 b2 b3 b4 b5 b6 b7]; cbn.
  destruct b1, b2, b3, b4, b5, b6, b7; reflexivity.
Qed.

Lemma get_unset store key :
  lookup (lit key) store = None -> Popup.get store key = JUndefined.
Proof. intros H. unfold Popup.get. rewrite H. reflexivity. Qed.

(** X16.  With none of the settings stored, [triggerReview] sends the
    defaults, and they are the ones the service worker stores when the
    extension is installed: sending before or after the installation
    defaults are stored makes no difference. *)
Theorem reviewSettings_defaults (apiKey : jstring) (store : Popup.Storage) :
  unset store ->
  Popup.reviewSettings apiKey store
  = Popup.reviewSettings apiKey (Popup.installDefaults store)
  /\ Popup.reviewSettings apiKey store
     = JObj [(lit "apiKey", JStr apiKey);
             (lit "model", JStr (lit "gemini-2.5-flash-lite"));
             (lit "reviewDepth", JStr (lit "standard"));
             (lit "focusAreas",
              JObj [(lit "bugs", JBool true);
                    (lit "security", JBool true);
                    (lit "performance", JBool true);
                    (lit "style", JBool true);
                    (lit "naming", JBool false);
                    (lit "docs", JBool false);
                    (lit "tests", JBool false)])].
Proof.
  intros Hunset. unfold unset in Hunset.
  repeat match type of Hunset with
         | Forall _ (_ :: _) =>
             let H := fresh "Hkey" in
             apply Forall_cons_iff in Hunset; destruct Hunset as [H Hunset];
             apply get_unset in H
         end.
  assert (Hplain : Popup.reviewSettings apiKey store
                   = JObj [(lit "apiKey", JStr apiKey);
                           (lit "model", JStr (lit "gemini-2.5-flash-lite"));
                           (lit "reviewDepth", JStr (lit "standard"));
                           (lit "focusAreas",
                            JObj [(lit "bugs", JBool true);
                                  (lit "security", JBool true);
                                  (lit "performance", JBool true);
                                  (lit "style", JBool true);
                                  (lit "naming", JBool false);
                                  (lit "docs", JBool false);
                                  (lit "tests", JBool false)])]).
  { unfold Popup.reviewSettings.
    rewrite Hkey, Hkey0, Hkey1, Hkey2, Hkey3, Hkey4, Hkey5, Hkey6, Hkey7.
    reflexivity. }
  split; [|exact Hplain]. rewrite Hplain.
  unfold Popup.reviewSettings, Popup.installDefaults.
  set (items := [("model", _); _; _; _; _; _; _; _; _]).
  assert (Hget : forall key v,
            In (key, v) items ->
            Popup.get (Popup.set items store) key = v).
  { intros key v Hin. subst items.
    repeat (destruct Hin as [Hin|Hin];
            [inversion Hin; subst; clear Hin; stored; reflexivity|]).
    destruct Hin. }
  rewrite (Hget "model" (JStr (lit "gemini-2.5-flash-lite")))
    by (subst items; simpl; tauto).
  rewrite (Hget "reviewDepth" (JStr (lit "standard")))
    by (subst items; simpl; tauto).
  rewrite (Hget "checkBugs" (JBool true)) by (subst items; simpl; tauto).
  rewrite (Hget "checkSecurity" (JBool true)) by (subst items; simpl; tauto).
  rewrite (Hget "checkPerformance" (JBool true))
    by (subst items; simpl; tauto).
  rewrite (Hget "checkStyle" (JBool true)) by (subst items; simpl; tauto).
  rewrite (Hget "checkNaming" (JBool false)) by (subst items; simpl; tauto).
  rewrite (Hget "checkDocs" (JBool false)) by (subst items; simpl; tauto).
  rewrite (Hget "checkTests" (JBool false)) by (subst items; simpl; tauto).
  reflexivity.
Qed.

Lemma stripIconFrom_run icon : forall seen ws text message,
  forallb (fun c => negb (isWhiteSpace c)) icon = true ->
  isWhiteSpace ws = true ->
  (seen = true \/ icon <> []) ->
  Popup.stripIconFrom seen (icon ++ ws :: text) message = text.
Proof.
  induction icon as [|c icon IH]; intros seen ws text message Hicon Hws Hseen;
    simpl.
  - rewrite Hws. destruct Hseen as [-> | Hne]; [reflexivity | congruence].
  - simpl in Hicon. apply andb_true_iff in Hicon. destruct Hicon as [Hc Hicon].
    apply negb_true_iff in Hc. rewrite Hc. apply IH; auto.
Qed.

Lemma stripIconFrom_solid rest : forall seen message,
  forallb (fun c => negb (isWhiteSpace c)) rest = true ->
  Popup.stripIconFrom seen rest message = message.
Proof.
  induction rest as [|c rest IH]; intros seen message Hall; simpl;
    [reflexivity|].
  simpl in Hall. apply andb_true_iff in Hall. destruct Hall as [Hc Hall].
  apply negb_true_iff in Hc. rewrite Hc. apply IH. assumption.
Qed.

(** X17.  [updateStatus] shows a message without its leading icon: a
    first word followed by white space goes with the one white space
    after it; a message that is one word, or that starts with white
    space, is shown as it is. *)
Theorem stripIcon_text (icon text : jstring) (ws : N) :
  icon <> [] ->
  forallb (fun c => negb (isWhiteSpace c)) icon = true ->
  isWhiteSpace ws = true ->
  Popup.stripIcon (icon ++ ws :: text) = text
  /\ Popup.stripIcon icon = icon
  /\ Popup.stripIcon (ws :: text) = ws :: text.
Proof.
  intros Hne Hicon Hws. unfold Popup.stripIcon. repeat split.
  - apply stripIconFrom_run; auto.
  - apply stripIconFrom_solid. assumption.
  - simpl. rewrite Hws. reflexivity.
Qed.

(* ================================================================== *)
(** * The filters of the issues panel *)
(* ================================================================== *)

Lemma countSeverities_sum issues : forall c w s c' w' s',
  Panel.countSeverities issues c w s = (c', w', s') ->
  c' + w' + s' = c + w + s + List.length (filter classified issues).
Proof.
  induction issues as [|issue rest IH]; intros c w s c' w' s';
    cbn [Panel.countSeverities filter].
  - intros H; inversion H; subst. simpl. lia.
  - unfold classified at 1.
    destruct (Panel.named "critical" (Panel.severity issue)); cbn [orb].
    { intros H. apply IH in H. simpl. lia. }
    destruct (Panel.named "warning" (Panel.severity issue)); cbn [orb].
    { intros H. apply IH in H. simpl. lia. }
    destruct (Panel.named "suggestion" (Panel.severity issue)).
    { intros H. apply IH in H. simpl. lia. }
    apply IH.
Qed.

Lemma countSeverities_same issues : forall others c w s,
  map Panel.severity issues = map Panel.severity others ->
  Panel.countSeverities issues c w s = Panel.countSeverities others c w s.
Proof.
  induction issues as [|issue rest IH]; intros [|other others] c w s H;
    try discriminate; [reflexivity|].
  cbn [map] in H. inversion H as [[Hsev Hrest]].
  cbn [Panel.countSeverities]. rewrite Hsev.
  rewrite !(IH others) by assumption. reflexivity.
Qed.

Lemma relabel_again summaryCount totalCount counts btn :
  Panel.relabel summaryCount totalCount counts
    (Panel.relabel summaryCount totalCount counts btn)
  = Panel.relabel summaryCount totalCount counts btn.
Proof.
  destruct counts as [[c w] s]. unfold Panel.relabel.
  cbn [Panel.filter Panel.label].
  destruct (Panel.named "all" (Panel.filter btn)); [reflexivity|].
  destruct (Panel.named "summary" (Panel.filter btn)); [reflexivity|].
  destruct (Panel.named "critical" (Panel.filter btn)); [reflexivity|].
  destruct (Panel.named "warning" (Panel.filter btn)); [reflexivity|].
  destruct (Panel.named "suggestion" (Panel.filter btn)); reflexivity.
Qed.

(** Showing and hiding changes neither the counts nor, once they are
    written, the buttons. *)
Lemma updateFilterCounts_shown page displays nodes :
  map Panel.severity nodes = map Panel.severity (Panel.issueNodes page) ->
  List.length displays = List.length (Panel.summaryDisplays page) ->
  forall again,
    map Panel.severity again = map Panel.severity nodes ->
    forall displays',
      List.length displays' = List.length displays ->
      Panel.updateFilterCounts
        {| Panel.hasPanel := Panel.hasPanel page;
           Panel.summaryDisplays := displays';
           Panel.issueNodes := again;
           Panel.buttons :=
             Panel.buttons
               (Panel.updateFilterCounts
                  {| Panel.hasPanel := Panel.hasPanel page;
                     Panel.summaryDisplays := displays;
                     Panel.issueNodes := nodes;
                     Panel.buttons := Panel.buttons page |}) |}
      = Panel.updateFilterCounts
          {| Panel.hasPanel := Panel.hasPanel page;
             Panel.summaryDisplays := displays';
             Panel.issueNodes := again;
             Panel.buttons := Panel.buttons page |}.
Proof.
  intros Hsev Hlen again Hagain displays' Hlen'.
  unfold Panel.updateFilterCounts. cbn [Panel.hasPanel Panel.summaryDisplays
    Panel.issueNodes Panel.buttons].
  destruct (Panel.hasPanel page); cbn [negb]; [|reflexivity].
  cbn [Panel.buttons]. f_equal. rewrite map_map.
  assert (Hc : Panel.countSeverities again 0 0 0
               = Panel.countSeverities nodes 0 0 0).
  { apply countSeverities_same. assumption. }
  assert (Hn : List.length again = List.length nodes).
  { rewrite <- (length_map Panel.severity again), Hagain, length_map.
    reflexivity. }
  rewrite Hc, Hn, Hlen'. apply map_ext. intros btn. apply relabel_again.
Qed.

Lemma updateFilterCounts_fields page :
  Panel.updateFilterCounts page
  = {| Panel.hasPanel := Panel.hasPanel page;
       Panel.summaryDisplays := Panel.summaryDisplays page;
       Panel.issueNodes := Panel.issueNodes page;
       Panel.buttons := Panel.buttons (Panel.updateFilterCounts page) |}.
Proof.
  unfold Panel.updateFilterCounts.
  destruct (Panel.hasPanel page) eqn:H; cbn [negb]; [reflexivity|].
  destruct page; cbn in *. rewrite H. reflexivity.
Qed.

(** Each filter sets the display of every summary to one value and that
    of every issue to a value that depends on its severity alone. *)
Lemma filterIssues_shape chosen :
  exists value show,
    (forall issue, Panel.severity (show issue) = Panel.severity issue)
    /\ (forall a b, Panel.severity a = Panel.severity b -> show a = show b)
    /\ forall page,
         Panel.filterIssues chosen page
         = Panel.updateFilterCounts
             {| Panel.hasPanel := Panel.hasPanel page;
                Panel.summaryDisplays :=
                  map (fun _ => lit value) (Panel.summaryDisplays page);
                Panel.issueNodes := map show (Panel.issueNodes page);
                Panel.buttons := Panel.buttons page |}.
Proof.
  unfold Panel.filterIssues.
  destruct (Panel.named "all" chosen).
  { exists "block", (Panel.withDisplay "block"). repeat split.
    intros a b H. unfold Panel.withDisplay. rewrite H. reflexivity. }
  destruct (Panel.named "summary" chosen).
  { exists "block", (Panel.withDisplay "none"). repeat split.
    intros a b H. unfold Panel.withDisplay. rewrite H. reflexivity. }
  exists "none",
    (fun issue => if Panel.same (Panel.severity issue) chosen
                  then Panel.withDisplay "block" issue
                  else Panel.withDisplay "none" issue).
  repeat split.
  - intros issue. destruct (Panel.same _ _); reflexivity.
  - intros a b H. unfold Panel.withDisplay. rewrite H. reflexivity.
Qed.

(** X18.  A filter has no memory: choosing a filter after another leaves
    the page as choosing it alone does, the display of every summary and
    issue and the text of every button included.  In particular [all]
    shows everything again, and the counts on the buttons do not depend
    on the filter chosen. *)
Theorem filterIssues_last_wins (first second : option jstring)
  (page : Panel.Page) :
  Panel.filterIssues second (Panel.filterIssues first page)
  = Panel.filterIssues second page.
Proof.
  destruct (filterIssues_shape first) as (v1 & g1 & Hs1 & _ & H1).
  destruct (filterIssues_shape second) as (v2 & g2 & Hs2 & Hd2 & H2).
  rewrite H1, (H2 page), H2.
  set (shown := {| Panel.hasPanel := Panel.hasPanel page;
                   Panel.summaryDisplays :=
                     map (fun _ => lit v1) (Panel.summaryDisplays page);
                   Panel.issueNodes := map g1 (Panel.issueNodes page);
                   Panel.buttons := Panel.buttons page |}).
  pose proof (updateFilterCounts_fields shown) as Hfields.
  apply (f_equal Panel.hasPanel) in Hfields as Hpanel.
  apply (f_equal Panel.summaryDisplays) in Hfields as Hsummaries.
  apply (f_equal Panel.issueNodes) in Hfields as Hissues.
  cbn [Panel.hasPanel Panel.summaryDisplays Panel.issueNodes shown]
    in Hpanel, Hsummaries, Hissues.
  rewrite Hpanel, Hsummaries, Hissues. unfold shown.
  rewrite updateFilterCounts_shown.
  - rewrite !map_map. f_equal. f_equal.
    apply map_ext. intros issue. apply Hd2, Hs1.
  - rewrite map_map. apply map_ext. assumption.
  - rewrite length_map. reflexivity.
  - rewrite map_map. apply map_ext. intros issue. apply Hs2.
  - rewrite !length_map. reflexivity.
Qed.

(** X19.  The counts [updateFilterCounts] writes on the buttons of the
    panel: [All] counts every summary and every issue, and the three
    severity counts together count the issues whose severity is one of
    the three words; an issue with any other severity is counted under
    [All] and under no severity. *)
Theorem updateFilterCounts_totals (page : Panel.Page) :
  Panel.hasPanel page = true ->
  exists criticalCount warningCount suggestionCount,
    Panel.buttons (Panel.updateFilterCounts page)
    = map (Panel.relabel
             (List.length (Panel.summaryDisplays page))
             (List.length (Panel.summaryDisplays page)
              + List.length (Panel.issueNodes page))
             (criticalCount, warningCount, suggestionCount))
          (Panel.buttons page)
    /\ criticalCount + warningCount + suggestionCount
       = List.length (filter classified (Panel.issueNodes page))
    /\ criticalCount + warningCount + suggestionCount
       + List.length (filter (fun issue => negb (classified issue))
                             (Panel.issueNodes page))
       = List.length (Panel.issueNodes page).
Proof.
  intros Hpanel. unfold Panel.updateFilterCounts. rewrite Hpanel. cbn [negb].
  destruct (Panel.countSeverities (Panel.issueNodes page) 0 0 0)
    as [[c w] s] eqn:Hc.
  exists c, w, s. split; [reflexivity|].
  apply countSeverities_sum in Hc. split; [lia|].
  pose proof (filter_length classified (Panel.issueNodes page)). lia.
Qed.

(* ================================================================== *)
(** * The strategies that scan the DOM *)
(* ================================================================== *)

Lemma StronglySorted_snoc (l : list nat) (n : nat) :
  StronglySorted lt l -> Forall (fun x => x < n) l ->
  StronglySorted lt (l ++ [n]).
Proof.
  induction 1 as [|x l Hs IH Hx]; intros Hall; simpl.
  - repeat constructor.
  - inversion Hall; subst. constructor; [auto|].
    apply Forall_app. split; [assumption|]. repeat constructor. assumption.
Qed.

Section DomFacts.

Context {D : Type} {P : DomScan.Dom D}.
Variable d : D.

Import DomScan.

Lemma orDefault_named name fallback :
  lit fallback <> [] -> orDefault name fallback <> [].
Proof.
  intros H. unfold orDefault. destruct name as [[|c rest]|]; try assumption.
  discriminate.
Qed.

Lemma trimmedText_nonBlank el :
  isEmpty (trimmedText d el) = false -> nonBlank (trimmedText d el).
Proof.
  intros H. apply trim_nonBlank. intros Hn. unfold trimmedText in H.
  rewrite Hn in H. discriminate.
Qed.

Lemma extractAllVisibleCode_trimmed container :
  trim (extractAllVisibleCode d container) = extractAllVisibleCode d container.
Proof.
  unfold extractAllVisibleCode. cbv zeta.
  destruct (negb (isEmpty
                    (querySelectorAll d (Some container) codeElementSelector)));
    [apply trim_idempotent|].
  destruct (querySelector d (Some container) mainContentSelector);
    [apply trim_idempotent | reflexivity].
Qed.

(** With one code element the text of that element is the content. *)
Lemma extractAllVisibleCode_single container el :
  querySelectorAll d (Some container) codeElementSelector = [el] ->
  textContent d el <> [] ->
  extractAllVisibleCode d container = trim (textContent d el ++ newline).
Proof.
  intros Hq Ht. unfold extractAllVisibleCode. rewrite Hq.
  cbn [isEmpty negb flat_map]. rewrite app_nil_r.
  destruct (textContent d el); [congruence | reflexivity].
Qed.

(* ---- what a strategy can throw ---- *)

Lemma classOf_throws callee el e :
  classOf d callee el = Throw e -> classThrown d e.
Proof.
  destruct el as [x|]; cbn [classOf]; [|discriminate].
  unfold lowerCased. destruct (className d x) eqn:Hc; [discriminate|].
  intros H; inversion H; subst. split; [reflexivity|].
  exists x. assumption.
Qed.

Lemma combinedClassOf_throws line e :
  combinedClassOf d line = Throw e -> classThrown d e.
Proof.
  unfold combinedClassOf.
  destruct (classOf d _ (Some line)) as [lineClass|e0] eqn:Hl; cbn [rbind].
  - destruct (classOf d _ (parentElement d line)) as [parentClass|e1] eqn:Hp;
      cbn [rbind]; [discriminate|].
    intros H; inversion H; subst. eapply classOf_throws; eassumption.
  - intros H; inversion H; subst. eapply classOf_throws; eassumption.
Qed.

Lemma getCurrentFileName_throws e :
  getCurrentFileName d = Throw e -> nameThrown d e.
Proof.
  intros Hname. split; [assumption|]. revert Hname.
  unfold getCurrentFileName.
  destruct (firstFileName d fileNameSelectors); [discriminate|].
  destruct (matchPathParam (href d)) as [captured|]; [|discriminate].
  destruct (decodeURIComponent captured) as [decoded|e0] eqn:Hd;
    cbn [rbind]; [discriminate|].
  intros H; inversion H; subst. split; [reflexivity|].
  exists captured. auto.
Qed.

(* ---- the entries pushed by the three scans ---- *)

Lemma markerAdditions_entries markers : forall idx,
  Forall (fun a => idx < line a /\ nonBlank (lineContent a))
         (markerAdditions d idx markers)
  /\ StronglySorted lt (map line (markerAdditions d idx markers)).
Proof.
  induction markers as [|marker rest IH]; intros idx; simpl.
  - split; constructor.
  - destruct (IH (S idx)) as [Hall Hs].
    assert (Hall' : Forall (fun a => idx < line a /\ nonBlank (lineContent a))
                      (markerAdditions d (S idx) rest)).
    { eapply Forall_impl; [|exact Hall]. simpl. intros a [? ?]. split; [lia|assumption]. }
    destruct (isEmpty (trimmedText d marker)
              || isEmpty (trim (stripLineNumber (trimmedText d marker))))%bool
      eqn:Hskip; [split; assumption|].
    apply orb_false_iff in Hskip. destruct Hskip as [_ Hclean].
    split.
    + constructor; [|assumption]. simpl. split; [lia|].
      apply trim_nonBlank. apply isEmpty_false. assumption.
    + simpl. constructor; [assumption|].
      rewrite Forall_map. eapply Forall_impl; [|exact Hall].
      simpl. intros a [? _]. assumption.
Qed.

Lemma panelAdditions_entries lines : forall idx entries,
  panelAdditions d idx lines = Ok entries ->
  Forall (fun a => idx < line a /\ nonBlank (lineContent a)) entries
  /\ StronglySorted lt (map line entries).
Proof.
  induction lines as [|l rest IH]; intros idx entries; cbn [panelAdditions].
  - intros H; inversion H. split; constructor.
  - destruct (classOf d _ (Some l)) as [lineClass|e]; cbn [rbind];
      [|discriminate].
    destruct (classOf d _ (parentElement d l)) as [parentClass|e];
      cbn [rbind]; [|discriminate].
    destruct (panelAdditions d (S idx) rest) as [more|e] eqn:Hmore;
      cbn [rbind]; [|discriminate].
    destruct (IH (S idx) more Hmore) as [Hall Hs].
    assert (Hall' : Forall (fun a => idx < line a /\ nonBlank (lineContent a))
                      more).
    { eapply Forall_impl; [|exact Hall]. simpl. intros a [? ?].
      split; [lia|assumption]. }
    destruct (panelIsAddition d lineClass parentClass l
              && negb (isEmpty (trimmedText d l)))%bool eqn:Hadd;
      intros H; inversion H; subst; [|split; assumption].
    apply andb_true_iff in Hadd. destruct Hadd as [_ Htext].
    apply negb_true_iff in Htext.
    split.
    + constructor; [|assumption]. simpl. split; [lia|].
      apply trimmedText_nonBlank. assumption.
    + simpl. constructor; [assumption|].
      rewrite Forall_map. eapply Forall_impl; [|exact Hall].
      simpl. intros a [? _]. assumption.
Qed.

Lemma panelAdditions_throws lines : forall idx e,
  panelAdditions d idx lines = Throw e -> classThrown d e.
Proof.
  induction lines as [|l rest IH]; intros idx e; cbn [panelAdditions];
    [discriminate|].
  destruct (classOf d _ (Some l)) as [lineClass|e0] eqn:Hl; cbn [rbind].
  2:{ intros H; inversion H; subst. eapply classOf_throws; eassumption. }
  destruct (classOf d _ (parentElement d l)) as [parentClass|e0] eqn:Hp;
    cbn [rbind].
  2:{ intros H; inversion H; subst. eapply classOf_throws; eassumption. }
  destruct (panelAdditions d (S idx) rest) as [more|e0] eqn:Hmore;
    cbn [rbind].
  - destruct (_ && _)%bool; discriminate.
  - intros H; inversion H; subst. eapply IH; eassumption.
Qed.

Lemma entries_ascending idx entries :
  Forall (fun a => idx < line a /\ nonBlank (lineContent a)) entries ->
  StronglySorted lt (map line entries) ->
  ascending entries.
Proof.
  intros Hall Hs. split; [assumption|].
  eapply Forall_impl; [|exact Hall]. simpl. tauto.
Qed.

(** Text built from entries that are not blank is not blank. *)
Lemma rendered_nonblank (render : LineEntry -> jstring) entries :
  (forall a c, In c (lineContent a) -> In c (render a)) ->
  entries <> [] ->
  Forall (fun a => nonBlank (lineContent a)) entries ->
  trim (flat_map render entries) <> [].
Proof.
  intros Hr Hne Hall. destruct entries as [|a rest]; [congruence|].
  inversion Hall; subst.
  destruct (nonBlank_unit H1) as (c & Hc & Hw).
  apply (trim_nonempty _ c); [|assumption].
  simpl. apply in_or_app. left. apply Hr. assumption.
Qed.

Lemma sideBySideRecord_scanned name addedContent added el :
  trim addedContent <> [] ->
  scanned (sideBySideRecord name addedContent added el).
Proof.
  intros H. repeat split; simpl; try discriminate.
  - apply orDefault_named. discriminate.
  - assumption.
  - apply trim_idempotent.
Qed.

(** The side-by-side strategy returns nothing or one record, made of the
    marked lines when there is one with text, of the added lines of the
    right panel otherwise. *)
Lemma sideBySide_shape (diffs : list PageDiff) :
  extractFromSideBySideView d = Ok diffs ->
  diffs = []
  \/ exists diff first more,
       diffs = [diff]
       /\ scanned diff
       /\ additions diff = Some (first :: more)
       /\ ascending (first :: more)
       /\ deletions diff = Some []
       /\ hasNewCode diff = Some true.
Proof.
  unfold extractFromSideBySideView.
  destruct (getCurrentFileName d) as [name|e]; cbn [rbind]; [|discriminate].
  set (markers := querySelectorAll d None additionMarkerSelector).
  destruct (markerAdditions_entries markers 0) as [Hall Hs].
  pose proof (entries_ascending Hall Hs) as Hasc.
  destruct (markerAdditions d 0 markers) as [|first more] eqn:Hm.
  - (* no addition marker: the right panel *)
    cbn [isEmpty negb andb app flat_map].
    destruct (firstMatch d rightSideSelectors) as [panel|];
      [|intros H; inversion H; auto].
    set (lines := querySelectorAll d (Some panel) panelLineSelector).
    destruct (panelAdditions d 0 lines) as [fromPanel|e] eqn:Hp;
      cbn [rbind]; [|discriminate].
    destruct (panelAdditions_entries _ _ Hp) as [Hall' Hs'].
    pose proof (entries_ascending Hall' Hs') as Hasc'.
    destruct fromPanel as [|first more];
      cbn [isEmpty negb]; intros H; inversion H; subst; [auto|].
    right. eexists _, first, more. split; [reflexivity|].
    split; [|cbn; auto].
    apply sideBySideRecord_scanned.
    apply (trim_nonempty _ 43%N); [|reflexivity].
    cbn [flat_map]. unfold plusLine at 1. left. reflexivity.
  - assert (Hne : trim (flat_map (fun a => lineContent a ++ newline)
                          (first :: more)) <> []).
    { apply rendered_nonblank; [|discriminate|apply Hasc].
      intros a c Hc. apply in_or_app. left. assumption. }
    cbn [isEmpty negb andb].
    destruct (isEmpty (trim (flat_map (fun a => lineContent a ++ newline)
                               (first :: more)))) eqn:He.
    { apply isEmpty_false in Hne. congruence. }
    cbn [negb]. intros H; inversion H; subst.
    right. eexists _, first, more. split; [reflexivity|].
    split; [|cbn; auto].
    apply sideBySideRecord_scanned. assumption.
Qed.

Lemma extractFromSideBySideView_throws e :
  extractFromSideBySideView d = Throw e -> thrown d e.
Proof.
  unfold extractFromSideBySideView.
  destruct (getCurrentFileName d) as [name|e0] eqn:Hname; cbn [rbind];
    [|intros H; inversion H; subst; left; assumption].
  destruct (_ && _)%bool; [discriminate|].
  destruct (firstMatch d rightSideSelectors) as [panel|]; [|discriminate].
  destruct (panelAdditions d 0 _) as [fromPanel|e0] eqn:Hp; cbn [rbind].
  - destruct (negb _); discriminate.
  - intros H; inversion H; subst. right.
    eapply panelAdditions_throws; eassumption.
Qed.

(* ---- extractDiffFromContainer ---- *)

Lemma scanLines_throws lines : forall index acc e,
  scanLines d index lines acc = Throw e -> classThrown d e.
Proof.
  induction lines as [|l rest IH]; intros index acc e; cbn [scanLines];
    [discriminate|].
  destruct (isEmpty (trimmedText d l)); [apply IH|].
  destruct (combinedClassOf d l) as [combinedClass|e0] eqn:Hc; cbn [rbind].
  - destruct (isAddition d combinedClass l); [apply IH|].
    destruct (isDeletion d combinedClass l); apply IH.
  - intros H; inversion H; subst. eapply combinedClassOf_throws; eassumption.
Qed.

Lemma extractDiffFromContainer_throws container e :
  extractDiffFromContainer d container = Throw e -> thrown d e.
Proof.
  unfold extractDiffFromContainer.
  destruct (getCurrentFileName d) as [name|e0] eqn:Hname; cbn [rbind];
    [|intros H; inversion H; subst; left; assumption].
  destruct (scanLines d 0 _ emptyScan) as [scan|e0] eqn:Hs; cbn [rbind];
    [discriminate|].
  intros H; inversion H; subst. right. eapply scanLines_throws; eassumption.
Qed.

Lemma extractDiffFromContainer_record container diff :
  extractDiffFromContainer d container = Ok diff ->
  exists scan,
    scanLines d 0 (firstLines d container lineSelectors) emptyScan = Ok scan
    /\ filename diff <> []
    /\ trim (content diff) = content diff
    /\ isSelection diff = false
    /\ element diff = Some container
    /\ additions diff = Some (scanAdditions scan)
    /\ deletions diff = Some (scanDeletions scan)
    /\ hasNewCode diff = Some (negb (isEmpty (scanAdditions scan))).
Proof.
  unfold extractDiffFromContainer.
  destruct (getCurrentFileName d) as [name|e0]; cbn [rbind]; [|discriminate].
  destruct (scanLines d 0 _ emptyScan) as [scan|e0]; cbn [rbind];
    [|discriminate].
  intros H; inversion H; subst; clear H. exists scan. cbn.
  repeat split.
  - apply orDefault_named. discriminate.
  - apply trim_idempotent.
Qed.

Lemma kept_scanned diff container :
  extractDiffFromContainer d container = Ok diff ->
  isEmpty (content diff) = false ->
  scanned diff.
Proof.
  intros Hrun Hne. destruct (extractDiffFromContainer_record _ Hrun)
    as (scan & _ & Hn & Ht & Hs & He & _).
  repeat split; try assumption.
  - apply isEmpty_false. assumption.
  - rewrite He. discriminate.
Qed.

(* ---- the entries of a container ---- *)

Lemma ascending_snoc entries index text :
  ascending entries ->
  Forall (fun a => line a <= index) entries ->
  nonBlank text ->
  ascending (entries ++ [{| line := S index; lineContent := text |}]).
Proof.
  intros [Hs Hall] Hle Ht. split.
  - rewrite map_app. apply StronglySorted_snoc; [assumption|].
    rewrite Forall_map. eapply Forall_impl; [|exact Hle].
    simpl. intros a Ha. lia.
  - apply Forall_app. split; [assumption|].
    constructor; [assumption | constructor].
Qed.

Lemma seen_step (entries : list LineEntry) index :
  Forall (fun a => line a <= index) entries ->
  Forall (fun a => line a <= S index) entries.
Proof. apply Forall_impl. intros a Ha. lia. Qed.

Lemma scanLines_invariant lines : forall rest seen acc scan,
  lines = seen ++ rest ->
  scanInvariant d lines (List.length seen) acc ->
  scanLines d (List.length seen) rest acc = Ok scan ->
  scanInvariant d lines (List.length lines) scan.
Proof.
  induction rest as [|l rest IH]; intros seen acc scan Hsplit Hinv;
    cbn [scanLines].
  - intros H; inversion H; subst scan.
    rewrite app_nil_r in Hsplit. subst seen. assumption.
  - assert (Hnext : lines = (seen ++ [l]) ++ rest)
      by (rewrite <- app_assoc; assumption).
    assert (Hlen : List.length (seen ++ [l]) = S (List.length seen))
      by (rewrite length_app; simpl; lia).
    assert (Hnth : nth_error lines (List.length seen) = Some l).
    { rewrite Hsplit, nth_error_app2, Nat.sub_diag by lia. reflexivity. }
    specialize (IH (seen ++ [l])). rewrite Hlen in IH.
    destruct Hinv as (Ha & Hd & Hle & Hadd & Hdel).
    apply Forall_app in Hle. destruct Hle as [Hla Hld].
    destruct (isEmpty (trimmedText d l)) eqn:Htext.
    { apply IH; [assumption|]. repeat split; try assumption;
        try apply Ha; try apply Hd.
      apply Forall_app; split; apply seen_step; assumption. }
    pose proof (trimmedText_nonBlank l Htext) as Hnb.
    destruct (combinedClassOf d l) as [combinedClass|e] eqn:Hclass;
      cbn [rbind]; [|discriminate].
    destruct (isAddition d combinedClass l) eqn:Hisadd.
    { apply IH; [assumption|].
      unfold scanInvariant. cbn [scanAdditions scanDeletions].
      split; [apply ascending_snoc; assumption|].
      split; [assumption|].
      split.
      { rewrite <- app_assoc. apply Forall_app.
        split; [apply seen_step; assumption|].
        constructor; [cbn; lia | apply seen_step; assumption]. }
      split; [|assumption].
      apply Forall_app. split; [assumption|].
      constructor; [|constructor].
      exists l. unfold addedLine. rewrite Hclass. cbn.
      repeat split; try assumption; lia. }
    destruct (isDeletion d combinedClass l) eqn:Hisdel.
    { apply IH; [assumption|].
      unfold scanInvariant. cbn [scanAdditions scanDeletions].
      split; [assumption|].
      split; [apply ascending_snoc; assumption|].
      split.
      { apply Forall_app. split; [apply seen_step; assumption|].
        apply Forall_app. split; [apply seen_step; assumption|].
        constructor; [cbn; lia | constructor]. }
      split; [assumption|].
      apply Forall_app. split; [assumption|].
      constructor; [|constructor].
      exists l. unfold deletedLine. rewrite Hclass, Hisadd, Hisdel. cbn.
      repeat split; try assumption; lia. }
    apply IH; [assumption|].
    unfold scanInvariant. cbn [scanAdditions scanDeletions].
    repeat split; try assumption; try apply Ha; try apply Hd.
    apply Forall_app; split; apply seen_step; assumption.
Qed.

(** X20.  The entries of a record read from a container: every added
    entry is a line that passes the addition test and every deleted entry
    a line that fails it and passes the deletion test, so no line is in
    both; an entry carries the position of its line among the lines of
    the container, counted from one, and the trimmed text of the line,
    which is not blank; both lists are in the order of the lines; and
    [hasNewCode] tells whether there is an added entry. *)
Theorem extractDiffFromContainer_entries (container : Element)
  (diff : PageDiff) :
  extractDiffFromContainer d container = Ok diff ->
  let lines := firstLines d container lineSelectors in
  exists added deleted,
    additions diff = Some added
    /\ deletions diff = Some deleted
    /\ hasNewCode diff = Some (negb (isEmpty added))
    /\ ascending added
    /\ ascending deleted
    /\ Forall (entryOf d lines (addedLine d)) added
    /\ Forall (entryOf d lines (deletedLine d)) deleted
    /\ (forall l, addedLine d l = true -> deletedLine d l = false).
Proof.
  intros Hrun lines.
  destruct (extractDiffFromContainer_record _ Hrun)
    as (scan & Hscan & _ & _ & _ & _ & Ha & Hd & Hn).
  assert (Hinv : scanInvariant d lines (List.length (@nil Element)) emptyScan).
  { repeat split; constructor. }
  apply (@scanLines_invariant lines lines [] emptyScan scan eq_refl) in Hinv;
    [|exact Hscan].
  destruct Hinv as (Hasc & Hdsc & _ & Hadd & Hdel).
  eexists _, _.
  split; [exact Ha|]. split; [exact Hd|]. split; [exact Hn|].
  split; [exact Hasc|]. split; [exact Hdsc|].
  split; [assumption|]. split; [assumption|].
  intros l. unfold addedLine, deletedLine.
  destruct (combinedClassOf d l); [|reflexivity].
  intros ->. reflexivity.
Qed.

(* ---- the records of the six strategies ---- *)

Lemma plainRecord_scanned name fallback text el :
  lit fallback <> [] -> text <> [] -> trim text = text ->
  scanned (plainRecord name fallback text el).
Proof.
  intros Hf Hne Ht. repeat split; cbn; try assumption; try discriminate.
  apply orDefault_named. assumption.
Qed.

Lemma firstViewerDiff_scanned viewers : forall found,
  firstViewerDiff d viewers = Ok (Some found) ->
  scanned found /\ (50 < len (content found))%N.
Proof.
  induction viewers as [|viewer rest IH]; intros found; cbn [firstViewerDiff];
    [discriminate|].
  destruct (extractDiffFromContainer d viewer) as [diff|e] eqn:Hrun;
    cbn [rbind]; [|discriminate].
  destruct (negb (isEmpty (content diff))
            && N.ltb 50 (len (trim (content diff))))%bool eqn:Hbig;
    [|apply IH].
  intros H; inversion H; subst. apply andb_true_iff in Hbig.
  destruct Hbig as [Hne Hlen]. apply negb_true_iff in Hne.
  split; [eapply kept_scanned; eassumption|].
  destruct (extractDiffFromContainer_record _ Hrun) as (_ & _ & _ & Ht & _).
  rewrite Ht in Hlen. apply N.ltb_lt. assumption.
Qed.

Lemma firstViewerDiff_throws viewers : forall e,
  firstViewerDiff d viewers = Throw e -> thrown d e.
Proof.
  induction viewers as [|viewer rest IH]; intros e; cbn [firstViewerDiff];
    [discriminate|].
  destruct (extractDiffFromContainer d viewer) as [diff|e0] eqn:Hrun;
    cbn [rbind].
  - destruct (_ && _)%bool; [discriminate | apply IH].
  - intros H; inversion H; subst.
    apply extractDiffFromContainer_throws in Hrun. assumption.
Qed.

Lemma extractFromModernViewer_records diffs :
  extractFromModernViewer d = Ok diffs ->
  Forall scanned diffs /\ List.length diffs <= 1.
Proof.
  unfold extractFromModernViewer, extractCurrentDiffContent.
  destruct (firstViewerDiff d _) as [[found|]|e] eqn:Hv; cbn [rbind];
    [| |discriminate].
  - destruct (firstViewerDiff_scanned _ Hv) as [Hs _].
    destruct Hs as (Hn & [Hne Ht] & Hsel & Hel).
    destruct (content found) as [|c rest] eqn:Hc; [congruence|].
    cbn [isEmpty andb]. intros H; inversion H; subst.
    split; [|simpl; lia]. constructor; [|constructor].
    repeat split; try assumption; rewrite Hc; assumption.
  - cbn [isEmpty andb].
    destruct (negb (isEmpty (querySelectorAll d None fileItemSelector)));
      [|intros H; inversion H; split; [constructor | simpl; lia]].
    destruct (getCurrentFileName d) as [name|e]; cbn [rbind]; [|discriminate].
    destruct (isEmpty (extractAllVisibleCode d (body d))) eqn:He;
      intros H; inversion H; subst; (split; [|simpl; lia]);
      constructor; [|constructor].
    apply plainRecord_scanned; [discriminate| |].
    + apply isEmpty_false. assumption.
    + apply extractAllVisibleCode_trimmed.
Qed.

Lemma extractFromModernViewer_throws e :
  extractFromModernViewer d = Throw e -> thrown d e.
Proof.
  unfold extractFromModernViewer, extractCurrentDiffContent.
  destruct (firstViewerDiff d _) as [[found|]|e0] eqn:Hv; cbn [rbind].
  - destruct (isEmpty (content found)); cbn [isEmpty andb]; try discriminate.
    destruct (negb _); [|discriminate].
    destruct (getCurrentFileName d) as [name|e1] eqn:Hname; cbn [rbind];
      [|intros H; inversion H; subst; left; assumption].
    destruct (isEmpty _); discriminate.
  - cbn [isEmpty andb]. destruct (negb _); [|discriminate].
    destruct (getCurrentFileName d) as [name|e1] eqn:Hname; cbn [rbind];
      [|intros H; inversion H; subst; left; assumption].
    destruct (isEmpty _); discriminate.
  - intros H; inversion H; subst. apply firstViewerDiff_throws in Hv.
    assumption.
Qed.

Lemma containerDiffs_records containers : forall diffs,
  containerDiffs d containers = Ok diffs ->
  Forall (fun diff => scanned diff /\ (20 < len (content diff))%N) diffs.
Proof.
  induction containers as [|container rest IH]; intros diffs;
    cbn [containerDiffs].
  - intros H; inversion H. constructor.
  - destruct (extractDiffFromContainer d container) as [diff|e] eqn:Hrun;
      cbn [rbind]; [|discriminate].
    destruct (containerDiffs d rest) as [more|e]; cbn [rbind];
      [|discriminate].
    specialize (IH more eq_refl).
    destruct (negb (isEmpty (content diff))
              && N.ltb 20 (len (trim (content diff))))%bool eqn:Hbig;
      intros H; inversion H; subst; [|assumption].
    apply andb_true_iff in Hbig. destruct Hbig as [Hne Hlen].
    apply negb_true_iff in Hne.
    constructor; [|assumption].
    split; [eapply kept_scanned; eassumption|].
    destruct (extractDiffFromContainer_record _ Hrun) as (_ & _ & _ & Ht & _).
    rewrite Ht in Hlen. apply N.ltb_lt. assumption.
Qed.

Lemma containerDiffs_throws containers : forall e,
  containerDiffs d containers = Throw e -> thrown d e.
Proof.
  induction containers as [|container rest IH]; intros e;
    cbn [containerDiffs]; [discriminate|].
  destruct (extractDiffFromContainer d container) as [diff|e0] eqn:Hrun;
    cbn [rbind].
  - destruct (containerDiffs d rest) as [more|e1]; cbn [rbind].
    + destruct (_ && _)%bool; discriminate.
    + intros H; inversion H; subst. apply IH. reflexivity.
  - intros H; inversion H; subst.
    apply extractDiffFromContainer_throws in Hrun. assumption.
Qed.

Lemma editorDiffs_records editors : forall diffs,
  editorDiffs d editors = Ok diffs -> Forall scanned diffs.
Proof.
  induction editors as [|editor rest IH]; intros diffs; cbn [editorDiffs].
  - intros H; inversion H. constructor.
  - destruct (querySelectorAll d (Some editor) viewLineSelector)
      as [|v vs]; [apply IH|].
    destruct (isEmpty (trim _)) eqn:He; [apply IH|].
    destruct (getCurrentFileName d) as [name|e]; cbn [rbind]; [|discriminate].
    destruct (editorDiffs d rest) as [more|e]; cbn [rbind]; [|discriminate].
    intros H; inversion H; subst. constructor; [|apply IH; reflexivity].
    apply plainRecord_scanned; [discriminate| |apply trim_idempotent].
    apply isEmpty_false. assumption.
Qed.

Lemma editorDiffs_throws editors : forall e,
  editorDiffs d editors = Throw e -> getCurrentFileName d = Throw e.
Proof.
  induction editors as [|editor rest IH]; intros e; cbn [editorDiffs];
    [discriminate|].
  destruct (querySelectorAll d (Some editor) viewLineSelector)
    as [|v vs]; [apply IH|].
  destruct (isEmpty (trim _)); [apply IH|].
  destruct (getCurrentFileName d) as [name|e0]; cbn [rbind]; [|congruence].
  destruct (editorDiffs d rest) as [more|e1]; cbn [rbind]; [discriminate|].
  intros H; inversion H; subst. apply IH. reflexivity.
Qed.

Lemma blockDiffs_records blocks : forall diffs,
  blockDiffs d blocks = Ok diffs ->
  Forall (fun diff => scanned diff /\ (50 < len (content diff))%N) diffs.
Proof.
  induction blocks as [|block rest IH]; intros diffs; cbn [blockDiffs].
  - intros H; inversion H. constructor.
  - destruct (negb (isEmpty (trimmedText d block))
              && N.ltb 50 (len (trimmedText d block)))%bool eqn:Hbig;
      [|apply IH].
    apply andb_true_iff in Hbig. destruct Hbig as [Hne Hlen].
    apply negb_true_iff in Hne.
    destruct (getCurrentFileName d) as [name|e]; cbn [rbind]; [|discriminate].
    destruct (blockDiffs d rest) as [more|e]; cbn [rbind]; [|discriminate].
    intros H; inversion H; subst. constructor; [|apply IH; reflexivity].
    split; [|apply N.ltb_lt; assumption].
    apply plainRecord_scanned; [discriminate| |apply trim_idempotent].
    apply isEmpty_false. assumption.
Qed.

Lemma blockDiffs_throws blocks : forall e,
  blockDiffs d blocks = Throw e -> getCurrentFileName d = Throw e.
Proof.
  induction blocks as [|block rest IH]; intros e; cbn [blockDiffs];
    [discriminate|].
  destruct (_ && _)%bool; [|apply IH].
  destruct (getCurrentFileName d) as [name|e0]; cbn [rbind]; [|congruence].
  destruct (blockDiffs d rest) as [more|e1]; cbn [rbind]; [discriminate|].
  intros H; inversion H; subst. apply IH. reflexivity.
Qed.

Lemma visibleDiffs_records selectors : forall diffs,
  visibleDiffs d selectors = Ok diffs ->
  Forall (fun diff => scanned diff /\ (100 < len (content diff))%N) diffs
  /\ List.length diffs <= 1.
Proof.
  induction selectors as [|selector rest IH]; intros diffs;
    cbn [visibleDiffs].
  - intros H; inversion H. split; [constructor | simpl; lia].
  - destruct (querySelector d None selector) as [container|]; [|apply IH].
    destruct (negb (isEmpty (extractAllVisibleCode d container))
              && N.ltb 100 (len (extractAllVisibleCode d container)))%bool
      eqn:Hbig; [|apply IH].
    apply andb_true_iff in Hbig. destruct Hbig as [Hne Hlen].
    apply negb_true_iff in Hne.
    destruct (getCurrentFileName d) as [name|e]; cbn [rbind]; [|discriminate].
    intros H; inversion H; subst. split; [|simpl; lia].
    constructor; [|constructor].
    split; [|apply N.ltb_lt; assumption].
    apply plainRecord_scanned; [discriminate| |].
    + apply isEmpty_false. assumption.
    + apply extractAllVisibleCode_trimmed.
Qed.

Lemma visibleDiffs_throws selectors : forall e,
  visibleDiffs d selectors = Throw e -> getCurrentFileName d = Throw e.
Proof.
  induction selectors as [|selector rest IH]; intros e; cbn [visibleDiffs];
    [discriminate|].
  destruct (querySelector d None selector) as [container|]; [|apply IH].
  destruct (_ && _)%bool; [|apply IH].
  destruct (getCurrentFileName d) as [name|e0]; cbn [rbind];
    [discriminate | congruence].
Qed.

(** X21.  Every record that any of the six strategies returns has a file
    name that is not empty, content that is not empty and has no white
    space at either end, the element it was read from, and no selection
    mark. *)
Theorem pageStrategies_scanned (strategy : Result (list PageDiff))
  (diffs : list PageDiff) :
  In strategy (pageStrategies d) ->
  strategy = Ok diffs ->
  Forall scanned diffs.
Proof.
  unfold pageStrategies.
  intros [<-|[<-|[<-|[<-|[<-|[<-|[]]]]]]] Hrun.
  - destruct (sideBySide_shape Hrun)
      as [-> | (diff & first & more & -> & Hs & _)]; [constructor|].
    constructor; [assumption | constructor].
  - apply extractFromModernViewer_records. assumption.
  - apply containerDiffs_records in Hrun.
    eapply Forall_impl; [|exact Hrun]. simpl. tauto.
  - apply editorDiffs_records in Hrun. assumption.
  - apply blockDiffs_records in Hrun.
    eapply Forall_impl; [|exact Hrun]. simpl. tauto.
  - apply visibleDiffs_records in Hrun. destruct Hrun as [Hrun _].
    eapply Forall_impl; [|exact Hrun]. simpl. tauto.
Qed.

Lemma strategies_thrown (strategy : Result (list PageDiff)) (e : exn) :
  In strategy (pageStrategies d) ->
  strategy = Throw e ->
  nameThrown d e \/ classThrown d e.
Proof.
  intros Hin Hrun.
  assert (Hthrown : thrown d e).
  { revert Hin Hrun. unfold pageStrategies.
    intros [<-|[<-|[<-|[<-|[<-|[<-|[]]]]]]].
    - apply extractFromSideBySideView_throws.
    - apply extractFromModernViewer_throws.
    - apply containerDiffs_throws.
    - intros H. left. revert H. apply editorDiffs_throws.
    - intros H. left. revert H. apply blockDiffs_throws.
    - intros H. left. revert H. apply visibleDiffs_throws. }
  destruct Hthrown as [Hname|Hclass]; [left|right; assumption].
  apply getCurrentFileName_throws. assumption.
Qed.

(** X22.  What a strategy throws is one of two: the error of
    [decodeURIComponent] on the [path] parameter of the address, on a
    page where no file name element has text; or the [TypeError] of a
    class name that has no [toLowerCase], on a page with an SVG element.
    The strategies of the Monaco editor, of the generic code blocks and
    of the visible diff area read no class name, and throw the first
    only. *)
Theorem pageStrategies_throw (strategy : Result (list PageDiff)) (e : exn) :
  In strategy (pageStrategies d) ->
  strategy = Throw e ->
  (nameThrown d e \/ classThrown d e)
  /\ (In strategy [extractFromMonacoEditor d;
                   extractFromGenericCodeBlocks d;
                   extractFromVisibleDiffArea d] ->
      nameThrown d e).
Proof.
  intros Hin Hrun. split.
  - apply (strategies_thrown Hin Hrun).
  - intros [<-|[<-|[<-|[]]]]; apply getCurrentFileName_throws.
    + apply editorDiffs_throws with (1 := Hrun).
    + apply blockDiffs_throws with (1 := Hrun).
    + apply visibleDiffs_throws with (1 := Hrun).
Qed.

(** X23.  The least a strategy accepts: the modern viewer and the
    visible diff area return at most one record; a record of the file
    containers has more than 20 code units of content, one of the generic
    code blocks more than 50, one of the visible diff area more than
    100. *)
Theorem pageStrategies_thresholds (diffs : list PageDiff) :
  (extractFromModernViewer d = Ok diffs -> List.length diffs <= 1)
  /\ (extractFromFileDiffContainers d = Ok diffs ->
      Forall (fun diff => (20 < len (content diff))%N) diffs)
  /\ (extractFromGenericCodeBlocks d = Ok diffs ->
      Forall (fun diff => (50 < len (content diff))%N) diffs)
  /\ (extractFromVisibleDiffArea d = Ok diffs ->
      List.length diffs <= 1
      /\ Forall (fun diff => (100 < len (content diff))%N) diffs).
Proof.
  split; [|split; [|split]]; intros Hrun.
  - apply extractFromModernViewer_records in Hrun. tauto.
  - apply containerDiffs_records in Hrun.
    eapply Forall_impl; [|exact Hrun]. simpl. tauto.
  - apply blockDiffs_records in Hrun.
    eapply Forall_impl; [|exact Hrun]. simpl. tauto.
  - apply visibleDiffs_records in Hrun. destruct Hrun as [Hrun Hone].
    split; [assumption|].
    eapply Forall_impl; [|exact Hrun]. simpl. tauto.
Qed.

Lemma blockDiffs_filter_map name blocks :
  getCurrentFileName d = Ok name ->
  blockDiffs d blocks
  = Ok (map (fun block =>
               plainRecord name "Code Block" (trimmedText d block) block)
            (filter (fun block => N.ltb 50 (len (trimmedText d block)))
                    blocks)).
Proof.
  intros Hname. induction blocks as [|block rest IH]; cbn [blockDiffs filter];
    [reflexivity|].
  destruct (N.ltb 50 (len (trimmedText d block))) eqn:Hbig.
  - assert (Hne : isEmpty (trimmedText d block) = false).
    { destruct (trimmedText d block); [discriminate | reflexivity]. }
    rewrite Hne. cbn [negb andb]. rewrite Hname, IH. reflexivity.
  - rewrite andb_false_r. exact IH.
Qed.

(** X24.  The loop of the generic strategy is a filter and a map: when
    the file name can be read, the strategy returns one record for each
    code block whose trimmed text has more than 50 code units, in
    document order, with that text as content, the block as element and
    the same file name; a block inside another gives a record of its
    own. *)
Theorem extractFromGenericCodeBlocks_filter_map (name : option jstring) :
  getCurrentFileName d = Ok name ->
  extractFromGenericCodeBlocks d
  = Ok (map (fun block =>
               plainRecord name "Code Block" (trimmedText d block) block)
            (filter (fun block => N.ltb 50 (len (trimmedText d block)))
                    (querySelectorAll d None codeBlockSelector))).
Proof. apply blockDiffs_filter_map. Qed.

(** X25.  The side-by-side strategy returns no record or exactly one, and
    the record it returns has at least one added entry, every entry with
    text that is not blank and the entries in ascending line order, no
    deleted entry, and [hasNewCode] set. *)
Theorem extractFromSideBySideView_shape (diffs : list PageDiff) :
  extractFromSideBySideView d = Ok diffs ->
  diffs = []
  \/ exists diff first more,
       diffs = [diff]
       /\ scanned diff
       /\ additions diff = Some (first :: more)
       /\ ascending (first :: more)
       /\ deletions diff = Some []
       /\ hasNewCode diff = Some true.
Proof. apply sideBySide_shape. Qed.

Lemma firstFileName_found selectors : forall name,
  firstFileName d selectors = Some name ->
  exists before selector after el,
    selectors = before ++ selector :: after
    /\ withoutText d before
    /\ querySelector d None selector = Some el
    /\ name = trimmedText d el
    /\ nonBlank name.
Proof.
  induction selectors as [|selector rest IH]; intros name;
    cbn [firstFileName]; [discriminate|].
  destruct (querySelector d None selector) as [el|] eqn:Hq.
  - destruct (isEmpty (trimmedText d el)) eqn:He.
    + intros H. destruct (IH _ H) as (before & s & after & e & -> & Hb & ?).
      exists (selector :: before), s, after, e.
      split; [reflexivity|]. split; [|assumption].
      constructor; [|assumption]. rewrite Hq.
      destruct (trimmedText d el); [reflexivity | discriminate].
    + intros H; inversion H; subst. exists [], selector, rest, el.
      split; [reflexivity|]. split; [constructor|].
      repeat split; try assumption;
        apply trimmedText_nonBlank; assumption.
  - intros H. destruct (IH _ H) as (before & s & after & e & -> & Hb & ?).
    exists (selector :: before), s, after, e.
    split; [reflexivity|]. split; [|assumption].
    constructor; [|assumption]. rewrite Hq. exact I.
Qed.

Lemma firstFileName_none selectors :
  firstFileName d selectors = None -> withoutText d selectors.
Proof.
  induction selectors as [|selector rest IH]; cbn [firstFileName];
    [constructor|].
  destruct (querySelector d None selector) as [el|] eqn:Hq.
  - destruct (trimmedText d el) eqn:He; cbn [isEmpty]; [|discriminate].
    intros H. constructor; [rewrite Hq; assumption | apply IH; assumption].
  - intros H. constructor; [rewrite Hq; exact I | apply IH; assumption].
Qed.

Lemma matchPathParam_captured s : forall captured,
  matchPathParam s = Some captured ->
  captured <> []
  /\ forallb (fun c => negb (N.eqb c 38)) captured = true.
Proof.
  induction s as [|c s IH]; intros captured; cbn [matchPathParam];
    [discriminate|].
  destruct (startsWith (lit "path=") (c :: s)); [|apply IH].
  destruct (takeWhile _ (skipn 5 (c :: s))) as [|x rest] eqn:Ht; [apply IH|].
  intros H; inversion H; subst. split; [discriminate|].
  rewrite <- Ht. apply takeWhile_all.
Qed.

(** X26.  Where a file name comes from: the trimmed text, not blank, of
    the first element matched by the first of the eight selectors whose
    first match has text, every selector before it matching nothing or
    an element without text; or, when no selector has a first match with
    text, the decoding of the [path] parameter of the address, which is
    not empty and runs up to the next ampersand. *)
Theorem getCurrentFileName_sources (name : jstring) :
  getCurrentFileName d = Ok (Some name) ->
  (exists before selector after el,
     fileNameSelectors = before ++ selector :: after
     /\ withoutText d before
     /\ querySelector d None selector = Some el
     /\ name = trimmedText d el
     /\ nonBlank name)
  \/ (withoutText d fileNameSelectors
      /\ exists captured,
           matchPathParam (href d) = Some captured
           /\ captured <> []
           /\ forallb (fun c => negb (N.eqb c 38)) captured = true
           /\ decodeURIComponent captured = Ok name).
Proof.
  unfold getCurrentFileName.
  destruct (firstFileName d fileNameSelectors) as [found|] eqn:Hf.
  - intros H; inversion H; subst. left. apply firstFileName_found.
    assumption.
  - destruct (matchPathParam (href d)) as [captured|] eqn:Hm;
      [|discriminate].
    destruct (decodeURIComponent captured) as [decoded|e] eqn:Hd;
      cbn [rbind]; [|discriminate].
    intros H; inversion H; subst. right.
    split; [apply firstFileName_none; assumption|].
    destruct (matchPathParam_captured _ Hm) as [Hne Hamp].
    exists captured. auto.
Qed.

End DomFacts.

(* ------------------------------------------------------------------ *)
(** ** What the chain throws *)

Section ChainThrows.

Context {E : Engine} {W : Type} {B : Browser W}.

(** Only a strategy that scans the DOM throws, and it leaves the state as
    it found it. *)
Lemma strategyOf_throws s (st st1 : State W) (e : exn) :
  strategyOf s st = (Throw e, st1) ->
  In s domStrategies
  /\ st1 = st
  /\ (nameThrown (world st) e \/ classThrown (world st) e).
Proof.
  intros Hs.
  assert (Hpage : forall strategy,
             In (strategy (world st)) (pageStrategies (world st)) ->
             fromPage strategy st = (Throw e, st1) ->
             st1 = st
             /\ (nameThrown (world st) e \/ classThrown (world st) e)).
  { intros strategy Hin Hrun. rewrite fromPage_run in Hrun.
    destruct (strategy (world st)) as [found|e0] eqn:Hfound;
      inversion Hrun; subst.
    split; [reflexivity|]. apply (strategies_thrown Hin eq_refl). }
  destruct s; cbn [strategyOf] in Hs.
  - unfold selectedCode, bind, read, ret in Hs.
    destruct (_ && _)%bool; discriminate.
  - destruct (extractFromADOApi_returns st) as (diffs & w & Hrun).
    rewrite Hrun in Hs. discriminate.
  - split; [simpl; tauto|]. refine (Hpage _ _ Hs). simpl. tauto.
  - split; [simpl; tauto|]. refine (Hpage _ _ Hs). simpl. tauto.
  - split; [simpl; tauto|]. refine (Hpage _ _ Hs). simpl. tauto.
  - split; [simpl; tauto|]. refine (Hpage _ _ Hs). simpl. tauto.
  - split; [simpl; tauto|]. refine (Hpage _ _ Hs). simpl. tauto.
  - split; [simpl; tauto|]. refine (Hpage _ _ Hs). simpl. tauto.
Qed.

Lemma ChainRun_throws finish order (st st' : State W) log result :
  ChainRun finish order st log result st' ->
  forall e, result = Throw e ->
  winnerOutput log = []
  /\ (exists s, In s domStrategies /\ strategyOf s st' = (Throw e, st'))
  /\ (nameThrown (world st') e \/ classThrown (world st') e).
Proof.
  induction 1 as [st | s rest st st1 st' log result Hs Hrun IH
                 | s rest st st1 out Hs Hout
                 | s rest st st1 e0 Hs]; intros e Hres; try discriminate.
  - destruct (IH e Hres) as (Hnone & Hwho & Hwhy). repeat split; assumption.
  - inversion Hres; subst.
    destruct (strategyOf_throws _ _ Hs) as (Hdom & Hsame & Hwhy). subst st1.
    split; [reflexivity|]. split; [|assumption].
    exists s. split; assumption.
Qed.

(** X29.  When [extractDiffs] throws, one of the six strategies that scan
    the DOM threw, and never the selection or the REST API strategy:
    every strategy that ran before it returned no record, and on the page
    as it is then, either no file name element has text and the [path]
    parameter of the address cannot be decoded, or an element has a class
    name without [toLowerCase] and the error is a [TypeError]. *)
Theorem extractDiffs_throws_from_page (type : jstring) (st st' : State W)
  (e : exn) :
  extractDiffs type st = (Throw e, st') ->
  (exists log, trace st' = trace st ++ log /\ winnerOutput log = [])
  /\ (exists s, In s domStrategies /\ strategyOf s st' = (Throw e, st'))
  /\ (nameThrown (world st') e \/ classThrown (world st') e).
Proof.
  intros Hrun.
  destruct (extractDiffs_run type st)
    as (result & log & st2 & Hx & Ht & Hchain).
  rewrite Hx in Hrun. inversion Hrun; subst.
  destruct (ChainRun_throws Hchain eq_refl) as (Hnone & Hwho & Hwhy).
  split; [exists log; split; assumption|]. split; assumption.
Qed.

End ChainThrows.

(* ------------------------------------------------------------------ *)
(** ** The pull request named by the address *)

Section AddressFacts.

Import DomScan.

Lemma expect_prefix literal s :
  expect literal (lit literal ++ s) = Some s.
Proof.
  unfold expect. rewrite startsWith_app, skipn_prefix. reflexivity.
Qed.

Lemma segment_slash seg rest :
  isSegment seg -> segment (seg ++ 47%N :: rest) = Some (seg, rest).
Proof.
  intros [Hne Hseg]. unfold segment.
  rewrite takeWhile_app, dropWhile_app by (assumption || reflexivity).
  destruct seg; [congruence | reflexivity].
Qed.

Lemma pullRequestPath_address captured legacy project repo prId rest :
  isSegment project -> isSegment repo -> isNumber prId -> endsNumber rest ->
  pullRequestPath captured legacy (pullRequestAddress project repo prId rest)
  = Some {| org := captured; project := project; repo := repo;
            prId := prId; isLegacy := legacy |}.
Proof.
  intros Hp Hr [Hne Hd] Hrest. unfold pullRequestPath, pullRequestAddress.
  change (lit "/_git/" ++ repo ++ lit "/pullrequest/" ++ prId ++ rest)
    with (47%N :: lit "_git/" ++ repo ++ 47%N
            :: lit "pullrequest/" ++ prId ++ rest).
  rewrite segment_slash by assumption.
  rewrite expect_prefix.
  rewrite segment_slash by assumption.
  rewrite expect_prefix.
  rewrite takeWhile_app by (assumption || (destruct rest; assumption)).
  destruct prId; [congruence | reflexivity].
Qed.

(** X27.  On an address
    [https://dev.azure.com/{org}/{project}/_git/{repo}/pullrequest/{id}],
    with anything after the number that is no digit, [getADOContext]
    reads the four parts as they are, and the page is not legacy. *)
Theorem contextOf_dev_azure (org project repo prId rest : jstring) :
  isSegment org -> isSegment project -> isSegment repo ->
  isNumber prId -> endsNumber rest ->
  contextOf (lit "https://dev.azure.com/" ++ org ++ lit "/"
               ++ pullRequestAddress project repo prId rest)
  = Some {| org := org; project := project; repo := repo; prId := prId;
            isLegacy := false |}.
Proof.
  intros Ho Hp Hr Hn Hrest. unfold contextOf.
  set (path := pullRequestAddress project repo prId rest).
  assert (Hat : devAzureAt (lit "dev.azure.com/" ++ org ++ lit "/" ++ path)
                = Some {| org := org; project := project; repo := repo;
                          prId := prId; isLegacy := false |}).
  { unfold devAzureAt. rewrite expect_prefix.
    change (org ++ lit "/" ++ path) with (org ++ 47%N :: path).
    rewrite segment_slash by assumption.
    apply pullRequestPath_address; assumption. }
  change (lit "https://dev.azure.com/" ++ org ++ lit "/" ++ path)
    with (lit "https://" ++ lit "dev.azure.com/" ++ org ++ lit "/" ++ path).
  set (tail := lit "dev.azure.com/" ++ org ++ lit "/" ++ path) in *.
  assert (Hhead : exists t, tail = 100%N :: t) by (eexists; reflexivity).
  destruct Hhead as [t Ht].
  cbn [lit list_ascii_of_string map N_of_ascii app].
  rewrite Ht. cbn. rewrite <- Ht.
  destruct tail as [|c tail']; [discriminate|].
  cbn [leftmost]. rewrite Hat. reflexivity.
Qed.

(** X28.  On an address
    [https://{org}.visualstudio.com/{project}/_git/{repo}/pullrequest/{id}]
    that the first pattern does not match, the second pattern matches
    from the first code unit of the address: the project, the repository
    and the number are read as they are, the page is legacy, and the
    organisation read is the address up to its first dot, the scheme
    included. *)
Theorem contextOf_visualstudio (org project repo prId rest : jstring) :
  let url := lit "https://" ++ org ++ lit ".visualstudio.com/"
               ++ pullRequestAddress project repo prId rest in
  forallb (fun c => negb (N.eqb c 46)) org = true ->
  isSegment project -> isSegment repo -> isNumber prId -> endsNumber rest ->
  leftmost devAzureAt url = None ->
  contextOf url
  = Some {| org := lit "https://" ++ org; project := project; repo := repo;
            prId := prId; isLegacy := true |}.
Proof.
  intros url Ho Hp Hr Hn Hrest Hfirst. unfold contextOf. rewrite Hfirst.
  assert (Hat : visualStudioAt url
                = Some {| org := lit "https://" ++ org; project := project;
                          repo := repo; prId := prId; isLegacy := true |}).
  { unfold visualStudioAt, url.
    set (path := pullRequestAddress project repo prId rest).
    replace (lit "https://" ++ org ++ lit ".visualstudio.com/" ++ path)
      with ((lit "https://" ++ org)
              ++ 46%N :: lit "visualstudio.com/" ++ path)
      by (rewrite <- app_assoc; reflexivity).
    assert (Hdots : forallb (fun c => negb (N.eqb c 46))
                            (lit "https://" ++ org) = true)
      by (rewrite forallb_app, Ho; reflexivity).
    rewrite takeWhile_app, dropWhile_app by (assumption || reflexivity).
    change (46%N :: lit "visualstudio.com/" ++ path)
      with (lit ".visualstudio.com/" ++ path).
    rewrite expect_prefix.
    change (lit "https://" ++ org) with (104%N :: (lit "ttps://" ++ org)).
    cbv beta iota.
    unfold path. rewrite pullRequestPath_address by assumption.
    reflexivity. }
  destruct url; cbn [leftmost]; rewrite Hat; reflexivity.
Qed.

End AddressFacts.

(* ================================================================== *)
(** * The later sections on the scripted worlds *)
(* ================================================================== *)

Section MoreRuns.

Import Scripted Samples ScriptedDom.

Lemma parseReviewResponse_valid_json_witness :
  JSON.parse (litq " {~summary~:~ok~,~issues~:[1]} ")
  = Ok (JObj [(lit "summary", JStr (lit "ok"));
              (lit "issues", JArr [JNum false 1 0])])
  /\ parseStrict (litq " {~summary~:~ok~,~issues~:[1]} ")
     = Ok {| summary := JStr (lit "ok"); issues := JArr [JNum false 1 0] |}
  /\ parseReviewResponse (litq " {~summary~:~ok~,~issues~:[1]} ")
     = Ok {| summary := JStr (lit "ok"); issues := JArr [JNum false 1 0] |}.
Proof.
  split; [vm_compute; reflexivity|].
  apply (@parseReviewResponse_valid_json
           (litq " {~summary~:~ok~,~issues~:[1]} ")
           (JObj [(lit "summary", JStr (lit "ok"));
                  (lit "issues", JArr [JNum false 1 0])])).
  vm_compute. reflexivity.
Defined.

Lemma parseReviewResponse_fence_round_trip_witness :
  JSON.parse (litq "{~issues~:[]}") = Ok (JObj [(lit "issues", JArr [])])
  /\ map lower (lit "JSON") = lit "json"
  /\ parseReviewResponse
       (fence ++ lit "JSON" ++ newline ++ litq "{~issues~:[]}" ++ newline
          ++ fence)
     = parseReviewResponse (litq "{~issues~:[]}")
  /\ parseReviewResponse (litq "{~issues~:[]}")
     = Ok (resultOf (JObj [(lit "issues", JArr [])])).
Proof.
  split; [vm_compute; reflexivity|]. split; [reflexivity|].
  apply (@parseReviewResponse_fence_round_trip
           (lit "JSON") (litq "{~issues~:[]}")
           (JObj [(lit "issues", JArr [])])).
  - vm_compute. reflexivity.
  - left. reflexivity.
Defined.

Lemma parseReviewResponse_recovers_object_witness :
  JSON.parse (cleanFences (lit "Here you go: " ++ 123%N
                             :: litq "~issues~:[{~line~:3}]" ++ 125%N
                             :: lit " Thanks!"))
  = Throw JSON.syntax_error
  /\ parseReviewResponse (lit "Here you go: " ++ 123%N
                            :: litq "~issues~:[{~line~:3}]" ++ 125%N
                            :: lit " Thanks!")
     = Ok {| summary := JNull;
             issues := JArr [JObj [(lit "line", JNum false 3 0)]] |}.
Proof.
  split; [vm_compute; reflexivity|].
  apply (@parseReviewResponse_recovers_object
           (lit "Here you go: ") (litq "~issues~:[{~line~:3}]")
           (lit " Thanks!")
           [(lit "issues", JArr [JObj [(lit "line", JNum false 3 0)]])]
           JSON.syntax_error);
    vm_compute; reflexivity.
Defined.

Lemma handleReview_settles_witness :
  isReviewing (idle offline) = false
  /\ exists outcome st',
       handleReview (lit "all") settings (idle offline) = (Ok outcome, st')
       /\ isReviewing st' = false
       /\ currentSettings st' = Some settings.
Proof.
  split; [reflexivity|].
  apply (@handleReview_settles engine Page browser (lit "all") settings
           (idle offline)).
  reflexivity.
Defined.

Lemma handleReview_failure_stores_nothing_witness :
  exists st',
    handleReview (lit "all") settings (reviewedBefore offline)
    = (Ok (Failure (lit "API error: 500")), st')
    /\ reviewStats st' = reviewStats (reviewedBefore offline).
Proof.
  exists (snd (handleReview (lit "all") settings (reviewedBefore offline))).
  split; [vm_compute; reflexivity|].
  apply (@handleReview_failure_stores_nothing engine Page browser (lit "all")
           settings (reviewedBefore offline)
           (snd (handleReview (lit "all") settings (reviewedBefore offline)))
           (lit "API error: 500")).
  vm_compute. reflexivity.
Defined.

Lemma handleReview_failure_reported_witness :
  exists st',
    handleReview (lit "all") settings (idle offline)
    = (Ok (Failure (lit "API error: 500")), st')
    /\ ((isReviewing (idle offline) = true /\ st' = idle offline
         /\ lit "API error: 500" = lit "Review already in progress")
        \/ (isReviewing (idle offline) = false
            /\ lit "API error: 500" = lit "No code changes found to review")
        \/ (isReviewing (idle offline) = false
            /\ exists log,
                 trace st'
                 = trace (idle offline) ++ log
                   ++ [Notified (failedNotice (lit "API error: 500"))
                                (lit "error")])).
Proof.
  exists (snd (handleReview (lit "all") settings (idle offline))).
  split; [vm_compute; reflexivity|].
  apply (@handleReview_failure_reported engine Page browser (lit "all")
           settings (idle offline)
           (snd (handleReview (lit "all") settings (idle offline)))
           (lit "API error: 500")).
  vm_compute. reflexivity.
Defined.

Lemma reviewDiff_throws_with_the_model_witness :
  let prompt := buildReviewPrompt (FromPage fileA) settings in
  let answered := snd (nextReply numberReply) in
  Gemini.callGeminiAPI post prompt (apiKey settings) (model settings)
                       (world (idle numberReply))
  = (Ok (JNum false 42 0), answered)
  /\ reviewDiff (FromPage fileA) settings (idle numberReply)
     = (Throw (Exn TypeError (lit "response.match is not a function")),
        set_world (idle numberReply) answered).
Proof.
  intros prompt answered.
  split; [vm_compute; reflexivity|].
  apply (proj2 (@reviewDiff_throws_with_the_model engine Page browser
                  (FromPage fileA) settings (idle numberReply)
                  (set_world (idle numberReply) answered)
                  (Exn TypeError (lit "response.match is not a function")))).
  exists (Ok (JNum false 42 0)), answered.
  split; [vm_compute; reflexivity|]. split; [reflexivity|].
  right. exists (JNum false 42 0).
  split; [reflexivity|]. split; [intros text; discriminate|].
  split; reflexivity.
Defined.

(** A reply whose text is a number ends the pass: the failure carries the
    message of the [TypeError], and nothing is stored. *)
Example handleReview_number_reply :
  let run := handleReview (lit "all") settings (idle numberReply) in
  fst run = Ok (Failure (lit "response.match is not a function"))
  /\ reviewStats (snd run) = None
  /\ reviewedResults (trace (snd run)) = [].
Proof. repeat split; vm_compute; reflexivity. Qed.

Lemma fetchChanges_in_order_witness :
  exists diffs st',
    fetchChanges contoso (JStr (lit "abc")) (JStr (lit "def")) changeEntries
                 [] (idle pullRequest)
    = (Ok diffs, st')
    /\ map recordName diffs = [lit "/src/a.js"; lit "/src/new.js"]
    /\ flat_map changePath changeEntries
       = [lit "/src"; lit "/src/a.js"; lit "/src/old.js";
          lit "/img/logo.PNG"; lit "/src/new.js"]
    /\ Subsequence (map recordName diffs) (flat_map changePath changeEntries).
Proof.
  exists (match fst (fetchChanges contoso (JStr (lit "abc"))
                       (JStr (lit "def")) changeEntries [] (idle pullRequest))
          with Ok diffs => diffs | Throw _ => [] end).
  exists (snd (fetchChanges contoso (JStr (lit "abc")) (JStr (lit "def"))
                 changeEntries [] (idle pullRequest))).
  split; [vm_compute; reflexivity|].
  split; [vm_compute; reflexivity|].
  split; [vm_compute; reflexivity|].
  apply (@fetchChanges_in_order Page browser contoso
           (JStr (lit "abc")) (JStr (lit "def")) changeEntries
           (idle pullRequest)
           (snd (fetchChanges contoso (JStr (lit "abc")) (JStr (lit "def"))
                   changeEntries [] (idle pullRequest)))).
  vm_compute. reflexivity.
Defined.

Lemma fetchFileContentByPath_fails_closed_witness :
  wellFormed (lit "/src/a.js") = true
  /\ exists content w,
       fetchFileContentByPath contoso (lit "/src/a.js") (JStr (lit "abc"))
                              (idle pullRequest)
       = (Ok content, set_world (idle pullRequest) w)
       /\ w = snd (fetch (GetItem contoso (lit "/src/a.js") (JStr (lit "abc")))
                         (world (idle pullRequest)))
       /\ (content <> [] ->
           exists response,
             fst (fetch (GetItem contoso (lit "/src/a.js") (JStr (lit "abc")))
                        (world (idle pullRequest)))
             = Ok response
             /\ ok response = true
             /\ text response = Ok content).
Proof.
  split; [reflexivity|].
  apply (@fetchFileContentByPath_fails_closed Page browser contoso
           (lit "/src/a.js") (JStr (lit "abc")) (idle pullRequest)).
  reflexivity.
Defined.

Lemma callGeminiAPI_rejected_witness :
  ok quotaExceeded = false
  /\ exists e,
       Gemini.callGeminiAPI (always quotaExceeded) (lit "Review this")
                            (lit "key") (lit "gemini-2.5-flash-lite") tt
       = (Throw e, tt)
       /\ forall error,
            json quotaExceeded = Ok error -> readable error = true ->
            let message :=
              get_prop_opt (get_prop_opt error (lit "error")) (lit "message") in
            e = Exn PlainError
                  (if truthy message then display message
                   else lit "API error: "
                          ++ show_nat (N.to_nat (status quotaExceeded))).
Proof.
  split; [reflexivity|].
  apply (@callGeminiAPI_rejected engine unit (always quotaExceeded)
           (lit "Review this") (lit "key") (lit "gemini-2.5-flash-lite")
           tt tt quotaExceeded); reflexivity.
Defined.

Lemma callGeminiAPI_reply_witness :
  ok twoParts = true
  /\ (exists data, json twoParts = Ok data /\ readable data = true)
  /\ exists text,
       Gemini.callGeminiAPI (always twoParts) (lit "Review this") (lit "key")
                            (lit "gemini-2.5-flash-lite") tt
       = (Ok text, tt)
       /\ (text = JStr [] \/ truthy text = true).
Proof.
  split; [reflexivity|].
  split.
  { exists (match json twoParts with Ok data => data | Throw _ => JNull end).
    split; vm_compute; reflexivity. }
  destruct (@callGeminiAPI_reply engine unit (always twoParts)
              (lit "Review this") (lit "key") (lit "gemini-2.5-flash-lite")
              tt tt twoParts
              (match json twoParts with Ok data => data | Throw _ => JNull end))
    as (text & Hrun & Hvalue & _);
    [reflexivity | reflexivity | vm_compute; reflexivity | reflexivity |].
  exists text. split; assumption.
Defined.

Lemma handleCodeReview_success_witness :
  exists result,
    Gemini.handleCodeReview (always twoParts) codeData workerSettings tt
    = (Ok result, tt)
    /\ exists apiKey content url body response,
         get_prop workerSettings (lit "apiKey") = Ok apiKey
         /\ truthy apiKey = true
         /\ always twoParts url body tt = (Ok response, tt)
         /\ ok response = true
         /\ result = JObj [(lit "success", JBool true);
                           (lit "content", content)]
         /\ (content = JStr [] \/ truthy content = true).
Proof.
  exists (JObj [(lit "success", JBool true); (lit "content", JStr (lit "[]"))]).
  split; [vm_compute; reflexivity|].
  apply (@handleCodeReview_success engine unit (always twoParts) codeData
           workerSettings tt tt
           (JObj [(lit "success", JBool true);
                  (lit "content", JStr (lit "[]"))])).
  vm_compute. reflexivity.
Defined.

Lemma reviewSettings_defaults_witness :
  unset keyOnly
  /\ Popup.reviewSettings (lit "key") keyOnly
     = Popup.reviewSettings (lit "key") (Popup.installDefaults keyOnly).
Proof.
  split; [repeat constructor|].
  apply (@reviewSettings_defaults (lit "key") keyOnly).
  repeat constructor.
Defined.

Lemma stripIcon_text_witness :
  isWhiteSpace 32 = true
  /\ Popup.stripIcon ([9989%N] ++ 32%N :: lit "Settings saved successfully!")
     = lit "Settings saved successfully!".
Proof.
  split; [reflexivity|].
  apply (@stripIcon_text [9989%N] (lit "Settings saved successfully!") 32%N);
    [discriminate | reflexivity | reflexivity].
Defined.

Lemma updateFilterCounts_totals_witness :
  Panel.hasPanel panelPage = true
  /\ exists criticalCount warningCount suggestionCount,
       Panel.buttons (Panel.updateFilterCounts panelPage)
       = map (Panel.relabel
                (List.length (Panel.summaryDisplays panelPage))
                (List.length (Panel.summaryDisplays panelPage)
                 + List.length (Panel.issueNodes panelPage))
                (criticalCount, warningCount, suggestionCount))
             (Panel.buttons panelPage)
       /\ criticalCount + warningCount + suggestionCount
          = List.length (filter classified (Panel.issueNodes panelPage))
       /\ criticalCount + warningCount + suggestionCount
          + List.length (filter (fun issue => negb (classified issue))
                                (Panel.issueNodes panelPage))
          = List.length (Panel.issueNodes panelPage).
Proof.
  split; [reflexivity|].
  apply (@updateFilterCounts_totals panelPage). reflexivity.
Defined.

(** On the panel of the example the buttons read 5, 1, 1, 1 and 0: the
    issue with severity [blocker] and the one without a severity are
    counted under [All] alone. *)
Example updateFilterCounts_sample :
  map Panel.label (Panel.buttons (Panel.updateFilterCounts panelPage))
  = [lit "All (5)"; lit "Summary (1)"; lit "Critical (1)";
     lit "Warning (1)"; lit "Suggestions (0)"].
Proof. vm_compute. reflexivity. Qed.

Lemma pageStrategies_scanned_witness :
  In (DomScan.extractFromModernViewer listed) (pageStrategies listed)
  /\ DomScan.extractFromModernViewer listed
     = Ok [DomScan.plainRecord None "Current File" (lit "let a = 1;") 0%N]
  /\ Forall scanned
            [DomScan.plainRecord None "Current File" (lit "let a = 1;") 0%N].
Proof.
  split; [right; left; reflexivity|].
  split; [vm_compute; reflexivity|].
  apply (@pageStrategies_scanned Document dom listed
           (DomScan.extractFromModernViewer listed)).
  - right; left; reflexivity.
  - vm_compute. reflexivity.
Defined.

Lemma pageStrategies_throw_witness :
  In (DomScan.extractFromMonacoEditor malformed) (pageStrategies malformed)
  /\ DomScan.extractFromMonacoEditor malformed = Throw uriMalformed
  /\ (nameThrown malformed uriMalformed \/ classThrown malformed uriMalformed)
  /\ (In (DomScan.extractFromMonacoEditor malformed)
         [DomScan.extractFromMonacoEditor malformed;
          DomScan.extractFromGenericCodeBlocks malformed;
          DomScan.extractFromVisibleDiffArea malformed] ->
      nameThrown malformed uriMalformed).
Proof.
  split; [right; right; right; left; reflexivity|].
  split; [vm_compute; reflexivity|].
  apply (@pageStrategies_throw Document dom malformed
           (DomScan.extractFromMonacoEditor malformed) uriMalformed).
  - right; right; right; left; reflexivity.
  - vm_compute. reflexivity.
Defined.

(** On the page whose file container holds an SVG line with text, the
    strategy of the file containers throws a [TypeError], and so does the
    modern viewer when it reads the same container; the strategy of the
    generic code blocks, which reads no class name, returns. *)
Example extractFromFileDiffContainers_svg :
  (exists e,
     DomScan.extractFromFileDiffContainers drawing = Throw e
     /\ kind e = TypeError
     /\ DomScan.className drawing 72%N = DomScan.ClassAnimated)
  /\ DomScan.extractFromGenericCodeBlocks drawing = Ok [].
Proof. split; [eexists|]; repeat split; vm_compute; reflexivity. Qed.

Lemma pageStrategies_thresholds_witness :
  exists diff,
    DomScan.extractFromVisibleDiffArea mainArea = Ok [diff]
    /\ len (content diff) = 101%N
    /\ List.length [diff] <= 1
    /\ Forall (fun diff => (100 < len (content diff))%N) [diff].
Proof.
  exists (match DomScan.extractFromVisibleDiffArea mainArea with
          | Ok (diff :: _) => diff
          | _ => DomScan.plainRecord None "none" [] 0%N
          end).
  split; [vm_compute; reflexivity|].
  split; [vm_compute; reflexivity|].
  apply (proj2 (proj2 (proj2 (@pageStrategies_thresholds Document dom mainArea
                         [match DomScan.extractFromVisibleDiffArea mainArea
                          with
                          | Ok (diff :: _) => diff
                          | _ => DomScan.plainRecord None "none" [] 0%N
                          end])))).
  vm_compute. reflexivity.
Defined.

(** The modern viewer and the visible diff area read every code element
    of their container: with one element its text is the content. *)
Example extractAllVisibleCode_one_element :
  DomScan.extractAllVisibleCode listed 0%N = lit "let a = 1;"
  /\ DomScan.extractAllVisibleCode twoBlocks 0%N
     = lit "function total(price, count) { return price * count; }"
       ++ newline
       ++ lit "function tax(total, rate) { return total * rate / 100; }".
Proof. split; vm_compute; reflexivity. Qed.

Lemma extractDiffs_throws_from_page_witness :
  exists st',
    extractDiffs (lit "all") (idle malformedPage) = (Throw uriMalformed, st')
    /\ (exists log,
          trace st' = trace (idle malformedPage) ++ log
          /\ winnerOutput log = [])
    /\ (exists s, In s domStrategies
                  /\ strategyOf s st' = (Throw uriMalformed, st'))
    /\ (nameThrown (world st') uriMalformed
        \/ classThrown (world st') uriMalformed).
Proof.
  exists (snd (extractDiffs (lit "all") (idle malformedPage))).
  split; [vm_compute; reflexivity|].
  apply (@extractDiffs_throws_from_page engine Page browser (lit "all")
           (idle malformedPage)
           (snd (extractDiffs (lit "all") (idle malformedPage)))
           uriMalformed).
  vm_compute. reflexivity.
Defined.

(** On the page with an SVG line in a file container the pass fails with
    the message of the [TypeError], after the side-by-side view and the
    modern viewer found nothing. *)
Example handleReview_svg_line :
  let run := handleReview (lit "all") settings (idle drawingPage) in
  fst run = Ok (Failure (lit "line.className?.toLowerCase is not a function"))
  /\ invokedStrategies (trace (snd run))
     = [AdoApi; SideBySideView; ModernViewer]
  /\ isReviewing (snd run) = false.
Proof. repeat split; vm_compute; reflexivity. Qed.

Lemma extractFromSideBySideView_shape_witness :
  exists diffs,
    DomScan.extractFromSideBySideView marked = Ok diffs
    /\ (diffs = []
        \/ exists diff first more,
             diffs = [diff]
             /\ scanned diff
             /\ additions diff = Some (first :: more)
             /\ ascending (first :: more)
             /\ deletions diff = Some []
             /\ hasNewCode diff = Some true).
Proof.
  exists (match DomScan.extractFromSideBySideView marked with
          | Ok diffs => diffs
          | Throw _ => []
          end).
  split; [vm_compute; reflexivity|].
  apply (@extractFromSideBySideView_shape Document dom marked).
  vm_compute. reflexivity.
Defined.

(** On the side-by-side view of the example the blank line is skipped,
    the line numbers go, and the two lines left keep their positions. *)
Example extractFromSideBySideView_marked :
  exists diff,
    DomScan.extractFromSideBySideView marked = Ok [diff]
    /\ filename diff = lit "/src/a.js"
    /\ content diff = lit "let a = 1;" ++ newline ++ lit "let b = 2;"
    /\ additions diff = Some [{| line := 1; lineContent := lit "let a = 1;" |};
                              {| line := 3; lineContent := lit "let b = 2;" |}].
Proof. eexists. repeat split; vm_compute; reflexivity. Qed.

Lemma extractDiffFromContainer_entries_witness :
  exists diff,
    DomScan.extractDiffFromContainer container 10%N = Ok diff
    /\ content diff
       = lit "+ const total = price * count;" ++ newline
         ++ lit "  return total;"
    /\ exists added deleted,
         additions diff = Some added
         /\ deletions diff = Some deleted
         /\ hasNewCode diff = Some (negb (isEmpty added))
         /\ ascending added
         /\ ascending deleted
         /\ Forall (entryOf container
                      (DomScan.firstLines container 10%N DomScan.lineSelectors)
                      (addedLine container)) added
         /\ Forall (entryOf container
                      (DomScan.firstLines container 10%N DomScan.lineSelectors)
                      (deletedLine container)) deleted
         /\ (forall l, addedLine container l = true ->
                       deletedLine container l = false).
Proof.
  exists (match DomScan.extractDiffFromContainer container 10%N with
          | Ok diff => diff
          | Throw _ => DomScan.plainRecord None "none" [] 0%N
          end).
  split; [vm_compute; reflexivity|].
  split; [vm_compute; reflexivity|].
  apply (@extractDiffFromContainer_entries Document dom container 10%N).
  vm_compute. reflexivity.
Defined.

Lemma getCurrentFileName_sources_witness :
  DomScan.getCurrentFileName container = Ok (Some (lit "src/app.js"))
  /\ ((exists before selector after el,
         DomScan.fileNameSelectors = before ++ selector :: after
         /\ withoutText container before
         /\ DomScan.querySelector container None selector = Some el
         /\ lit "src/app.js" = DomScan.trimmedText container el
         /\ nonBlank (lit "src/app.js"))
      \/ (withoutText container DomScan.fileNameSelectors
          /\ exists captured,
               DomScan.matchPathParam (DomScan.href container) = Some captured
               /\ captured <> []
               /\ forallb (fun c => negb (N.eqb c 38)) captured = true
               /\ DomScan.decodeURIComponent captured
                  = Ok (lit "src/app.js"))).
Proof.
  split; [vm_compute; reflexivity|].
  apply (@getCurrentFileName_sources Document dom container (lit "src/app.js")).
  vm_compute. reflexivity.
Defined.

Lemma extractFromGenericCodeBlocks_filter_map_witness :
  DomScan.getCurrentFileName nested = Ok None
  /\ DomScan.extractFromGenericCodeBlocks nested
     = Ok (map (fun block =>
                  DomScan.plainRecord None "Code Block"
                    (DomScan.trimmedText nested block) block)
               (filter (fun block =>
                          N.ltb 50 (len (DomScan.trimmedText nested block)))
                       (DomScan.querySelectorAll nested None
                          DomScan.codeBlockSelector))).
Proof.
  split; [vm_compute; reflexivity|].
  apply (@extractFromGenericCodeBlocks_filter_map Document dom nested None).
  vm_compute. reflexivity.
Defined.

(** On the page of the example the [pre] and the [code] inside it give
    two records with the same text, and the short block none. *)
Example extractFromGenericCodeBlocks_nested :
  exists outer inner,
    DomScan.extractFromGenericCodeBlocks nested = Ok [outer; inner]
    /\ content outer = content inner
    /\ element outer = Some 40%N
    /\ element inner = Some 41%N.
Proof. eexists _, _. repeat split; vm_compute; reflexivity. Qed.

Lemma contextOf_dev_azure_witness :
  DomScan.contextOf
    (lit "https://dev.azure.com/" ++ lit "contoso" ++ lit "/"
       ++ pullRequestAddress (lit "web") (lit "shop") (lit "42")
            (lit "?path=/src/a.js"))
  = Some contoso.
Proof.
  apply (@contextOf_dev_azure (lit "contoso") (lit "web") (lit "shop")
           (lit "42") (lit "?path=/src/a.js"));
    [ split; [discriminate | reflexivity]
    | split; [discriminate | reflexivity]
    | split; [discriminate | reflexivity]
    | split; [discriminate | reflexivity]
    | reflexivity ].
Defined.

Lemma contextOf_visualstudio_witness :
  DomScan.leftmost DomScan.devAzureAt
    (lit "https://" ++ lit "contoso" ++ lit ".visualstudio.com/"
       ++ pullRequestAddress (lit "web") (lit "shop") (lit "42") [])
  = None
  /\ DomScan.contextOf
       (lit "https://" ++ lit "contoso" ++ lit ".visualstudio.com/"
          ++ pullRequestAddress (lit "web") (lit "shop") (lit "42") [])
     = Some {| org := lit "https://contoso"; project := lit "web";
               repo := lit "shop"; prId := lit "42"; isLegacy := true |}.
Proof.
  split; [vm_compute; reflexivity|].
  apply (@contextOf_visualstudio (lit "contoso") (lit "web") (lit "shop")
           (lit "42") []);
    [ reflexivity
    | split; [discriminate | reflexivity]
    | split; [discriminate | reflexivity]
    | split; [discriminate | reflexivity]
    | exact I
    | vm_compute; reflexivity ].
Defined.

End MoreRuns.
